(** * streamdeck: the device protocol layer of the Elgato Stream Deck driver

    A shallow embedding of the Go package [streamdeck] (the device
    catalog, the bitmap encoder [makeBitmap], the chunked report writer
    [writeBitmap], the input poller [read] and the session operations
    [NewStreamDeck], [FillImage], [FillColor], [FillPanel]) together with
    the properties its specification states about them.

    Conventions of the embedding:
    - a Go [byte]/[uint8] is a [Z] in [0, 256), its wrap-around written
      with [mod 256]; [uint32] likewise with [mod 2^32]; a Go [int] is a [Z];
    - a [[]byte] is a [list Z]; indexed writes are stdpp's [<[i:=x]>];
    - a Go [error] is its message, [nil] is [None];
    - the HID handle is an explicit world: a script that tells which
      transport call fails, and the trace of the calls made so far;
    - a Go [panic] is the outcome [Panicked];
    - the embedding is sequential: the mutex of the session is left out,
      and a [go] statement is recorded in the order it is executed. *)

From Stdlib Require Import ZArith Lia.
From stdpp Require Import base tactics option list list_numbers strings.

Local Open Scope Z_scope.

(** ** Go scalar conversions *)

Definition byte_of (v : Z) : Z := v mod 256.
Definition uint32 (v : Z) : Z := v mod 2 ^ 32.

(** [binary.Write(out, binary.LittleEndian, v)] for 16 and 32 bit values. *)
Definition le16 (v : Z) : list Z :=
  [v mod 256; (v / 2 ^ 8) mod 256].
Definition le32 (v : Z) : list Z :=
  [v mod 256; (v / 2 ^ 8) mod 256; (v / 2 ^ 16) mod 256; (v / 2 ^ 24) mod 256].

(** Index a byte slice with a Go [int]. *)
Definition at_ (l : list Z) (i : Z) : option Z :=
  if decide (0 ≤ i) then l !! Z.to_nat i else None.

Definition len {A} (l : list A) : Z := Z.of_nat (length l).

(** ** Package constants (streamdeck.go) *)

Definition VendorID : Z := 4057.
Definition NumButtons : Z := 15.
Definition ButtonSize : Z := 80.
Definition NumButtonColumns : Z := 5.
Definition NumButtonRows : Z := 3.
Definition Spacer : Z := 19.
Definition PanelWidth : Z :=
  NumButtonColumns * ButtonSize + Spacer * (NumButtonColumns - 1).
Definition PanelHeight : Z :=
  NumButtonRows * ButtonSize + Spacer * (NumButtonRows - 1).

(** [BtnPressed] is [iota] (0), [BtnReleased] is 1. *)
Inductive BtnState := BtnPressed | BtnReleased.

Global Instance BtnState_eq_dec : EqDecision BtnState.
Proof. solve_decision. Defined.

(** ** Device catalog (devices.go) *)

Record StreamdeckDevice := {
  ProductID : Z;
  Name : string;
  dev_NumButtons : Z;
  dev_ButtonSize : Z;
  StreamBuffer : Z;
  dev_Spacer : Z;
  dev_NumButtonColumns : Z;
  dev_NumButtonRows : Z
}.

Definition legacy_device : StreamdeckDevice :=
  {| ProductID := 0x0060; Name := "Legacy Stream Deck";
     dev_NumButtons := 15; dev_ButtonSize := 72; StreamBuffer := 8192;
     dev_Spacer := 19; dev_NumButtonColumns := 5; dev_NumButtonRows := 3 |}.

Definition mini_device : StreamdeckDevice :=
  {| ProductID := 0x0063; Name := "Stream Deck Mini";
     dev_NumButtons := 6; dev_ButtonSize := 80; StreamBuffer := 1024;
     dev_Spacer := 19; dev_NumButtonColumns := 3; dev_NumButtonRows := 2 |}.

Definition mini_mk2_device : StreamdeckDevice :=
  {| ProductID := 0x0090; Name := "Stream Deck Mini";
     dev_NumButtons := 6; dev_ButtonSize := 80; StreamBuffer := 1024;
     dev_Spacer := 19; dev_NumButtonColumns := 3; dev_NumButtonRows := 2 |}.

Definition streamdeckDevices : list StreamdeckDevice :=
  [legacy_device; mini_device; mini_mk2_device].

(** ** Images (the part of Go's [image] package the driver uses) *)

(** [image.Rectangle]: [Min] inclusive, [Max] exclusive. *)
Record Rectangle := { MinX : Z; MinY : Z; MaxX : Z; MaxY : Z }.

Definition Dx (r : Rectangle) : Z := MaxX r - MinX r.
Definition Dy (r : Rectangle) : Z := MaxY r - MinY r.
Definition rect_empty (r : Rectangle) : bool :=
  (MaxX r <=? MinX r) || (MaxY r <=? MinY r).
Definition point_in (x y : Z) (r : Rectangle) : bool :=
  (MinX r <=? x) && (x <? MaxX r) && (MinY r <=? y) && (y <? MaxY r).
Definition ZR : Rectangle := {| MinX := 0; MinY := 0; MaxX := 0; MaxY := 0 |}.
Definition rect_intersect (r s : Rectangle) : Rectangle :=
  let r' := {| MinX := Z.max (MinX r) (MinX s); MinY := Z.max (MinY r) (MinY s);
               MaxX := Z.min (MaxX r) (MaxX s); MaxY := Z.min (MaxY r) (MaxY s) |} in
  if rect_empty r' then ZR else r'.

(** What [color.Color.RGBA()] returns: four [uint32] channels. *)
Record Color := { c_r : Z; c_g : Z; c_b : Z; c_a : Z }.

(** [color.RGBA{R, G, B, A}.RGBA()]: each 8-bit channel [c] becomes
    [c | c << 8]. *)
Definition RGBA8 (r g b a : Z) : Color :=
  {| c_r := Z.lor r (Z.shiftl r 8); c_g := Z.lor g (Z.shiftl g 8);
     c_b := Z.lor b (Z.shiftl b 8); c_a := Z.lor a (Z.shiftl a 8) |}.

(** The dynamic type behind an [image.Image] interface value. *)
Inductive ImageType := TyRGBA | TyNRGBA | TyGray | TyPaletted | TyYCbCr.

Global Instance ImageType_eq_dec : EqDecision ImageType.
Proof. solve_decision. Defined.

(** The name under which the runtime prints a dynamic type. *)
Definition type_name (t : ImageType) : string :=
  match t with
  | TyRGBA => "*image.RGBA"
  | TyNRGBA => "*image.NRGBA"
  | TyGray => "*image.Gray"
  | TyPaletted => "*image.Paletted"
  | TyYCbCr => "*image.YCbCr"
  end.

(** An [image.Image]: its dynamic type, [Bounds()] and [At(x, y).RGBA()]. *)
Record Image := {
  img_type : ImageType;
  Bounds : Rectangle;
  At : Z → Z → Color
}.

(** An [image.RGBA] holding the 8-bit pixels [pix x y = (R, G, B, A)]:
    [At] answers the zero colour outside of the rectangle. *)
Definition rgba_image (r : Rectangle) (pix : Z → Z → Z * Z * Z * Z) : Image :=
  {| img_type := TyRGBA; Bounds := r;
     At := λ x y, if point_in x y r
                  then let '(cr, cg, cb, ca) := pix x y in RGBA8 cr cg cb ca
                  else RGBA8 0 0 0 0 |}.

(** [SubImage(r)] of an RGBA image: the same pixels seen through [r ∩ Rect]. *)
Definition SubImage (img : Image) (r : Rectangle) : Image :=
  let r' := rect_intersect r (Bounds img) in
  {| img_type := TyRGBA; Bounds := r';
     At := λ x y, if point_in x y r' then At img x y else RGBA8 0 0 0 0 |}.

(** ** Bitmap encoder *)

(** [for i := 0; i < n; i++ { out.Write(body i) }] *)
Definition for_range (n : Z) (body : Z → list Z) : list Z :=
  mjoin (body <$> seqZ 0 n).

(** [for rotate < 0 { rotate += 360 }], with the number of iterations
    bounded by [fuel]. *)
Fixpoint add360 (fuel : nat) (rotate : Z) : Z :=
  match fuel with
  | O => rotate
  | S fuel' => if rotate <? 0 then add360 fuel' (rotate + 360) else rotate
  end.

Definition normalize_rotate (rotate : Z) : Z :=
  add360 (Z.to_nat (- rotate)) rotate.

(** [r, g, b, _ := c.RGBA(); out.Write([]byte{byte(b), byte(g), byte(r)})] *)
Definition bgr (c : Color) : list Z :=
  [byte_of (c_b c); byte_of (c_g c); byte_of (c_r c)].

Definition bitmap_header (width height : Z) : list Z :=
  let pixelSize := width * height * 3 in
  let fileSize := pixelSize + 54 in
  [66; 77] ++ le32 (uint32 fileSize) ++ [0; 0; 0; 0] ++ le32 (uint32 54)
  ++ le32 (uint32 40) ++ le32 (uint32 width) ++ le32 (uint32 height)
  ++ le16 1 ++ le16 24 ++ le32 (uint32 0) ++ le32 (uint32 pixelSize)
  ++ le32 3780 ++ le32 3780 ++ le32 (uint32 0) ++ le32 (uint32 0).

Definition bitmap_pixels (img : Image) (rotate width height : Z) : list Z :=
  if decide (rotate = 0) then
    for_range height (λ y, for_range width (λ x, bgr (At img x y)))
  else if decide (rotate = 90) then
    for_range width (λ x, for_range height (λ y, bgr (At img x (height - y - 1))))
  else if decide (rotate = 180) then
    for_range height (λ y, for_range width (λ x,
      bgr (At img (width - x - 1) (height - y - 1))))
  else if decide (rotate = 270) then
    for_range width (λ x, for_range height (λ y, bgr (At img (width - x - 1) y)))
  else [].

Definition makeBitmap (img : Image) (rotate : Z) : list Z :=
  let rotate := normalize_rotate rotate in
  let width := Dx (Bounds img) in
  let height := Dy (Bounds img) in
  let '(width, height) :=
    if decide (rotate = 90 ∨ rotate = 270) then (height, width) else (width, height) in
  bitmap_header width height ++ bitmap_pixels img rotate width height.

(** ** The HID handle and the effects of the driver *)

Definition error := string.

(** How a call ends: it returns, it panics, or the bounded model of one
    of its loops ran out of iterations (shown impossible below). *)
Inductive outcome (A : Type) :=
| Done (a : A)
| Panicked (msg : string)
| OutOfFuel.
Arguments Done {A} a.
Arguments Panicked {A} msg.
Arguments OutOfFuel {A}.

(** What the driver does to the outside, in program order. *)
Inductive Action :=
| SetFeatureReport (id : Z) (payload : list Z)
| Write (frame : list Z)
| GoRead.

(** The handle: [script n] is the error (if any) with which the [n]-th
    action fails; [trace] holds the actions performed so far. *)
Record Hid := { script : nat → option error; trace : list Action }.

Definition M (A : Type) : Type := Hid → outcome A * Hid.

Definition ret {A} (a : A) : M A := λ h, (Done a, h).
Definition panic {A} (msg : string) : M A := λ h, (Panicked msg, h).
Definition diverge {A} : M A := λ h, (OutOfFuel, h).
Definition bind {A B} (m : M A) (k : A → M B) : M B :=
  λ h, match m h with
       | (Done a, h') => k a h'
       | (Panicked msg, h') => (Panicked msg, h')
       | (OutOfFuel, h') => (OutOfFuel, h')
       end.

Notation "'let!' x ':=' m 'in' k" := (bind m (λ x, k))
  (at level 10, x name, m at level 100, k at level 200).

(** One call on the handle: it is recorded, and the script decides
    whether it fails. *)
Definition perform (a : Action) : M (option error) :=
  λ h, (Done (script h (length (trace h))),
        {| script := script h; trace := trace h ++ [a] |}).

Definition device_SetFeatureReport (id : Z) (payload : list Z) : M (option error) :=
  perform (SetFeatureReport id payload).
Definition device_Write (frame : list Z) : M (option error) :=
  perform (Write frame).
Definition go_read : M unit := let! _ := perform GoRead in ret ().

(** [for _, x := range l { s = body s x }] *)
Fixpoint mfold {S X} (body : S → X → M S) (s : S) (l : list X) : M S :=
  match l with
  | [] => ret s
  | x :: l' => let! s' := body s x in mfold body s' l'
  end.

(** ** Argument checks *)

Definition checkValidKeyIndex (keyIndex : Z) : option error :=
  if decide (keyIndex < 0 ∨ keyIndex > 15) then Some "invalid key index"
  else None.

Definition checkRGB (value : Z) : option error :=
  if decide (value < 0 ∨ value > 255) then Some "invalid color range"
  else None.

Definition itob (i : Z) : BtnState :=
  if decide (i = 0) then BtnReleased else BtnPressed.

(** ** Session *)

(** A registered callback is known by its identity. *)
Definition BtnEvent := nat.

(** The session; its handle [sd.device] is the state the operations
    below run on. *)

Record StreamDeck := {
  btnEventCb : option BtnEvent;
  btnState : list BtnState;
  info : StreamdeckDevice
}.

Definition ButtonCount (sd : StreamDeck) : Z := dev_NumButtons (info sd).

Definition SetBtnEventCb (sd : StreamDeck) (ev : option BtnEvent) : StreamDeck :=
  {| btnEventCb := ev; btnState := btnState sd; info := info sd |}.

(** ** Chunked report writer *)

(** [copy(dst[off:], src)] *)
Definition copy_at (off : nat) (dst src : list Z) : list Z :=
  take off dst ++ take (length dst - off) src ++ drop (off + length src) dst.

Fixpoint writeBitmap_loop (fuel : nat) (out : list Z) (page_no : Z)
    (buf : list Z) : M (option error) :=
  match fuel with
  | O => diverge
  | S fuel' =>
    let out := <[2%nat := page_no]> out in
    let page_no := byte_of (page_no + 1) in
    let out := copy_at 16 out buf in
    let '(out, buf) :=
      if decide (len buf ≤ len out - 16)
      then (<[4%nat := 1]> out, [])
      else (out, drop (Z.to_nat (len out - 16)) buf) in
    let! err := device_Write out in
    match err with
    | Some e => panic ("failed to setreport: " +:+ e)
    | None =>
      if decide (len buf = 0) then ret None
      else writeBitmap_loop fuel' out page_no buf
    end
  end.

Definition writeBitmap (sd : StreamDeck) (key : Z) (buf : list Z) : M (option error) :=
  let out := replicate 1024 0 in
  let out := <[0%nat := 0x02]> out in
  let out := <[1%nat := 0x01]> out in
  let out := <[5%nat := byte_of (key + 1)]> out in
  writeBitmap_loop (S (length buf)) out 0 buf.

(** ** Fill operations *)

Definition FillImage (sd : StreamDeck) (btnIndex : Z) (img : Image) : M (option error) :=
  match checkValidKeyIndex btnIndex with
  | Some e => ret (Some e)
  | None =>
    let imgBuf := makeBitmap img 270 in
    writeBitmap sd (byte_of btnIndex) imgBuf
  end.

(** [image.NewRGBA(image.Rect(0, 0, ButtonSize, ButtonSize))] filled by
    [draw.Draw] with the uniform colour [color.RGBA{r, g, b, 0}]. *)
Definition uniform_button (r g b : Z) : Image :=
  rgba_image {| MinX := 0; MinY := 0; MaxX := ButtonSize; MaxY := ButtonSize |}
             (λ _ _, (byte_of r, byte_of g, byte_of b, 0)).

Definition FillColor (sd : StreamDeck) (btnIndex r g b : Z) : M (option error) :=
  match checkRGB r with
  | Some e => ret (Some e)
  | None =>
  match checkRGB g with
  | Some e => ret (Some e)
  | None =>
  match checkRGB b with
  | Some e => ret (Some e)
  | None => FillImage sd btnIndex (uniform_button r g b)
  end end end.

Definition ClearBtn (sd : StreamDeck) (btnIndex : Z) : M (option error) :=
  match checkValidKeyIndex btnIndex with
  | Some e => ret (Some e)
  | None => FillColor sd btnIndex 0 0 0
  end.

(** [for i := sd.ButtonCount() - 1; i >= 0; i-- { sd.ClearBtn(i) }] *)
Definition ClearAllBtns (sd : StreamDeck) : M unit :=
  mfold (λ _ i, let! _ := ClearBtn sd i in ret ()) () (reverse (seqZ 0 (ButtonCount sd))).

Definition Reset (sd : StreamDeck) : M (option error) :=
  let payload := replicate 17 0 in
  let payload := <[0%nat := 0x0b]> payload in
  let payload := <[1%nat := 0x63]> payload in
  device_SetFeatureReport 0 payload.

Definition SetBrightness (sd : StreamDeck) (pc : Z) : M (option error) :=
  let payload := replicate 17 0 in
  let payload := <[0%nat := 0x05]> payload in
  let payload := <[1%nat := 0x55]> payload in
  let payload := <[2%nat := 0xaa]> payload in
  let payload := <[3%nat := 0xd1]> payload in
  let payload := <[4%nat := 0x01]> payload in
  let payload := <[5%nat := pc]> payload in
  device_SetFeatureReport 0 payload.

(** A USB device as [hid.UsbWalk] shows it: vendor, product, and how
    opening it ends. *)
Record UsbDevice := { usb_vendor : Z; usb_product : Z; usb_open : option error }.

Definition supported (d : UsbDevice) : bool :=
  bool_decide (usb_vendor d = VendorID)
  && bool_decide (Exists (λ sd, ProductID sd = usb_product d) streamdeckDevices).

(** [for _, sdinfo = range streamdeckDevices { if ... { break } }]: the
    first match, and the last entry when nothing matches. *)
Fixpoint find_info (product : Z) (l : list StreamdeckDevice)
    (last : StreamdeckDevice) : StreamdeckDevice :=
  match l with
  | [] => last
  | d :: l' => if decide (ProductID d = product) then d else find_info product l' d
  end.

Definition NewStreamDeck (serial : list string) (usb : list UsbDevice)
    : M (option StreamDeck * option error) :=
  if decide (len serial > 1) then
    ret (None, Some "only <= 1 serial numbers must be provided")
  else
    match filter (λ d, supported d = true) usb with
    | [] => ret (None, Some "no stream deck device found")
    | d :: _ =>
      match usb_open d with
      | Some e => ret (None, Some e)
      | None =>
        let sdinfo := find_info (usb_product d) streamdeckDevices legacy_device in
        let sd := {| btnEventCb := None;
                     btnState := replicate (Z.to_nat NumButtons) BtnPressed;
                     info := sdinfo |} in
        let sd := {| btnEventCb := btnEventCb sd;
                     btnState := (λ _, BtnReleased) <$> btnState sd;
                     info := info sd |} in
        let! err := Reset sd in
        match err with
        | Some e => ret (None, Some e)
        | None =>
          let! _ := SetBrightness sd 100 in
          let! _ := ClearAllBtns sd in
          let! _ := go_read in
          ret (Some sd, None)
        end
      end
    end.

(** ** Input poller *)

(** What [ReadInputPacket] hands back. *)
Inductive ReadResult := ReadErr (e : error) | ReadOk (data : list Z).

(** [go sd.btnEventCb(i, btnState)]: a started callback invocation. *)
Record Notification := { n_cb : BtnEvent; n_index : Z; n_state : BtnState }.

(** [for i, b := range data { ... }] over the stripped report, from
    index [i] on. *)
Fixpoint read_buttons (cb : option BtnEvent) (i : nat) (data : list Z)
    (st : list BtnState) : list BtnState * list Notification :=
  match data with
  | [] => (st, [])
  | b :: data' =>
    if decide (length st ≤ i)%nat then (st, [])
    else if decide (st !! i ≠ Some (itob b)) then
      let st := <[i := itob b]> st in
      let started :=
        match cb with
        | Some f => [{| n_cb := f; n_index := Z.of_nat i; n_state := itob b |}]
        | None => []
        end in
      let '(st', ns) := read_buttons cb (S i) data' st in
      (st', started ++ ns)
    else read_buttons cb (S i) data' st
  end.

(** One turn of the [for] loop of [read]. *)
Definition read_iteration (sd : StreamDeck) (r : ReadResult)
    : outcome (StreamDeck * list Notification) :=
  match r with
  | ReadErr _ => Done (sd, [])
  | ReadOk [] => Panicked "runtime error: index out of range [0] with length 0"
  | ReadOk (d0 :: data) =>
    if decide (d0 ≠ 1) then Done (sd, [])
    else
      let '(st, ns) := read_buttons (btnEventCb sd) 0 data (btnState sd) in
      Done ({| btnEventCb := btnEventCb sd; btnState := st; info := info sd |}, ns)
  end.

(** The first turns of [read], one per read result, with the
    notifications in the order they are started. *)
Fixpoint read (sd : StreamDeck) (rs : list ReadResult)
    : outcome (StreamDeck * list Notification) :=
  match rs with
  | [] => Done (sd, [])
  | r :: rs' =>
    match read_iteration sd r with
    | Done (sd', ns) =>
      match read sd' rs' with
      | Done (sd'', ns') => Done (sd'', ns ++ ns')
      | Panicked msg => Panicked msg
      | OutOfFuel => OutOfFuel
      end
    | Panicked msg => Panicked msg
    | OutOfFuel => OutOfFuel
    end
  end.

(** ** Panel fill *)

Section Panel.
(** The image transforms of the [gift] library are outside of the
    package: what they compute is left open. *)
Variable gift_bounds_resize : Rectangle → Z → Z → Rectangle.
Variable gift_draw_resize : Image → Z → Z → Z → Z → Z * Z * Z * Z.
Variable gift_bounds_crop : Rectangle → Z → Z → Rectangle.
Variable gift_draw_crop : Image → Z → Z → Z → Z → Z * Z * Z * Z.
(** [int(float32(dy) / (float32(dx) / float32(PanelWidth)))] *)
Variable scaled_height : Z → Z → Z.

Definition resize (img : Image) (width height : Z) : Image :=
  rgba_image (gift_bounds_resize (Bounds img) width height)
             (gift_draw_resize img width height).

Definition cropCenter (img : Image) (width height : Z) : Image :=
  rgba_image (gift_bounds_crop (Bounds img) width height)
             (gift_draw_crop img width height).

Definition button_rect (row col : Z) : Rectangle :=
  {| MinX := PanelWidth - ButtonSize - col * ButtonSize - col * Spacer;
     MinY := row * ButtonSize + row * Spacer;
     MaxX := PanelWidth - 1 - col * ButtonSize - col * Spacer;
     MaxY := ButtonSize - 1 + row * ButtonSize + row * Spacer |}.

(** [img.( *image.RGBA)]: the type assertion panics on any other type,
    with the runtime's message, which names the type found. *)
Definition assert_RGBA (img : Image) : M Image :=
  if decide (img_type img = TyRGBA) then ret img
  else panic ("interface conversion: image.Image is "
              +:+ type_name (img_type img) +:+ ", not *image.RGBA").

Definition FillPanel (sd : StreamDeck) (img : Image) : M (option error) :=
  let rect := Bounds img in
  let img :=
    if decide (Dx rect ≠ PanelWidth)
    then resize img PanelWidth (scaled_height (Dx rect) (Dy rect))
    else img in
  let rect := Bounds img in
  let img :=
    if decide (Dx rect > PanelWidth ∨ Dy rect > PanelHeight)
    then cropCenter img PanelWidth PanelHeight
    else img in
  let! _ :=
    mfold (λ counter row,
      mfold (λ counter col,
        let! rgba := assert_RGBA img in
        let! _ := FillImage sd counter (SubImage rgba (button_rect row col)) in
        ret (counter + 1))
      counter (seqZ 0 NumButtonColumns))
    0 (seqZ 0 NumButtonRows) in
  ret None.
End Panel.

(** ** Reading a bitmap back (the specification's side of the round trip) *)

Definition RGB : Type := Z * Z * Z.

Definition rgb_of (p : Z * Z * Z * Z) : RGB :=
  let '(r, g, b, _) := p in (r, g, b).

Definition le32_decode (bs : list Z) (off : Z) : option Z :=
  b0 ← at_ bs off; b1 ← at_ bs (off + 1);
  b2 ← at_ bs (off + 2); b3 ← at_ bs (off + 3);
  Some (b0 + 2 ^ 8 * b1 + 2 ^ 16 * b2 + 2 ^ 24 * b3).

(** The pixel at column [x] of the stored row [row]: the header fields
    give the width and where the pixel data start; three bytes per
    pixel, blue, green, red. *)
Definition stored_pixel (bs : list Z) (x row : Z) : option RGB :=
  w ← le32_decode bs 18; off ← le32_decode bs 10;
  let i := off + (row * w + x) * 3 in
  b ← at_ bs i; g ← at_ bs (i + 1); r ← at_ bs (i + 2);
  Some (r, g, b).

(** The specification's decoder: rows are stored bottom-up, so that the
    pixel row [y] of the picture is the stored row [height - 1 - y]. *)
Definition decode_bottom_up (bs : list Z) (x y : Z) : option RGB :=
  h ← le32_decode bs 22; stored_pixel bs x (h - 1 - y).

(** The decoder that takes the rows in the order they are stored: the
    first stored row is the pixel row 0. *)
Definition decode_stored_order (bs : list Z) (x y : Z) : option RGB :=
  stored_pixel bs x y.

(** A square picture of side [n] turned clockwise by [angle] degrees. *)
Definition rotate_grid {A} (n angle : Z) (g : Z → Z → option A) : Z → Z → option A :=
  if decide (angle = 0) then g
  else if decide (angle = 90) then λ x y, g y (n - 1 - x)
  else if decide (angle = 180) then λ x y, g (n - 1 - x) (n - 1 - y)
  else if decide (angle = 270) then λ x y, g (n - 1 - y) x
  else λ _ _, None.

Definition inverse_rotation (angle : Z) : Z := (360 - angle) mod 360.

Definition square (n : Z) : Rectangle :=
  {| MinX := 0; MinY := 0; MaxX := n; MaxY := n |}.

(** The four channels of a stored pixel are bytes. *)
Definition pixel_bytes (p : Z * Z * Z * Z) : Prop :=
  let '(r, g, b, a) := p in
  0 ≤ r < 256 ∧ 0 ≤ g < 256 ∧ 0 ≤ b < 256 ∧ 0 ≤ a < 256.

(** A test picture of the size of a button: the pixel at [(x, y)] is
    [(x, y, 0)], opaque. *)
Definition gradient_pix (x y : Z) : Z * Z * Z * Z :=
  (x mod 256, y mod 256, 0, 255).

Definition gradient_button : Image :=
  rgba_image (square ButtonSize) gradient_pix.

(** A white picture of the size of a button whose rectangle starts at
    (10, 10), as [SubImage] gives. *)
Definition shifted_white_button : Image :=
  rgba_image {| MinX := 10; MinY := 10;
                MaxX := 10 + ButtonSize; MaxY := 10 + ButtonSize |}
             (λ _ _, (255, 255, 255, 255)).

(** ** Frames of one chunked write (the specification's side) *)

(** The frames the handle received, in order. *)
Definition frames_of (t : list Action) : list (list Z) :=
  omap (λ a, match a with Write f => Some f | _ => None end) t.

(** A handle on which every call succeeds, with nothing done so far. *)
Definition healthy : Hid := {| script := λ _, None; trace := [] |}.

(** A handle on which only the call number [k] fails, with error [e]. *)
Definition failing_at (k : nat) (e : error) : Hid :=
  {| script := λ n, if decide (n = k) then Some e else None; trace := [] |}.

(** Payload bytes per frame: the frame size less the 16 header bytes. *)
Definition chunk : Z := 1024 - 16.

(** How many bytes of a bitmap of [total] bytes go into frame [i]. *)
Definition payload_len (total : Z) (i : nat) : nat :=
  Z.to_nat (Z.min chunk (total - chunk * Z.of_nat i)).

(** The payload of frame [i]: its bytes from offset 16 on, as many as
    were copied into it. *)
Definition payload (total : Z) (i : nat) (frame : list Z) : list Z :=
  take (payload_len total i) (drop 16 frame).

Definition payloads (total : Z) (frames : list (list Z)) : list Z :=
  mjoin (imap (payload total) frames).

(** The frame that one turn of the loop of [writeBitmap] hands to the
    transport, from the buffer [out] the previous turn left. *)
Definition next_frame (out : list Z) (page_no : Z) (buf : list Z) : list Z :=
  let out := copy_at 16 (<[2%nat := page_no]> out) buf in
  if decide (len buf ≤ len out - 16) then <[4%nat := 1]> out else out.

(** The frames of the turns of the loop, in order, as long as no write
    fails. *)
Fixpoint frames_loop (fuel : nat) (out : list Z) (page_no : Z)
    (buf : list Z) : list (list Z) :=
  match fuel with
  | O => []
  | S fuel' =>
    let f := next_frame out page_no buf in
    if decide (len buf ≤ len f - 16) then [f]
    else f :: frames_loop fuel' f (byte_of (page_no + 1))
                (drop (Z.to_nat (len f - 16)) buf)
  end.

(** The buffer [writeBitmap] starts from. *)
Definition first_out (key : Z) : list Z :=
  <[5%nat := byte_of (key + 1)]> (<[1%nat := 0x01]> (<[0%nat := 0x02]> (replicate 1024 0))).

(** The frames of [writeBitmap key buf] when every write succeeds. *)
Definition frames (key : Z) (buf : list Z) : list (list Z) :=
  frames_loop (S (length buf)) (first_out key) 0 buf.

(** The handle [h] after the actions [acts]. *)
Definition after (h : Hid) (acts : list Action) : Hid :=
  {| script := script h; trace := trace h ++ acts |}.

(** The calls number [from], ..., [from + n - 1] on [h] all succeed. *)
Definition succeed (h : Hid) (from n : nat) : Prop :=
  ∀ j, (j < n)%nat → script h (from + j) = None.

(** The end-of-stream flag of frame [i] out of [n]. *)
Definition eof_flag (i n : nat) : Z := if decide (S i = n) then 1 else 0.

(** Sessions on the catalog's devices, as [NewStreamDeck] builds them. *)
Definition session_of (d : StreamdeckDevice) : StreamDeck :=
  {| btnEventCb := None;
     btnState := replicate (Z.to_nat NumButtons) BtnReleased;
     info := d |}.

Definition legacy_session : StreamDeck := session_of legacy_device.
Definition mini_session : StreamDeck := session_of mini_device.

(** A picture of the size of the panel that is not an [image.RGBA], as
    decoding a PNG file gives. *)
Definition nrgba_panel : Image :=
  {| img_type := TyNRGBA;
     Bounds := {| MinX := 0; MinY := 0; MaxX := PanelWidth; MaxY := PanelHeight |};
     At := λ _ _, RGBA8 0 0 0 255 |}.

(** The bitmap of a black button, the frames that clear the buttons
    [n - 1] down to 0, and the two feature reports of the setup. *)
Definition black_bitmap : list Z := makeBitmap (uniform_button 0 0 0) 270.

Definition clear_frames_of (l : list Z) : list (list Z) :=
  mjoin ((λ i, frames (byte_of i) black_bitmap) <$> l).

Definition clear_frames (n : Z) : list (list Z) :=
  clear_frames_of (reverse (seqZ 0 n)).

Definition reset_payload : list Z :=
  [0x0b; 0x63; 0; 0; 0; 0; 0; 0; 0; 0; 0; 0; 0; 0; 0; 0; 0].

Definition brightness_payload (pc : Z) : list Z :=
  [0x05; 0x55; 0xaa; 0xd1; 0x01; pc; 0; 0; 0; 0; 0; 0; 0; 0; 0; 0; 0].

(** A Stream Deck Mini on the bus that opens without error. *)
Definition mini_usb : UsbDevice :=
  {| usb_vendor := VendorID; usb_product := 0x0063; usb_open := None |}.

(** A read the poller does not process: a failed read, or a report
    whose first byte is not 1. *)
Definition skipped (r : ReadResult) : Prop :=
  match r with
  | ReadErr _ => True
  | ReadOk [] => False
  | ReadOk (d0 :: _) => d0 ≠ 1
  end.

(** ** The poller's notifications, spelled out *)

(** The callback the poller would start for button [k] with byte [b],
    if the stored state of the button differs. *)
Definition notification_for (cb : option BtnEvent) (st : list BtnState)
    (k : nat) (b : Z) : option Notification :=
  match cb with
  | Some f =>
    if decide ((k < length st)%nat ∧ st !! k ≠ Some (itob b))
    then Some {| n_cb := f; n_index := Z.of_nat k; n_state := itob b |}
    else None
  | None => None
  end.

(** The notifications of a report whose first state byte is for button
    [i]. *)
Fixpoint notifications_from (cb : option BtnEvent) (st : list BtnState)
    (i : nat) (data : list Z) : list Notification :=
  match data with
  | [] => []
  | b :: data' =>
    match notification_for cb st i b with
    | Some n => n :: notifications_from cb st (S i) data'
    | None => notifications_from cb st (S i) data'
    end
  end.

(** ** The frames of a panel fill *)

(** The rectangle of the whole panel. *)
Definition panel_rect : Rectangle :=
  {| MinX := 0; MinY := 0; MaxX := PanelWidth; MaxY := PanelHeight |}.

(** The bitmap [FillPanel] makes for the button at [row], [col]. *)
Definition cell_bitmap (img : Image) (row col : Z) : list Z :=
  makeBitmap (SubImage img (button_rect row col)) 270.

(** The frames of one row of the panel, the first button of the row
    being number [counter]. *)
Fixpoint row_frames (img : Image) (row counter : Z) (cols : list Z)
    : list (list Z) :=
  match cols with
  | [] => []
  | col :: cols' =>
    frames (byte_of counter) (cell_bitmap img row col)
    ++ row_frames img row (counter + 1) cols'
  end.

Definition panel_frames (img : Image) : list (list Z) :=
  row_frames img 0 0 [0; 1; 2; 3; 4]
  ++ row_frames img 1 5 [0; 1; 2; 3; 4]
  ++ row_frames img 2 10 [0; 1; 2; 3; 4].

(** ** Widgets: the LED button, the label and [WriteText] *)

(** [uint8(c >> 8)] of the four channels of a colour: what storing the
    colour into an [image.RGBA] keeps. *)
Definition to8 (c : Color) : Z * Z * Z * Z :=
  (byte_of (Z.shiftr (c_r c) 8), byte_of (Z.shiftr (c_g c) 8),
   byte_of (Z.shiftr (c_b c) 8), byte_of (Z.shiftr (c_a c) 8)).

(** [image.NewRGBA(image.Rect(0, 0, size, size))] *)
Definition new_rgba (size : Z) : Image :=
  rgba_image (square size) (λ _ _, (0, 0, 0, 0)).

(** [draw.Draw(dst, dst.Bounds(), image.NewUniform(col), image.ZP, draw.Src)] *)
Definition draw_uniform (dst : Image) (col : Color) : Image :=
  rgba_image (Bounds dst) (λ _ _, to8 col).

(** [draw.Draw(dst, dst.Bounds(), src, image.ZP, draw.Src)]: the points
    of [dst] whose source point lies in the rectangle of [src] take the
    colour of [src]; the others keep theirs. *)
Definition draw_Src (dst src : Image) : Image :=
  rgba_image (Bounds dst) (λ x y,
    let sx := x - MinX (Bounds dst) in
    let sy := y - MinY (Bounds dst) in
    if point_in sx sy (Bounds src) then to8 (At src sx sy) else to8 (At dst x y)).

(** [image.White] and [image.Black] as [RGBA()] gives them. *)
Definition White : Color := {| c_r := 0xffff; c_g := 0xffff; c_b := 0xffff; c_a := 0xffff |}.
Definition Black : Color := {| c_r := 0; c_g := 0; c_b := 0; c_a := 0xffff |}.

(** The font sizes of the widgets are the literals 32 and 26. *)
Record textParams := { fontSize : Z; posX : Z; posY : Z }.

Inductive LEDColor := LEDRed | LEDGreen | LEDYellow | LEDOff.

Record LedButton := {
  lb_streamDeck : StreamDeck;
  lb_ledColor : LEDColor;
  lb_text : string;
  lb_textColor : Color;
  lb_id : Z;
  lb_state : bool
}.

Record Label := {
  l_streamDeck : StreamDeck;
  l_text : string;
  l_id : Z;
  l_textColor : Color;
  l_bgColor : Color;
  l_state : BtnState;
  l_cb : option BtnEvent
}.

(** ledbutton.go *)
Definition led_singleChar := {| fontSize := 32; posX := 30; posY := 32 |}.
Definition led_oneLineTwoChars := {| fontSize := 32; posX := 23; posY := 32 |}.
Definition led_oneLineThreeChars := {| fontSize := 32; posX := 17; posY := 32 |}.
Definition led_oneLineFourChars := {| fontSize := 32; posX := 11; posY := 32 |}.
Definition led_oneLineFiveChars := {| fontSize := 32; posX := 5; posY := 32 |}.

(** label.go *)
Definition label_singleChar := {| fontSize := 32; posX := 30; posY := 20 |}.
Definition label_oneLineTwoChars := {| fontSize := 32; posX := 23; posY := 20 |}.
Definition label_oneLineThreeChars := {| fontSize := 32; posX := 17; posY := 20 |}.
Definition label_oneLineFourChars := {| fontSize := 32; posX := 5; posY := 20 |}.
Definition label_oneLineFiveChars := {| fontSize := 32; posX := 5; posY := 20 |}.

(** [switch len(text)] of the two [addText]: the length in bytes. *)
Definition led_textParams (text : string) : option textParams :=
  match String.length text with
  | 1%nat => Some led_singleChar
  | 2%nat => Some led_oneLineTwoChars
  | 3%nat => Some led_oneLineThreeChars
  | 4%nat => Some led_oneLineFourChars
  | 5%nat => Some led_oneLineFiveChars
  | _ => None
  end.

Definition label_textParams (text : string) : option textParams :=
  match String.length text with
  | 1%nat => Some label_singleChar
  | 2%nat => Some label_oneLineTwoChars
  | 3%nat => Some label_oneLineThreeChars
  | 4%nat => Some label_oneLineFourChars
  | 5%nat => Some label_oneLineFiveChars
  | _ => None
  end.

(** [LedButton.Change] *)
Definition LedButton_Change (btn : LedButton) (state : BtnState) : LedButton :=
  if decide (state = BtnPressed)
  then {| lb_streamDeck := lb_streamDeck btn; lb_ledColor := lb_ledColor btn;
          lb_text := lb_text btn; lb_textColor := lb_textColor btn;
          lb_id := lb_id btn; lb_state := negb (lb_state btn) |}
  else btn.

(** [NewLedButton]; a nil session is [None]. *)
Definition NewLedButton (sd : option StreamDeck) (id : Z)
    (options : list (LedButton → LedButton)) : option LedButton * option error :=
  match sd with
  | None => (None, Some "stream deck must not be nil")
  | Some sd =>
    let btn := {| lb_streamDeck := sd; lb_id := id; lb_ledColor := LEDGreen;
                  lb_text := ""; lb_textColor := White; lb_state := false |} in
    (Some (foldl (λ btn option, option btn) btn options), None)
  end.

(** [NewLabel] *)
Definition NewLabel (sd : StreamDeck) (btnIndex : Z)
    (options : list (Label → Label)) : option Label * option error :=
  let l := {| l_streamDeck := sd; l_id := btnIndex; l_text := "";
              l_textColor := White; l_bgColor := Black;
              l_state := BtnPressed; l_cb := None |} in
  (Some (foldl (λ l option, option l) l options), None).

Definition Label_SetBgColor (l : Label) (color : Color) : Label * option error :=
  ({| l_streamDeck := l_streamDeck l; l_text := l_text l; l_id := l_id l;
      l_textColor := l_textColor l; l_bgColor := color;
      l_state := l_state l; l_cb := l_cb l |}, None).

Definition Label_SetText (l : Label) (text : string) : Label * option error :=
  ({| l_streamDeck := l_streamDeck l; l_text := text; l_id := l_id l;
      l_textColor := l_textColor l; l_bgColor := l_bgColor l;
      l_state := l_state l; l_cb := l_cb l |}, None).

(** [Label.Change]: the label with its new background, and the call of
    the callback when there is one. *)
Definition Label_Change (l : Label) (state : BtnState)
    : Label * option (BtnEvent * Z * BtnState) :=
  let col := if decide (state = BtnPressed) then RGBA8 0 0 153 0 else RGBA8 0 0 0 255 in
  let l := (Label_SetBgColor l col).1 in
  (l, match l_cb l with Some f => Some (f, l_id l, state) | None => None end).

(** [TextButton] and [TextLine] of streamdeck.go. *)
Record TextLine (Font float64 : Type) := {
  Text : string; PosX : Z; PosY : Z;
  tl_Font : Font; FontSize : float64; FontColor : Color
}.
Arguments Text {Font float64}.
Arguments PosX {Font float64}.
Arguments PosY {Font float64}.
Arguments tl_Font {Font float64}.
Arguments FontSize {Font float64}.
Arguments FontColor {Font float64}.

Record TextButton (Font float64 : Type) := {
  Lines : list (TextLine Font float64);
  BgColor : Color
}.
Arguments Lines {Font float64}.
Arguments BgColor {Font float64}.

Section Widgets.
(** The text renderer of the [freetype] package and the four LED
    pictures decoded at start-up are outside of this code. The renderer
    is given the text, where and how large to draw it, the colour, and
    the picture drawn on; it answers the pixels of that picture after
    the drawing, and its error. *)
Variable freetype_DrawString :
  string → textParams → Color → Image → (Z → Z → Z * Z * Z * Z) * option error.
Variables ledOff ledGreen ledYellow ledRed : Image.
Variables Font float64 : Type.
Variable freetype_DrawLine :
  TextLine Font float64 → Image → (Z → Z → Z * Z * Z * Z) * option error.

Definition LedButton_addLED (btn : LedButton) (color : LEDColor) (img : Image) : Image :=
  if negb (lb_state btn) then draw_Src img ledOff
  else match color with
       | LEDRed => draw_Src img ledRed
       | LEDGreen => draw_Src img ledGreen
       | LEDYellow => draw_Src img ledYellow
       | LEDOff => img
       end.

Definition LedButton_addText (btn : LedButton) (text : string) (img : Image)
    : Image * option error :=
  match led_textParams text with
  | None => (img, Some "text line contains more than 5 characters")
  | Some p =>
    let '(pix, err) := freetype_DrawString text p (lb_textColor btn) img in
    (rgba_image (Bounds img) pix, err)
  end.

Definition LedButton_Draw (btn : LedButton) : M (option error) :=
  let size := dev_ButtonSize (info (lb_streamDeck btn)) in
  let img := new_rgba size in
  let img := LedButton_addLED btn (lb_ledColor btn) img in
  let '(img, err) := LedButton_addText btn (lb_text btn) img in
  match err with
  | Some e => ret (Some e)
  | None => FillImage (lb_streamDeck btn) (lb_id btn) img
  end.

Definition LedButton_SetState (btn : LedButton) (state : bool)
    : LedButton * M (option error) :=
  let btn := {| lb_streamDeck := lb_streamDeck btn; lb_ledColor := lb_ledColor btn;
                lb_text := lb_text btn; lb_textColor := lb_textColor btn;
                lb_id := lb_id btn; lb_state := state |} in
  (btn, LedButton_Draw btn).

Definition LedButton_SetText (btn : LedButton) (text : string)
    : LedButton * M (option error) :=
  let btn := {| lb_streamDeck := lb_streamDeck btn; lb_ledColor := lb_ledColor btn;
                lb_text := text; lb_textColor := lb_textColor btn;
                lb_id := lb_id btn; lb_state := lb_state btn |} in
  (btn, LedButton_Draw btn).

Definition Label_addText (l : Label) (text : string) (img : Image)
    : Image * option error :=
  match label_textParams text with
  | None => (img, Some "text line contains more than 5 characters")
  | Some p =>
    let '(pix, err) := freetype_DrawString text p (l_textColor l) img in
    (rgba_image (Bounds img) pix, err)
  end.

Definition Label_Draw (l : Label) : M (option error) :=
  let size := dev_ButtonSize (info (l_streamDeck l)) in
  let img := new_rgba size in
  let img := draw_uniform img (l_bgColor l) in
  let '(img, err) := Label_addText l (l_text l) img in
  match err with
  | Some e => ret (Some e)
  | None => FillImage (l_streamDeck l) (l_id l) img
  end.

(** [for _, line := range textBtn.Lines { ... }] of [WriteText]: the
    picture after the lines drawn, and the error that stopped it. *)
Fixpoint draw_lines (lines : list (TextLine Font float64)) (img : Image)
    : Image * option error :=
  match lines with
  | [] => (img, None)
  | line :: lines' =>
    let '(pix, err) := freetype_DrawLine line img in
    let img := rgba_image (Bounds img) pix in
    match err with
    | Some e => (img, Some e)
    | None => draw_lines lines' img
    end
  end.

Definition WriteText (sd : StreamDeck) (btnIndex : Z)
    (textBtn : TextButton Font float64) : M (option error) :=
  match checkValidKeyIndex btnIndex with
  | Some e => ret (Some e)
  | None =>
    let img := new_rgba ButtonSize in
    let img := draw_uniform img (BgColor textBtn) in
    let '(img, err) := draw_lines (Lines textBtn) img in
    match err with
    | Some e => ret (Some e)
    | None => let! _ := FillImage sd btnIndex img in ret None
    end
  end.
End Widgets.
Arguments draw_lines {Font float64}.
Arguments WriteText {Font float64}.

(** ** Inputs to try the properties on *)

(** A renderer that draws nothing and never fails, a renderer that
    always fails, and widgets to try the properties on. *)
Definition blank_DrawString (text : string) (p : textParams) (c : Color) (img : Image)
    : (Z → Z → Z * Z * Z * Z) * option error :=
  (λ x y, to8 (At img x y), None).

Definition blank_DrawLine (line : TextLine unit Z) (img : Image)
    : (Z → Z → Z * Z * Z * Z) * option error :=
  (λ x y, to8 (At img x y), None).

Definition failing_DrawLine (line : TextLine unit Z) (img : Image)
    : (Z → Z → Z * Z * Z * Z) * option error :=
  (λ x y, to8 (At img x y), Some "freetype: DrawText called with a nil font").

Definition led_picture : Image := new_rgba 80.

Definition ok_button : LedButton :=
  {| lb_streamDeck := mini_session; lb_ledColor := LEDGreen; lb_text := "REC";
     lb_textColor := White; lb_id := 2; lb_state := true |}.

Definition ok_label : Label :=
  {| l_streamDeck := mini_session; l_text := "ON"; l_id := 1;
     l_textColor := White; l_bgColor := Black; l_state := BtnPressed; l_cb := None |}.

Definition one_line : TextLine unit Z :=
  {| Text := "hello"; PosX := 0; PosY := 0; tl_Font := ();
     FontSize := 20; FontColor := White |}.

(** A picture of the size of the panel, of type [image.RGBA]. *)
Definition rgba_panel : Image := rgba_image panel_rect gradient_pix.

(** * Properties *)

(** ** The chunked writer: the loop and its frames *)

Lemma length_copy_at off dst src :
  (off ≤ length dst)%nat → length (copy_at off dst src) = length dst.
Proof.
  intros. unfold copy_at.
  rewrite !length_app, !length_take, length_drop. lia.
Qed.

Lemma length_next_frame out page buf :
  (16 ≤ length out)%nat → length (next_frame out page buf) = length out.
Proof.
  intros. unfold next_frame. case_decide.
  - rewrite length_insert, length_copy_at; rewrite length_insert; lia.
  - rewrite length_copy_at; rewrite length_insert; lia.
Qed.

Lemma after_after h a b : after (after h a) b = after h (a ++ b).
Proof. unfold after; simpl. by rewrite <- app_assoc. Qed.

Lemma after_nil h : after h [] = h.
Proof. destruct h. unfold after; simpl. by rewrite app_nil_r. Qed.

Lemma writeBitmap_loop_step fuel out page buf h :
  (16 ≤ length out)%nat →
  writeBitmap_loop (S fuel) out page buf h =
  let f := next_frame out page buf in
  let h' := after h [Write f] in
  match script h (length (trace h)) with
  | Some e => (Panicked ("failed to setreport: " +:+ e), h')
  | None =>
    if decide (len buf ≤ len f - 16) then (Done None, h')
    else writeBitmap_loop fuel f (byte_of (page + 1))
           (drop (Z.to_nat (len f - 16)) buf) h'
  end.
Proof.
  intros Hout. cbn [writeBitmap_loop]. unfold next_frame, len.
  assert (length (copy_at 16 (<[2%nat:=page]> out) buf) = length out) as Hc.
  { rewrite length_copy_at; rewrite length_insert; lia. }
  destruct (decide (_ ≤ _)) as [Hle|Hgt].
  - unfold bind, device_Write, perform, after.
    destruct (script h (length (trace h))); [done|].
    rewrite decide_True by (simpl; lia).
    rewrite decide_True; [done|]. rewrite length_insert. lia.
  - unfold bind, device_Write, perform, after.
    destruct (script h (length (trace h))); [done|].
    rewrite (decide_False (P := _ ≤ _)) by lia.
    case_decide as Hz; [|done].
    exfalso. apply Hgt. rewrite length_drop in Hz. lia.
Qed.

Lemma writeBitmap_loop_ok fuel : ∀ out page buf h,
  (16 < length out)%nat → (length buf < fuel)%nat →
  succeed h (length (trace h)) (length (frames_loop fuel out page buf)) →
  writeBitmap_loop fuel out page buf h =
    (Done None, after h (Write <$> frames_loop fuel out page buf)).
Proof.
  induction fuel as [|fuel IH]; intros out page buf h Hout Hfuel Hok; [lia|].
  rewrite writeBitmap_loop_step by lia.
  cbn [frames_loop] in Hok |- *. cbv zeta.
  pose proof (length_next_frame out page buf ltac:(lia)) as Hlen.
  set (f := next_frame out page buf) in *.
  rewrite <- (Nat.add_0_r (length (trace h))).
  destruct (decide (len buf ≤ len f - 16)) as [Hle|Hgt].
  - rewrite (Hok 0%nat) by (simpl; lia). done.
  - rewrite (Hok 0%nat) by (simpl; lia).
    rewrite IH.
    + by rewrite after_after.
    + lia.
    + rewrite length_drop. unfold len in *. lia.
    + intros j Hj. simpl. rewrite length_app. simpl.
      replace (length (trace h) + 1 + j)%nat with (length (trace h) + S j)%nat by lia.
      apply Hok. simpl. lia.
Qed.

Lemma writeBitmap_loop_fail fuel : ∀ out page buf h k e,
  (16 < length out)%nat → (length buf < fuel)%nat →
  (k < length (frames_loop fuel out page buf))%nat →
  succeed h (length (trace h)) k →
  script h (length (trace h) + k) = Some e →
  writeBitmap_loop fuel out page buf h =
    (Panicked ("failed to setreport: " +:+ e),
     after h (Write <$> take (S k) (frames_loop fuel out page buf))).
Proof.
  induction fuel as [|fuel IH]; intros out page buf h k e Hout Hfuel Hk Hok He; [lia|].
  rewrite writeBitmap_loop_step by lia.
  cbn [frames_loop] in Hk |- *. cbv zeta.
  pose proof (length_next_frame out page buf ltac:(lia)) as Hlen.
  set (f := next_frame out page buf) in *.
  destruct k as [|k].
  - rewrite Nat.add_0_r in He. rewrite He.
    by destruct (decide (len buf ≤ len f - 16)).
  - pose proof (Hok 0%nat ltac:(lia)) as H0. rewrite Nat.add_0_r in H0. rewrite H0.
    destruct (decide (len buf ≤ len f - 16)) as [Hle|Hgt]; [simpl in Hk; lia|].
    rewrite (IH _ _ _ _ k e).
    + by rewrite after_after.
    + lia.
    + rewrite length_drop. unfold len in *. lia.
    + simpl in Hk. lia.
    + intros j Hj. simpl. rewrite length_app. simpl.
      replace (length (trace h) + 1 + j)%nat with (length (trace h) + S j)%nat by lia.
      apply Hok. lia.
    + simpl. rewrite length_app. simpl. rewrite <- He. f_equal. lia.
Qed.

Lemma lookup_copy_at off dst src j :
  (off ≤ length dst)%nat →
  copy_at off dst src !! j =
    if decide (j < off)%nat then dst !! j
    else if decide (j - off < length src)%nat
         then (if decide (j < length dst)%nat then src !! (j - off)%nat else None)
         else dst !! j.
Proof.
  intros Hoff. unfold copy_at.
  destruct (decide (j < off)%nat) as [Hj|Hj].
  { rewrite lookup_app_l by (rewrite length_take; lia). by rewrite lookup_take_lt. }
  rewrite lookup_app_r by (rewrite length_take; lia).
  rewrite length_take, Nat.min_l by lia.
  destruct (decide (j - off < length src)%nat) as [Hs|Hs].
  - destruct (decide (j < length dst)%nat) as [Hd|Hd].
    + rewrite lookup_app_l by (rewrite length_take; lia).
      by rewrite lookup_take_lt by lia.
    + rewrite lookup_app_r by (rewrite length_take; lia).
      apply lookup_ge_None_2. rewrite length_drop, length_take. lia.
  - rewrite lookup_app_r by (rewrite length_take; lia).
    rewrite length_take, lookup_drop.
    destruct (decide (length dst - off ≤ length src)%nat).
    + rewrite Nat.min_l by lia.
      rewrite (lookup_ge_None_2 dst j) by lia. apply lookup_ge_None_2. lia.
    + rewrite Nat.min_r by lia. f_equal. lia.
Qed.

Lemma lookup_next_frame out page buf j :
  (16 ≤ length out)%nat →
  next_frame out page buf !! j =
    if decide (j = 2)%nat then Some page
    else if decide (j = 4)%nat
         then (if decide (len buf ≤ len out - 16) then Some 1 else out !! 4%nat)
    else if decide (j < 16)%nat then out !! j
    else if decide (j - 16 < length buf)%nat
         then (if decide (j < length out)%nat then buf !! (j - 16)%nat else None)
         else out !! j.
Proof.
  intros Hout. unfold next_frame.
  assert (length (copy_at 16 (<[2%nat:=page]> out) buf) = length out) as Hc.
  { rewrite length_copy_at; rewrite length_insert; lia. }
  assert (∀ i, copy_at 16 (<[2%nat:=page]> out) buf !! i =
    if decide (i = 2)%nat then Some page
    else if decide (i < 16)%nat then out !! i
    else if decide (i - 16 < length buf)%nat
         then (if decide (i < length out)%nat then buf !! (i - 16)%nat else None)
         else out !! i) as Hcopy.
  { intros i. rewrite lookup_copy_at by (rewrite length_insert; lia).
    rewrite length_insert.
    destruct (decide (i = 2)%nat) as [->|Hi].
    - rewrite decide_True by lia. apply list_lookup_insert_eq. lia.
    - repeat case_decide; try done; by rewrite list_lookup_insert_ne. }
  unfold len. rewrite Hc.
  destruct (decide (Z.of_nat (length buf) ≤ Z.of_nat (length out) - 16)).
  - destruct (decide (j = 4)%nat) as [->|Hj].
    + rewrite decide_False by lia. apply list_lookup_insert_eq. lia.
    + rewrite list_lookup_insert_ne by done. rewrite Hcopy.
      by destruct (decide (j = 2)%nat).
  - rewrite Hcopy. destruct (decide (j = 2)%nat); [done|].
    destruct (decide (j = 4)%nat) as [->|]; [|done].
    by rewrite decide_True by lia.
Qed.

Lemma drop_next_frame out page buf :
  (16 ≤ length out)%nat →
  drop 16 (next_frame out page buf) =
    take (length out - 16) buf ++ drop (16 + length buf) out.
Proof.
  intros Hout. unfold next_frame.
  assert (drop 16 (copy_at 16 (<[2%nat:=page]> out) buf) =
          take (length out - 16) buf ++ drop (16 + length buf) out) as Hd.
  { unfold copy_at. rewrite drop_app_length' by (rewrite length_take, length_insert; lia).
    rewrite length_insert. f_equal.
    rewrite drop_insert_lt by lia. done. }
  case_decide; [|done]. by rewrite drop_insert_lt by lia.
Qed.

Lemma writeBitmap_unfold sd key buf :
  writeBitmap sd key buf = writeBitmap_loop (S (length buf)) (first_out key) 0 buf.
Proof. reflexivity. Qed.

Lemma length_first_out key : length (first_out key) = 1024%nat.
Proof. unfold first_out. by rewrite !length_insert, length_replicate. Qed.

Lemma lookup_first_out key j :
  first_out key !! j =
    if decide (j = 0)%nat then Some 2
    else if decide (j = 1)%nat then Some 1
    else if decide (j = 5)%nat then Some (byte_of (key + 1))
    else if decide (j < 1024)%nat then Some 0 else None.
Proof.
  unfold first_out.
  destruct (decide (j = 0)%nat) as [->|H0].
  { rewrite !list_lookup_insert_ne by lia.
    apply list_lookup_insert_eq. rewrite length_replicate. lia. }
  destruct (decide (j = 1)%nat) as [->|H1].
  { rewrite list_lookup_insert_ne by lia.
    apply list_lookup_insert_eq. rewrite !length_insert, length_replicate. lia. }
  destruct (decide (j = 5)%nat) as [->|H5].
  { apply list_lookup_insert_eq. rewrite !length_insert, length_replicate. lia. }
  rewrite !list_lookup_insert_ne by done.
  case_decide.
  - by apply lookup_replicate_2.
  - apply lookup_replicate_None. lia.
Qed.

(** Induction along the turns of the loop, for buffers of the size
    [writeBitmap] allocates. *)
Lemma frames_loop_ind (P : list Z → Z → list Z → list (list Z) → Prop) :
  (∀ out page buf, length out = 1024%nat → (length buf ≤ 1008)%nat →
     P out page buf [next_frame out page buf]) →
  (∀ out page buf rest, length out = 1024%nat → (1008 < length buf)%nat →
     P (next_frame out page buf) (byte_of (page + 1)) (drop 1008 buf) rest →
     P out page buf (next_frame out page buf :: rest)) →
  ∀ fuel out page buf, length out = 1024%nat → (length buf < fuel)%nat →
    P out page buf (frames_loop fuel out page buf).
Proof.
  intros Hlast Hmore. induction fuel as [|fuel IH]; intros out page buf Hout Hfuel; [lia|].
  cbn [frames_loop]. cbv zeta.
  pose proof (length_next_frame out page buf ltac:(lia)) as Hlen.
  unfold len. rewrite Hlen, Hout.
  case_decide.
  - apply Hlast; [done|lia].
  - replace (Z.to_nat (Z.of_nat 1024 - 16)) with 1008%nat by lia.
    apply Hmore; [done|lia|].
    apply IH; [lia|]. rewrite length_drop. lia.
Qed.

Lemma frames_loop_length_frames fuel out page buf :
  length out = 1024%nat → (length buf < fuel)%nat →
  Forall (λ f, length f = 1024%nat) (frames_loop fuel out page buf).
Proof.
  revert fuel out page buf.
  apply (frames_loop_ind (λ out _ _ fs, Forall (λ f, length f = 1024%nat) fs)).
  - intros out page buf Hout _. constructor; [|done].
    rewrite length_next_frame; lia.
  - intros out page buf rest Hout _ IH. constructor; [|done].
    rewrite length_next_frame; lia.
Qed.

Lemma frames_loop_nonempty fuel out page buf :
  length out = 1024%nat → (length buf < fuel)%nat →
  (0 < length (frames_loop fuel out page buf))%nat.
Proof.
  revert fuel out page buf.
  apply (frames_loop_ind (λ _ _ _ fs, (0 < length fs)%nat)); intros; simpl; lia.
Qed.

(** The header bytes other than the page index and the end flag are
    those of the starting buffer, in every frame. *)
Lemma frames_loop_header fuel out page buf :
  length out = 1024%nat → (length buf < fuel)%nat →
  ∀ i f j, frames_loop fuel out page buf !! i = Some f →
    (j < 16)%nat → j ≠ 2%nat → j ≠ 4%nat → f !! j = out !! j.
Proof.
  revert fuel out page buf.
  apply (frames_loop_ind (λ out _ _ fs, ∀ i f j, fs !! i = Some f →
    (j < 16)%nat → j ≠ 2%nat → j ≠ 4%nat → f !! j = out !! j)).
  - intros out page buf Hout _ i f j Hi Hj H2 H4.
    apply list_lookup_singleton_Some in Hi as [_ <-].
    rewrite lookup_next_frame by lia.
    rewrite !decide_False by done. by rewrite decide_True.
  - intros out page buf rest Hout _ IH i f j Hi Hj H2 H4.
    assert (next_frame out page buf !! j = out !! j) as Hn.
    { rewrite lookup_next_frame by lia.
      rewrite !decide_False by done. by rewrite decide_True. }
    destruct i as [|i]; simpl in Hi.
    + by inversion Hi; subst.
    + rewrite (IH i f j) by done. done.
Qed.

(** The page index byte counts the frames, modulo 256. *)
Lemma frames_loop_page fuel out page buf :
  length out = 1024%nat → (length buf < fuel)%nat →
  ∀ i f, frames_loop fuel out page buf !! i = Some f → 0 ≤ page < 256 →
    f !! 2%nat = Some ((page + Z.of_nat i) mod 256).
Proof.
  revert fuel out page buf.
  apply (frames_loop_ind (λ _ page _ fs, ∀ i f, fs !! i = Some f → 0 ≤ page < 256 →
    f !! 2%nat = Some ((page + Z.of_nat i) mod 256))).
  - intros out page buf Hout _ i f Hi Hp.
    apply list_lookup_singleton_Some in Hi as [-> <-].
    rewrite lookup_next_frame by lia. rewrite decide_True by done.
    f_equal. rewrite Z.add_0_r, Z.mod_small; lia.
  - intros out page buf rest Hout _ IH i f Hi Hp.
    destruct i as [|i]; simpl in Hi.
    + inversion Hi; subst. rewrite lookup_next_frame by lia.
      rewrite decide_True by done. f_equal. rewrite Z.add_0_r, Z.mod_small; lia.
    + rewrite (IH i f Hi) by (unfold byte_of; apply Z.mod_pos_bound; lia).
      f_equal. unfold byte_of. rewrite Zplus_mod_idemp_l. f_equal. lia.
Qed.

(** The end flag is set in the last frame and in no other. *)
Lemma frames_loop_eof fuel out page buf :
  length out = 1024%nat → (length buf < fuel)%nat →
  ∀ i f, frames_loop fuel out page buf !! i = Some f → out !! 4%nat = Some 0 →
    f !! 4%nat = Some (eof_flag i (length (frames_loop fuel out page buf))).
Proof.
  intros Hout Hfuel.
  cut ((0 < length (frames_loop fuel out page buf))%nat ∧
       ∀ i f, frames_loop fuel out page buf !! i = Some f → out !! 4%nat = Some 0 →
         f !! 4%nat = Some (eof_flag i (length (frames_loop fuel out page buf)))).
  { intros [_ H]. exact H. }
  revert fuel out page buf Hout Hfuel.
  apply (frames_loop_ind (λ out _ _ fs, (0 < length fs)%nat ∧ ∀ i f, fs !! i = Some f →
    out !! 4%nat = Some 0 → f !! 4%nat = Some (eof_flag i (length fs)))).
  - intros out page buf Hout Hbuf. split; [simpl; lia|]. intros i f Hi H4.
    apply list_lookup_singleton_Some in Hi as [-> <-].
    rewrite lookup_next_frame by lia. simpl.
    rewrite decide_True; [done|]. unfold len. lia.
  - intros out page buf rest Hout Hbuf [Hne IH]. split; [simpl; lia|].
    intros i f Hi H4.
    assert (next_frame out page buf !! 4%nat = Some 0) as Hn.
    { rewrite lookup_next_frame by lia. simpl.
      rewrite decide_False; [done|]. unfold len. lia. }
    destruct i as [|i]; simpl in Hi.
    + inversion Hi; subst. rewrite Hn. unfold eof_flag. simpl.
      case_decide as Hl; [lia|done].
    + rewrite (IH i f Hi Hn). unfold eof_flag. simpl. f_equal.
      repeat case_decide; try done; lia.
Qed.

Lemma payload_len_succ (buf : list Z) i :
  (1008 < length buf)%nat →
  payload_len (len buf) (S i) = payload_len (len (drop 1008 buf)) i.
Proof.
  intros. unfold payload_len, len, chunk. rewrite length_drop. f_equal. lia.
Qed.

(** The payloads of the frames, one after the other, are the bitmap. *)
Lemma frames_loop_payloads fuel out page buf :
  length out = 1024%nat → (length buf < fuel)%nat →
  payloads (len buf) (frames_loop fuel out page buf) = buf.
Proof.
  revert fuel out page buf.
  apply (frames_loop_ind (λ _ _ (buf : list Z) fs, payloads (len buf) fs = buf)).
  - intros out page buf Hout Hbuf. unfold payloads, payload. simpl.
    rewrite app_nil_r, drop_next_frame by lia.
    replace (payload_len (len buf) 0) with (length buf)
      by (unfold payload_len, len, chunk; lia).
    rewrite (take_ge buf) by lia. by rewrite take_app_length.
  - intros out page buf rest Hout Hbuf IH. unfold payloads in *.
    rewrite imap_cons. simpl.
    rewrite (imap_ext _ (payload (len (drop 1008 buf)))); last first.
    { intros i x _. unfold payload. simpl. by rewrite payload_len_succ. }
    rewrite IH. unfold payload. rewrite drop_next_frame by lia.
    replace (payload_len (len buf) 0) with 1008%nat
      by (unfold payload_len, len, chunk; lia).
    rewrite Hout. replace (1024 - 16)%nat with 1008%nat by lia.
    rewrite take_app_le by (rewrite length_take; lia).
    rewrite take_take, Nat.min_id. apply take_drop.
Qed.

(** The first frame, the bytes copied into each frame, and the bytes of
    the payload region that a frame keeps from the frame before it. *)
Lemma frames_loop_payload fuel out page buf :
  length out = 1024%nat → (length buf < fuel)%nat →
  let fs := frames_loop fuel out page buf in
  fs !! 0%nat = Some (next_frame out page buf) ∧
  (∀ i f j, fs !! i = Some f → (j < payload_len (len buf) i)%nat →
     f !! (16 + j)%nat = buf !! (1008 * i + j)%nat) ∧
  (∀ i g f j, fs !! i = Some g → fs !! S i = Some f →
     (payload_len (len buf) (S i) ≤ j)%nat → f !! (16 + j)%nat = g !! (16 + j)%nat).
Proof.
  revert fuel out page buf. cbv zeta.
  apply (frames_loop_ind (λ out page (buf : list Z) fs,
    fs !! 0%nat = Some (next_frame out page buf) ∧
    (∀ i f j, fs !! i = Some f → (j < payload_len (len buf) i)%nat →
       f !! (16 + j)%nat = buf !! (1008 * i + j)%nat) ∧
    (∀ i g f j, fs !! i = Some g → fs !! S i = Some f →
       (payload_len (len buf) (S i) ≤ j)%nat → f !! (16 + j)%nat = g !! (16 + j)%nat))).
  - intros out page buf Hout Hbuf. split; [done|]. split.
    + intros i f j Hi Hj. apply list_lookup_singleton_Some in Hi as [-> <-].
      unfold payload_len, len, chunk in Hj.
      rewrite lookup_next_frame by lia.
      rewrite !decide_False by lia. rewrite !decide_True by lia.
      f_equal. lia.
    + intros i g f j _ Hf. done.
  - intros out page buf rest Hout Hbuf (Hhead & Hpay & Hstale).
    pose proof (length_next_frame out page buf ltac:(lia)) as Hlen.
    split; [done|]. split.
    + intros i f j Hi Hj. destruct i as [|i]; simpl in Hi.
      * inversion Hi; subst f. unfold payload_len, len, chunk in Hj.
        rewrite lookup_next_frame by lia.
        rewrite !decide_False by lia. rewrite !decide_True by lia.
        f_equal. lia.
      * rewrite payload_len_succ in Hj by done.
        rewrite (Hpay i f j Hi Hj), lookup_drop. f_equal. lia.
    + intros i g f j Hg Hf Hj. destruct i as [|i]; simpl in Hg, Hf.
      * inversion Hg; subst g. rewrite Hhead in Hf. inversion Hf; subst f.
        rewrite payload_len_succ in Hj by done.
        unfold payload_len, len, chunk in Hj.
        rewrite (lookup_next_frame (next_frame out page buf)) by lia.
        rewrite !decide_False by lia.
        destruct (decide (16 + j - 16 < length (drop 1008 buf))%nat); [|done].
        rewrite decide_False by lia.
        symmetry. apply lookup_ge_None_2. lia.
      * rewrite payload_len_succ in Hj by done. by apply (Hstale i).
Qed.

(** Frame [i] exists when it is the first one or when bitmap bytes are
    left for it. *)
Lemma frames_loop_count fuel out page buf :
  length out = 1024%nat → (length buf < fuel)%nat →
  ∀ i, (i < length (frames_loop fuel out page buf))%nat ↔
       (i = 0 ∨ 1008 * i < length buf)%nat.
Proof.
  revert fuel out page buf.
  apply (frames_loop_ind (λ _ _ (buf : list Z) fs,
    ∀ i, (i < length fs)%nat ↔ (i = 0 ∨ 1008 * i < length buf)%nat)).
  - intros out page buf _ Hbuf i. simpl. lia.
  - intros out page buf rest _ Hbuf IH i. simpl.
    destruct i as [|i]; [lia|].
    specialize (IH i). rewrite length_drop in IH. lia.
Qed.

(** Whatever the transport answers, the frames it receives are the
    first frames of the sequence. *)
Lemma writeBitmap_loop_trace fuel : ∀ out page buf h,
  (16 < length out)%nat → (length buf < fuel)%nat →
  ∃ k, (writeBitmap_loop fuel out page buf h).2 =
       after h (Write <$> take k (frames_loop fuel out page buf)).
Proof.
  induction fuel as [|fuel IH]; intros out page buf h Hout Hfuel; [lia|].
  rewrite writeBitmap_loop_step by lia.
  cbn [frames_loop]. cbv zeta.
  pose proof (length_next_frame out page buf ltac:(lia)) as Hlen.
  set (f := next_frame out page buf) in *.
  destruct (script h (length (trace h))) as [e|].
  { exists 1%nat. by destruct (decide (len buf ≤ len f - 16)). }
  destruct (decide (len buf ≤ len f - 16)) as [Hle|Hgt].
  { by exists 1%nat. }
  destruct (IH f (byte_of (page + 1)) (drop (Z.to_nat (len f - 16)) buf)
              (after h [Write f])) as [k Hk].
  { lia. }
  { rewrite length_drop. unfold len in *. lia. }
  exists (S k). rewrite Hk, after_after. done.
Qed.

Lemma writeBitmap_ok sd key buf h :
  succeed h (length (trace h)) (length (frames key buf)) →
  writeBitmap sd key buf h = (Done None, after h (Write <$> frames key buf)).
Proof.
  intros Hok. rewrite writeBitmap_unfold.
  apply writeBitmap_loop_ok; [rewrite length_first_out; lia|lia|done].
Qed.

Lemma writeBitmap_fail sd key buf h k e :
  (k < length (frames key buf))%nat →
  succeed h (length (trace h)) k →
  script h (length (trace h) + k) = Some e →
  writeBitmap sd key buf h =
    (Panicked ("failed to setreport: " +:+ e),
     after h (Write <$> take (S k) (frames key buf))).
Proof.
  intros Hk Hok He. rewrite writeBitmap_unfold.
  apply writeBitmap_loop_fail; [rewrite length_first_out; lia|lia|done..].
Qed.

Lemma frames_of_app t1 t2 : frames_of (t1 ++ t2) = frames_of t1 ++ frames_of t2.
Proof. apply omap_app. Qed.

Lemma frames_of_writes fs : frames_of (Write <$> fs) = fs.
Proof. induction fs as [|f fs IH]; [done|]. unfold frames_of in *. csimpl. by f_equal. Qed.

Lemma succeed_all h from n : (∀ k, script h k = None) → succeed h from n.
Proof. intros H j _. apply H. Qed.

Lemma lookup_last_split {A} (l : list A) :
  (0 < length l)%nat →
  ∃ init final, l = init ++ [final] ∧ length init = pred (length l).
Proof.
  intros Hl. destruct (decide (l = [])) as [->|Hne]; [simpl in Hl; lia|].
  destruct (exists_last Hne) as (init & final & ->).
  exists init, final. split; [done|]. rewrite length_app. simpl. lia.
Qed.

(** The bounded loops of the model have iterations enough: the writer
    never runs out of them, and the angle is never left negative. *)
Lemma writeBitmap_loop_total fuel : ∀ out page buf h,
  (16 < length out)%nat → (length buf < fuel)%nat →
  (writeBitmap_loop fuel out page buf h).1 ≠ OutOfFuel.
Proof.
  induction fuel as [|fuel IH]; intros out page buf h Hout Hfuel; [lia|].
  rewrite writeBitmap_loop_step by lia. cbv zeta.
  pose proof (length_next_frame out page buf ltac:(lia)) as Hlen.
  destruct (script h (length (trace h))); [done|].
  case_decide as Hle; [done|].
  apply IH; [lia|]. rewrite length_drop. unfold len in *. lia.
Qed.

Lemma writeBitmap_total sd key buf h : (writeBitmap sd key buf h).1 ≠ OutOfFuel.
Proof.
  rewrite writeBitmap_unfold.
  apply writeBitmap_loop_total; [rewrite length_first_out; lia|lia].
Qed.

Lemma add360_nonneg fuel : ∀ rotate,
  - rotate ≤ Z.of_nat fuel → 0 ≤ add360 fuel rotate.
Proof.
  induction fuel as [|fuel IH]; intros rotate Hfuel; simpl.
  - lia.
  - destruct (rotate <? 0) eqn:Hneg.
    + apply IH. lia.
    + apply Z.ltb_ge in Hneg. lia.
Qed.

Lemma normalize_rotate_nonneg rotate : 0 ≤ normalize_rotate rotate.
Proof. unfold normalize_rotate. apply add360_nonneg. lia. Qed.

(** ** C3: a failed transport write *)

(** C3, as the specification states it, does not hold: when the first
    write of a fill fails, [FillImage] does not return an error to its
    caller; the writer panics. *)
Lemma write_failure_is_not_returned :
  (FillImage mini_session 0 (uniform_button 0 0 0)
     (failing_at 0 "broken pipe")).1
    = Panicked "failed to setreport: broken pipe"
  ∧ ¬ ∃ e, (FillImage mini_session 0 (uniform_button 0 0 0)
              (failing_at 0 "broken pipe")).1 = Done (Some e).
Proof.
  assert ((FillImage mini_session 0 (uniform_button 0 0 0)
             (failing_at 0 "broken pipe")).1
          = Panicked "failed to setreport: broken pipe") as H
    by (vm_compute; reflexivity).
  split; [exact H|]. intros [e He]. rewrite H in He. discriminate.
Qed.

(** C3 (amended): when the write of frame [k] of a chunked write fails
    with [e], after the writes of the frames before it succeeded,
    [writeBitmap] (and with it [FillImage]) panics at once with the
    message "failed to setreport: e" instead of returning an error; the
    handle has then received the frames 0 to [k] of the call, each once,
    and nothing after the failed one: no further frame, no second
    attempt. *)
Theorem write_failure_panics sd key buf h k e :
  (k < length (frames key buf))%nat →
  succeed h (length (trace h)) k →
  script h (length (trace h) + k) = Some e →
  writeBitmap sd key buf h =
    (Panicked ("failed to setreport: " +:+ e),
     after h (Write <$> take (S k) (frames key buf)))
  ∧ (∀ btnIndex img, checkValidKeyIndex btnIndex = None →
       key = byte_of btnIndex → buf = makeBitmap img 270 →
       FillImage sd btnIndex img h =
         (Panicked ("failed to setreport: " +:+ e),
          after h (Write <$> take (S k) (frames key buf)))).
Proof.
  intros Hk Hok He.
  pose proof (writeBitmap_fail sd key buf h k e Hk Hok He) as Hw.
  split; [exact Hw|].
  intros btnIndex img Hidx -> ->. unfold FillImage. rewrite Hidx. exact Hw.
Qed.

(** The first write of a three-byte bitmap fails. *)
Lemma write_failure_panics_witness :
  writeBitmap mini_session 0 [1; 2; 3] (failing_at 0 "broken pipe") =
    (Panicked ("failed to setreport: " +:+ "broken pipe"),
     after (failing_at 0 "broken pipe")
       (Write <$> take 1 (frames 0 [1; 2; 3]))).
Proof.
  apply (write_failure_panics mini_session 0 [1; 2; 3]
           (failing_at 0 "broken pipe") 0 "broken pipe").
  - vm_compute. lia.
  - intros j Hj. lia.
  - reflexivity.
Defined.

(** ** C4: the frames carry the whole bitmap, with one end flag *)

(** C4: on a handle whose writes succeed, [writeBitmap] returns [nil]
    after writing frames whose payloads, one after the other, are the
    bitmap (so the payload bytes add up to its length); the last frame
    written has the end-of-stream flag 1 and every frame before it has
    the flag 0; an empty bitmap gives that one frame alone, with an
    empty payload. *)
Theorem writeBitmap_delivers_bitmap sd key buf h :
  (∀ n, script h n = None) →
  ∃ fs init final,
    writeBitmap sd key buf h = (Done None, after h (Write <$> fs)) ∧
    payloads (len buf) fs = buf ∧
    sum_list (length <$> imap (payload (len buf)) fs) = length buf ∧
    fs = init ++ [final] ∧
    final !! 4%nat = Some 1 ∧
    Forall (λ f, f !! 4%nat = Some 0) init ∧
    (buf = [] → init = [] ∧ payload (len buf) 0 final = []).
Proof.
  intros Hs.
  pose proof (length_first_out key) as Hout.
  assert (length buf < S (length buf))%nat as Hfuel by lia.
  pose proof (frames_loop_nonempty _ _ 0 buf Hout Hfuel) as Hne.
  pose proof (frames_loop_payloads _ _ 0 buf Hout Hfuel) as Hpay.
  pose proof (frames_loop_eof _ _ 0 buf Hout Hfuel) as Heof.
  pose proof (frames_loop_count _ _ 0 buf Hout Hfuel) as Hcount.
  fold (frames key buf) in Hne, Hpay, Heof, Hcount.
  destruct (lookup_last_split _ Hne) as (init & final & Hfs & Hinit).
  exists (frames key buf), init, final.
  assert (first_out key !! 4%nat = Some 0) as H4 by by rewrite lookup_first_out.
  split; [apply writeBitmap_ok, succeed_all, Hs|].
  split; [done|].
  split.
  { rewrite <- length_join. fold (payloads (len buf) (frames key buf)).
    by rewrite Hpay. }
  split; [done|].
  split.
  { rewrite (Heof (length init) final).
    - unfold eof_flag. rewrite decide_True; [done|]. lia.
    - rewrite Hfs. by rewrite list_lookup_middle.
    - done. }
  split.
  { apply Forall_lookup. intros i f Hi.
    rewrite (Heof i f).
    - unfold eof_flag. apply lookup_lt_Some in Hi.
      rewrite decide_False; [done|]. lia.
    - rewrite Hfs. by apply lookup_app_l_Some.
    - done. }
  intros ->. split.
  - destruct init as [|f0 init]; [done|]. exfalso.
    assert (1 < length (frames key []))%nat as H1.
    { rewrite Hfs, length_app. simpl. lia. }
    apply Hcount in H1. simpl in H1. lia.
  - done.
Qed.

(** A three-byte bitmap on a handle without failures. *)
Lemma writeBitmap_delivers_bitmap_witness :
  ∃ fs init final,
    writeBitmap mini_session 0 [1; 2; 3] healthy
      = (Done None, after healthy (Write <$> fs)) ∧
    payloads (len [1; 2; 3]) fs = [1; 2; 3] ∧
    sum_list (length <$> imap (payload (len [1; 2; 3])) fs) = length [1; 2; 3] ∧
    fs = init ++ [final] ∧
    final !! 4%nat = Some 1 ∧
    Forall (λ f, f !! 4%nat = Some 0) init ∧
    ([1; 2; 3] = [] → init = [] ∧ payload (len [1; 2; 3]) 0 final = []).
Proof.
  apply (writeBitmap_delivers_bitmap mini_session 0 [1; 2; 3] healthy).
  intros n. reflexivity.
Defined.

(** ** C5: the size of a frame *)

(** C5, as stated, does not hold: the Legacy Stream Deck is in the
    catalog with a [StreamBuffer] of 8192, and the frames written for a
    session on it are 1024 bytes long. *)
Lemma legacy_frame_is_not_StreamBuffer :
  legacy_device ∈ streamdeckDevices ∧
  ∃ f, frames_of (trace (FillImage legacy_session 0 (uniform_button 0 0 0)
                           healthy).2) !! 0%nat = Some f
       ∧ len f = 1024 ∧ len f ≠ StreamBuffer (info legacy_session).
Proof.
  split; [by left|].
  eexists. split; [vm_compute; reflexivity|].
  split; [by vm_compute|]. by vm_compute.
Qed.

(** C5 (amended): whatever the session's profile and whatever the
    transport answers, every frame [writeBitmap] writes is 1024 bytes
    long; among the catalog's profiles that is the [StreamBuffer] of the
    two Stream Deck Mini entries and not of the Legacy Stream Deck. *)
Theorem frames_are_1024_bytes sd key buf h :
  (∃ fs, (writeBitmap sd key buf h).2 = after h (Write <$> fs)
         ∧ Forall (λ f, len f = 1024) fs)
  ∧ (∀ d, d ∈ streamdeckDevices → StreamBuffer d = 1024 ↔ d ≠ legacy_device).
Proof.
  split.
  - rewrite writeBitmap_unfold.
    pose proof (length_first_out key) as Hout.
    destruct (writeBitmap_loop_trace (S (length buf)) (first_out key) 0 buf h)
      as [k Hk]; [lia..|].
    exists (take k (frames_loop (S (length buf)) (first_out key) 0 buf)).
    split; [done|].
    apply Forall_take.
    eapply Forall_impl; [apply frames_loop_length_frames; [done|lia]|].
    intros f Hf. unfold len. simpl in Hf. lia.
  - intros d Hd. unfold streamdeckDevices in Hd.
    repeat (apply elem_of_cons in Hd as [->|Hd]); [..|by apply elem_of_nil in Hd];
      split; intros H; try done; try (by vm_compute in H).
Qed.

(** ** C6: the layout of a frame *)

(** C6, as stated, does not hold for every frame: a bitmap of more than
    256 frames makes the page byte start again at 0. [FillImage] sends
    the 300 by 300 picture in 268 frames, and frame 256 carries page
    index 0 after frame 255 carried 255. *)
Lemma page_index_wraps :
  (∃ f, frames_of (trace (FillImage mini_session 0
          (rgba_image (square 300) (λ _ _, (0, 0, 0, 255))) healthy).2) !! 255%nat
        = Some f ∧ f !! 2%nat = Some 255) ∧
  (∃ f, frames_of (trace (FillImage mini_session 0
          (rgba_image (square 300) (λ _ _, (0, 0, 0, 255))) healthy).2) !! 256%nat
        = Some f ∧ f !! 2%nat = Some 0 ∧ f !! 2%nat ≠ Some 256).
Proof.
  split.
  - eexists. split; [vm_compute; reflexivity|]. reflexivity.
  - eexists. split; [vm_compute; reflexivity|]. split; [reflexivity|discriminate].
Qed.

(** C6 (amended): on a handle whose writes succeed, frame number [i]
    (from 0) of a chunked write has byte 0 = 2, byte 1 = 1, byte 2 = [i]
    modulo 256 (so [i] itself for every bitmap of at most 256 frames),
    byte 4 = 1 if it is the last frame and 0 if not, byte 5 = key + 1
    modulo 256 (so key + 1 for the keys 0 to 254), and the bitmap bytes
    of its page from offset 16 on. *)
Theorem frame_layout sd key buf h :
  (∀ n, script h n = None) →
  ∃ fs,
    writeBitmap sd key buf h = (Done None, after h (Write <$> fs)) ∧
    ∀ i f, fs !! i = Some f →
      f !! 0%nat = Some 2 ∧
      f !! 1%nat = Some 1 ∧
      f !! 2%nat = Some (Z.of_nat i mod 256) ∧
      (len buf ≤ 256 * chunk → f !! 2%nat = Some (Z.of_nat i)) ∧
      f !! 4%nat = Some (eof_flag i (length fs)) ∧
      f !! 5%nat = Some ((key + 1) mod 256) ∧
      (0 ≤ key < 255 → f !! 5%nat = Some (key + 1)) ∧
      (∀ j, (j < payload_len (len buf) i)%nat →
            f !! (16 + j)%nat = buf !! (1008 * i + j)%nat).
Proof.
  intros Hs.
  pose proof (length_first_out key) as Hout.
  assert (length buf < S (length buf))%nat as Hfuel by lia.
  exists (frames key buf).
  split; [apply writeBitmap_ok, succeed_all, Hs|].
  intros i f Hi. unfold frames in *.
  pose proof (frames_loop_header _ _ 0 buf Hout Hfuel i f) as Hhead.
  pose proof (frames_loop_page _ _ 0 buf Hout Hfuel i f Hi ltac:(lia)) as Hpage.
  rewrite Z.add_0_l in Hpage.
  assert (f !! 5%nat = Some ((key + 1) mod 256)) as H5.
  { rewrite (Hhead 5%nat) by (done || lia). by rewrite lookup_first_out. }
  repeat split.
  - rewrite (Hhead 0%nat) by (done || lia). by rewrite lookup_first_out.
  - rewrite (Hhead 1%nat) by (done || lia). by rewrite lookup_first_out.
  - done.
  - intros Hlen. rewrite Hpage. f_equal. apply Z.mod_small.
    apply lookup_lt_Some in Hi.
    apply (frames_loop_count _ _ 0 buf Hout Hfuel) in Hi.
    unfold len, chunk in Hlen. lia.
  - apply (frames_loop_eof _ _ 0 buf Hout Hfuel i f Hi).
    by rewrite lookup_first_out.
  - done.
  - intros Hkey. rewrite H5. f_equal. apply Z.mod_small. lia.
  - intros j Hj.
    by apply (proj1 (proj2 (frames_loop_payload _ _ 0 buf Hout Hfuel)) i f j).
Qed.

(** The frames of a three-byte bitmap for the key 3. *)
Lemma frame_layout_witness :
  ∃ fs,
    writeBitmap mini_session 3 [9; 8; 7] healthy
      = (Done None, after healthy (Write <$> fs)) ∧
    ∀ i f, fs !! i = Some f →
      f !! 0%nat = Some 2 ∧
      f !! 1%nat = Some 1 ∧
      f !! 2%nat = Some (Z.of_nat i mod 256) ∧
      (len [9; 8; 7] ≤ 256 * chunk → f !! 2%nat = Some (Z.of_nat i)) ∧
      f !! 4%nat = Some (eof_flag i (length fs)) ∧
      f !! 5%nat = Some ((3 + 1) mod 256) ∧
      (0 ≤ 3 < 255 → f !! 5%nat = Some (3 + 1)) ∧
      (∀ j, (j < payload_len (len [9; 8; 7]) i)%nat →
            f !! (16 + j)%nat = [9; 8; 7] !! (1008 * i + j)%nat).
Proof.
  apply (frame_layout mini_session 3 [9; 8; 7] healthy).
  intros n. reflexivity.
Defined.

(** ** C9: the frame buffer is reused from page to page *)

(** C9, as stated, does not hold in its last part: zeros past the
    payload are not a mark of a bitmap that fits in one frame.
    [FillColor] with the colour black sends a bitmap of 19254 bytes in
    20 frames, and the 906 bytes of the last frame past the 102 bytes
    copied into it are all zero, being left from a page of zeros. *)
Lemma stale_bytes_of_black_button_are_zero :
  (FillColor mini_session 0 0 0 0 healthy).1 = Done None ∧
  length (frames_of (trace (FillColor mini_session 0 0 0 0 healthy).2)) = 20%nat ∧
  (1008 < length black_bitmap)%nat ∧
  ∃ f, last (frames_of (trace (FillColor mini_session 0 0 0 0 healthy).2)) = Some f ∧
       ∀ j, (payload_len (len black_bitmap) 19 ≤ j)%nat → (j < 1008)%nat →
            f !! (16 + j)%nat = Some 0.
Proof.
  split; [vm_compute; reflexivity|].
  split; [vm_compute; reflexivity|].
  split; [vm_compute; lia|].
  assert (∃ f, last (frames_of (trace (FillColor mini_session 0 0 0 0 healthy).2))
                 = Some f ∧ drop 118 f = replicate 906 0) as (f & Hlast & Hdrop).
  { eexists. split; [vm_compute; reflexivity|]. vm_compute. reflexivity. }
  exists f. split; [done|]. intros j Hj Hj'.
  assert (payload_len (len black_bitmap) 19 = 102%nat) as Hp by (vm_compute; reflexivity).
  rewrite Hp in Hj.
  replace (16 + j)%nat with (118 + (j - 102))%nat by lia.
  rewrite <- lookup_drop, Hdrop. apply lookup_replicate_2. lia.
Qed.

(** C9 (amended): on a handle whose writes succeed, a bitmap of more
    than one page gives at least two frames, and the last frame [f]
    repeats, at every payload offset past the bytes copied into it, the
    byte the frame [g] before it had there, which is a bitmap byte of
    the preceding page and not a zero put there: it is zero exactly
    where that byte of the bitmap is zero.  A bitmap that fits in one
    frame leaves the rest of the payload region at zero.  That the
    bytes are not cleared shows for every length of more than one page
    that does not fill its last frame: the bitmap of that length made of
    the byte 7 leaves a 7 past the payload of its last frame. *)
Theorem frame_buffer_reuse :
  (∀ sd key buf h, (∀ n, script h n = None) →
     ∃ fs,
       writeBitmap sd key buf h = (Done None, after h (Write <$> fs)) ∧
       ((1008 < length buf)%nat → (2 ≤ length fs)%nat) ∧
       (∀ i g f j, fs !! i = Some g → fs !! S i = Some f → S (S i) = length fs →
          (payload_len (len buf) (S i) ≤ j)%nat → (j < 1008)%nat →
          f !! (16 + j)%nat = g !! (16 + j)%nat ∧
          g !! (16 + j)%nat = buf !! (1008 * i + j)%nat ∧
          is_Some (buf !! (1008 * i + j)%nat) ∧
          (f !! (16 + j)%nat = Some 0 ↔ buf !! (1008 * i + j)%nat = Some 0)) ∧
       ((length buf ≤ 1008)%nat →
          ∃ f, fs = [f] ∧
               ∀ j, (length buf ≤ j)%nat → (j < 1008)%nat →
                    f !! (16 + j)%nat = Some 0))
  ∧ (∀ sd key (L : nat) h, (∀ n, script h n = None) →
       (1008 < L)%nat → (L `mod` 1008 ≠ 0)%nat →
       ∃ fs f j,
         writeBitmap sd key (replicate L 7) h = (Done None, after h (Write <$> fs)) ∧
         last fs = Some f ∧
         (payload_len (Z.of_nat L) (pred (length fs)) ≤ j)%nat ∧ (j < 1008)%nat ∧
         f !! (16 + j)%nat = Some 7).
Proof.
  split.
  - intros sd key buf h Hs.
    pose proof (length_first_out key) as Hout.
    assert (length buf < S (length buf))%nat as Hfuel by lia.
    pose proof (frames_loop_count _ _ 0 buf Hout Hfuel) as Hcount.
    destruct (frames_loop_payload _ _ 0 buf Hout Hfuel) as (Hhead & Hpay & Hstale).
    fold (frames key buf) in Hcount, Hhead, Hpay, Hstale.
    exists (frames key buf).
    split; [apply writeBitmap_ok, succeed_all, Hs|].
    split; [|split].
    + intros Hlen. apply (Hcount 1%nat). lia.
    + intros i g f j Hg Hf Hlast Hj Hj'.
      assert (1008 * S i < length buf)%nat as Hbuf.
      { apply lookup_lt_Some in Hf. apply Hcount in Hf. lia. }
      assert (f !! (16 + j)%nat = g !! (16 + j)%nat) as Hfg by (by apply (Hstale i)).
      assert (g !! (16 + j)%nat = buf !! (1008 * i + j)%nat) as Hgb.
      { apply Hpay; [done|]. unfold payload_len, len, chunk. lia. }
      split; [done|]. split; [done|]. split.
      * apply lookup_lt_is_Some. lia.
      * by rewrite Hfg, Hgb.
    + intros Hlen.
      exists (next_frame (first_out key) 0 buf). split.
      * assert (length (frames key buf) = 1%nat) as H1.
        { assert (¬ (1 < length (frames key buf))%nat) by (rewrite Hcount; lia).
          assert (0 < length (frames key buf))%nat by (apply Hcount; lia). lia. }
        destruct (frames key buf) as [|f0 [|f1 fs]]; simpl in H1; try lia.
        simpl in Hhead. by inversion Hhead.
      * intros j Hj Hj'. rewrite lookup_next_frame by lia.
        rewrite !decide_False by lia.
        rewrite lookup_first_out. rewrite !decide_False by lia.
        by rewrite decide_True by lia.
  - intros sd key L h Hs HL Hmod.
    set (buf := replicate L 7).
    assert (length buf = L) as Hbuf by apply length_replicate.
    pose proof (length_first_out key) as Hout.
    assert (length buf < S (length buf))%nat as Hfuel by lia.
    pose proof (frames_loop_count _ _ 0 buf Hout Hfuel) as Hcount.
    destruct (frames_loop_payload _ _ 0 buf Hout Hfuel) as (_ & Hpay & Hstale).
    fold (frames key buf) in Hcount, Hpay, Hstale.
    rewrite Hbuf in Hcount.
    set (m := length (frames key buf)) in *.
    assert (2 ≤ m)%nat as Hm2 by (apply (Hcount 1%nat); lia).
    assert (1008 * (m - 1) < L)%nat as Hlow by (pose proof (proj1 (Hcount (m - 1)%nat)); lia).
    assert (L ≤ 1008 * m)%nat as Hhigh by (pose proof (proj2 (Hcount m)); lia).
    assert (L ≠ 1008 * m)%nat as Hne.
    { intros HLm. apply Hmod. rewrite HLm, Nat.mul_comm. apply Nat.Div0.mod_mul. }
    destruct (lookup_lt_is_Some_2 (frames key buf) (m - 2)%nat ltac:(lia)) as [g Hg].
    destruct (lookup_lt_is_Some_2 (frames key buf) (m - 1)%nat ltac:(lia)) as [f Hf].
    set (j := (L - 1008 * (m - 1))%nat).
    assert (payload_len (Z.of_nat L) (m - 1) = j) as Hj.
    { unfold payload_len, chunk, j. lia. }
    exists (frames key buf), f, j.
    split; [apply writeBitmap_ok, succeed_all, Hs|].
    split; [rewrite last_lookup; fold m; by replace (pred m) with (m - 1)%nat by lia|].
    fold m. replace (pred m) with (m - 1)%nat by lia.
    split; [lia|]. split; [unfold j; lia|].
    replace (m - 1)%nat with (S (m - 2)) in Hf, Hj by lia.
    rewrite (Hstale (m - 2)%nat g f j Hg Hf) by (unfold len; rewrite Hbuf; lia).
    rewrite (Hpay (m - 2)%nat g j Hg)
      by (unfold len, payload_len, chunk; rewrite Hbuf; unfold j; lia).
    apply lookup_replicate_2. unfold j. lia.
Qed.

(** A bitmap of one page and one byte. *)
Lemma frame_buffer_reuse_witness :
  ∃ fs f j,
    writeBitmap mini_session 0 (replicate 1009 7) healthy
      = (Done None, after healthy (Write <$> fs)) ∧
    last fs = Some f ∧
    (payload_len (Z.of_nat 1009) (pred (length fs)) ≤ j)%nat ∧ (j < 1008)%nat ∧
    f !! (16 + j)%nat = Some 7.
Proof.
  apply (proj2 frame_buffer_reuse mini_session 0 1009%nat healthy).
  - intros n. reflexivity.
  - lia.
  - vm_compute. discriminate.
Defined.

(** ** C2: the check of the button index *)

Lemma checkValidKeyIndex_rejects idx :
  idx < 0 ∨ 15 < idx → checkValidKeyIndex idx = Some "invalid key index".
Proof. intros. unfold checkValidKeyIndex. rewrite decide_True; [done|lia]. Qed.

Lemma checkValidKeyIndex_accepts idx :
  0 ≤ idx ≤ 15 → checkValidKeyIndex idx = None.
Proof. intros. unfold checkValidKeyIndex. rewrite decide_False; [done|lia]. Qed.

(** An index the check rejects ends [FillImage] before the bitmap is
    made and leaves the handle as it was. *)
Lemma FillImage_rejects sd idx img h :
  idx < 0 ∨ 15 < idx →
  FillImage sd idx img h = (Done (Some "invalid key index"), h).
Proof. intros H. unfold FillImage. by rewrite checkValidKeyIndex_rejects. Qed.

(** The indices of every device of the catalog pass the check. *)
Lemma catalog_indices_accepted d idx :
  d ∈ streamdeckDevices → 0 ≤ idx < dev_NumButtons d →
  checkValidKeyIndex idx = None.
Proof.
  intros Hd Hidx. apply checkValidKeyIndex_accepts.
  unfold streamdeckDevices in Hd.
  repeat (apply elem_of_cons in Hd as [->|Hd]); [..|by apply elem_of_nil in Hd];
    simpl in Hidx; lia.
Qed.

(** C2 (the code departs from it): the index 15 is outside of
    [0, 15), the range of the Legacy Stream Deck, and 6 is outside of
    [0, 6), the range of the Stream Deck Mini, yet the check lets both
    pass; [FillImage] then encodes the picture and writes its 20 frames,
    addressed to the button byte 16, and returns [nil]. *)
Theorem key_index_15_is_accepted :
  ¬ (0 ≤ 15 < ButtonCount legacy_session) ∧
  checkValidKeyIndex 15 = None ∧
  (FillImage legacy_session 15 (uniform_button 0 0 0) healthy).1 = Done None ∧
  length (frames_of (trace (FillImage legacy_session 15 (uniform_button 0 0 0)
                              healthy).2)) = 20%nat ∧
  (take 6 <$> frames_of (trace (FillImage legacy_session 15 (uniform_button 0 0 0)
                              healthy).2) !! 0%nat) = Some [2; 1; 0; 0; 0; 16] ∧
  ¬ (0 ≤ 6 < ButtonCount mini_session) ∧
  checkValidKeyIndex 6 = None.
Proof.
  split; [vm_compute; intros [_ H]; discriminate H|].
  split; [reflexivity|].
  split; [vm_compute; reflexivity|].
  split; [vm_compute; reflexivity|].
  split; [vm_compute; reflexivity|].
  split; [vm_compute; intros [_ H]; discriminate H|].
  reflexivity.
Qed.

(** ** C7: the poller *)

(** A report that agrees with the stored states changes nothing and
    starts no callback. *)
Lemma read_buttons_same cb : ∀ data i st,
  (∀ k b s, data !! k = Some b → st !! (i + k)%nat = Some s → s = itob b) →
  read_buttons cb i data st = (st, []).
Proof.
  induction data as [|b data IH]; intros i st Hsame; [done|].
  cbn [read_buttons]. case_decide as Hlen; [done|].
  assert (st !! i = Some (itob b)) as Hi.
  { destruct (lookup_lt_is_Some_2 st i ltac:(lia)) as [s Hs].
    rewrite Hs. f_equal. apply (Hsame 0%nat b s); [done|].
    by rewrite Nat.add_0_r. }
  rewrite decide_False by (intros Hne; by apply Hne).
  apply IH. intros k b' s Hk Hs.
  apply (Hsame (S k) b' s); [done|]. by rewrite <- Nat.add_succ_comm.
Qed.

(** What [read_buttons] leaves: the buttons below [i] are not touched,
    a button the report covers holds the state of its byte, and every
    started callback is for a button whose stored state differed from
    its byte. *)
Lemma read_buttons_post cb : ∀ data i st st' ns,
  read_buttons cb i data st = (st', ns) →
  length st' = length st ∧
  (∀ j, (j < i)%nat → st' !! j = st !! j) ∧
  (∀ k b, data !! k = Some b → (i + k < length st)%nat →
          st' !! (i + k)%nat = Some (itob b)) ∧
  (∀ n, n ∈ ns → ∃ k b, n_index n = Z.of_nat (i + k) ∧ data !! k = Some b ∧
                        st !! (i + k)%nat ≠ Some (itob b) ∧
                        (i + k < length st)%nat).
Proof.
  induction data as [|b data IH]; intros i st st' ns Hrun.
  { simpl in Hrun. inversion Hrun; subst. repeat split; try done.
    intros n Hn. by apply elem_of_nil in Hn. }
  cbn [read_buttons] in Hrun.
  destruct (decide (length st ≤ i)%nat) as [Hlen|Hlen].
  { inversion Hrun; subst. repeat split; try done.
    - intros k b' _ Hk. lia.
    - intros n Hn. by apply elem_of_nil in Hn. }
  destruct (decide (st !! i ≠ Some (itob b))) as [Hne|Heq].
  - destruct (read_buttons cb (S i) data (<[i:=itob b]> st)) as [st1 ns1] eqn:Hrec.
    inversion Hrun; subst st' ns. clear Hrun.
    destruct (IH _ _ _ _ Hrec) as (Hl & Hbelow & Hcov & Hns).
    rewrite length_insert in Hl, Hcov.
    split; [done|]. split; [|split].
    + intros j Hj. rewrite Hbelow by lia. by rewrite list_lookup_insert_ne by lia.
    + intros k b' Hk Hik. destruct k as [|k]; simpl in Hk.
      * inversion Hk; subst b'. rewrite Nat.add_0_r.
        rewrite Hbelow by lia. apply list_lookup_insert_eq. lia.
      * rewrite <- Nat.add_succ_comm. apply Hcov; [done|lia].
    + intros n Hn. apply elem_of_app in Hn as [Hn|Hn].
      * destruct cb as [f|]; [|by apply elem_of_nil in Hn].
        apply list_elem_of_singleton in Hn. subst n. simpl.
        exists 0%nat, b. rewrite Nat.add_0_r. repeat split; try done. lia.
      * destruct (Hns n Hn) as (k & b' & Hidx & Hk & Hdiff & Hin).
        exists (S k), b'. rewrite <- Nat.add_succ_comm.
        split; [done|]. split; [done|].
        rewrite length_insert in Hin. split; [|done].
        by rewrite list_lookup_insert_ne in Hdiff by lia.
  - destruct (IH _ _ _ _ Hrun) as (Hl & Hbelow & Hcov & Hns).
    split; [done|]. split; [|split].
    + intros j Hj. apply Hbelow. lia.
    + intros k b' Hk Hik. destruct k as [|k]; simpl in Hk.
      * inversion Hk; subst b'. rewrite Nat.add_0_r.
        rewrite Hbelow by lia.
        destruct (decide (st !! i = Some (itob b))); [done|]. by exfalso; apply Heq.
      * rewrite <- Nat.add_succ_comm. apply Hcov; [done|lia].
    + intros n Hn. destruct (Hns n Hn) as (k & b' & Hidx & Hk & Hdiff & Hin).
      exists (S k), b'. by rewrite <- Nat.add_succ_comm.
Qed.

Lemma read_iteration_skipped sd r : skipped r → read_iteration sd r = Done (sd, []).
Proof.
  destruct r as [e|[|d0 data]]; simpl; [done|done|].
  intros Hd. by rewrite decide_True.
Qed.

Lemma read_skipped sd rs rs' : Forall skipped rs → read sd (rs ++ rs') = read sd rs'.
Proof.
  induction 1 as [|r rs Hr _ IH]; [done|].
  simpl. rewrite read_iteration_skipped by done. rewrite IH.
  by destruct (read sd rs') as [[sd' ns]| |].
Qed.

Lemma read_iteration_report sd data :
  read_iteration sd (ReadOk (1 :: data)) =
    Done ({| btnEventCb := btnEventCb sd;
             btnState := (read_buttons (btnEventCb sd) 0 data (btnState sd)).1;
             info := info sd |},
          (read_buttons (btnEventCb sd) 0 data (btnState sd)).2).
Proof.
  unfold read_iteration. rewrite decide_False by (intros H; by apply H).
  by destruct (read_buttons _ _ _ _).
Qed.

(** The first button changes and the bytes after it are zero, on
    buttons that are released. *)
Lemma read_buttons_first cb b n s :
  s ≠ itob b →
  read_buttons (Some cb) 0 (b :: replicate n 0) (s :: replicate 14 BtnReleased)
  = (itob b :: replicate 14 BtnReleased,
     [{| n_cb := cb; n_index := 0; n_state := itob b |}]).
Proof.
  intros Hs. cbn [read_buttons].
  rewrite decide_False by (simpl; lia).
  rewrite decide_True by (simpl; congruence).
  change (<[0%nat:=itob b]> (s :: replicate 14 BtnReleased))
    with (itob b :: replicate 14 BtnReleased).
  rewrite read_buttons_same; [done|].
  intros k b' s' Hk Hs'.
  apply lookup_replicate in Hk as [-> _].
  change (1 + k)%nat with (S k) in Hs'.
  change ((itob b :: replicate 14 BtnReleased) !! S k)
    with (replicate 14 BtnReleased !! k) in Hs'.
  by apply lookup_replicate in Hs' as [-> _].
Qed.

(** C7: from all buttons released and with a callback registered, the
    reports [1, 1, 0, ..., 0] and [1, 0, 0, ..., 0] make the poller
    start two callbacks, (0, pressed) and then (0, released), and
    nothing else; and between two processed reports, with any number of
    failed reads and discarded reports in between, the poller starts no
    callback for a button whose byte is the same in both. *)
Theorem poller_press_release :
  (∀ d cb n,
     read (SetBtnEventCb (session_of d) (Some cb))
          [ReadOk (1 :: 1 :: replicate n 0); ReadOk (1 :: 0 :: replicate n 0)]
     = Done (SetBtnEventCb (session_of d) (Some cb),
             [{| n_cb := cb; n_index := 0; n_state := BtnPressed |};
              {| n_cb := cb; n_index := 0; n_state := BtnReleased |}]))
  ∧ (∀ sd data1 rs data2, Forall skipped rs →
       ∃ sd1 ns1 sd2 ns2,
         read_iteration sd (ReadOk (1 :: data1)) = Done (sd1, ns1) ∧
         read sd1 (rs ++ [ReadOk (1 :: data2)]) = Done (sd2, ns2) ∧
         ∀ i b, data1 !! i = Some b → data2 !! i = Some b →
                ∀ n, n ∈ ns2 → n_index n ≠ Z.of_nat i).
Proof.
  split.
  - intros d cb n. cbn [read].
    rewrite read_iteration_report.
    unfold SetBtnEventCb, session_of. cbn [btnEventCb btnState info].
    change (replicate (Z.to_nat NumButtons) BtnReleased)
      with (BtnReleased :: replicate 14 BtnReleased).
    rewrite read_buttons_first by done. cbn [fst snd].
    rewrite read_iteration_report. cbn [btnEventCb btnState info].
    rewrite read_buttons_first by done. reflexivity.
  - intros sd data1 rs data2 Hrs.
    destruct (read_buttons (btnEventCb sd) 0 data1 (btnState sd)) as [st1 ns1] eqn:H1.
    set (sd1 := {| btnEventCb := btnEventCb sd; btnState := st1; info := info sd |}).
    destruct (read_buttons (btnEventCb sd1) 0 data2 (btnState sd1)) as [st2 ns2] eqn:H2.
    exists sd1, ns1,
      {| btnEventCb := btnEventCb sd1; btnState := st2; info := info sd1 |}, ns2.
    split; [by rewrite read_iteration_report, H1|].
    split.
    { rewrite read_skipped by done. cbn [read].
      rewrite read_iteration_report, H2. cbn [fst snd]. by rewrite app_nil_r. }
    intros i b Hd1 Hd2 n Hn Hidx.
    destruct (read_buttons_post _ _ _ _ _ _ H1) as (Hl1 & _ & Hcov1 & _).
    destruct (read_buttons_post _ _ _ _ _ _ H2) as (_ & _ & _ & Hns2).
    destruct (Hns2 n Hn) as (k & b' & Hk & Hb' & Hdiff & Hin).
    simpl in Hk, Hdiff, Hin. rewrite Hk in Hidx.
    apply Nat2Z.inj in Hidx. subst k.
    rewrite Hd2 in Hb'. inversion Hb'; subst b'.
    apply Hdiff. apply (Hcov1 i b Hd1). simpl. lia.
Qed.

(** Two reports with a timed-out read and a discarded report between
    them. *)
Lemma poller_press_release_witness :
  ∃ sd1 ns1 sd2 ns2,
    read_iteration (SetBtnEventCb mini_session (Some 7%nat)) (ReadOk (1 :: [1; 0]))
      = Done (sd1, ns1) ∧
    read sd1 ([ReadErr "timeout"; ReadOk [2; 1]] ++ [ReadOk (1 :: [0; 0])])
      = Done (sd2, ns2) ∧
    ∀ i b, [1; 0] !! i = Some b → [0; 0] !! i = Some b →
           ∀ n, n ∈ ns2 → n_index n ≠ Z.of_nat i.
Proof.
  apply (proj2 poller_press_release (SetBtnEventCb mini_session (Some 7%nat))
           [1; 0] [ReadErr "timeout"; ReadOk [2; 1]] [0; 0]).
  repeat constructor. simpl. lia.
Defined.

(** ** C10: the type assertion of the panel fill *)

(** C10: a picture as wide as the panel and not higher, whose type is
    not [image.RGBA], goes through [FillPanel] without being resized or
    cropped; the type assertion made for the first button then panics
    with the runtime's message, which names the type of the picture,
    before any frame is written, and no error is returned. *)
Theorem FillPanel_type_assertion_panics
    gift_bounds_resize gift_draw_resize gift_bounds_crop gift_draw_crop
    scaled_height sd img h :
  Dx (Bounds img) = PanelWidth →
  Dy (Bounds img) ≤ PanelHeight →
  img_type img ≠ TyRGBA →
  FillPanel gift_bounds_resize gift_draw_resize gift_bounds_crop gift_draw_crop
            scaled_height sd img h
  = (Panicked ("interface conversion: image.Image is "
               +:+ type_name (img_type img) +:+ ", not *image.RGBA"), h).
Proof.
  intros Hw Hh Hty. unfold FillPanel.
  destruct (decide (Dx (Bounds img) ≠ PanelWidth)) as [Hne|_]; [done|].
  rewrite decide_False by lia.
  replace (seqZ 0 NumButtonRows) with [0; 1; 2] by reflexivity.
  replace (seqZ 0 NumButtonColumns) with [0; 1; 2; 3; 4] by reflexivity.
  cbn [mfold]. unfold bind at 1 2 3. unfold assert_RGBA.
  rewrite decide_False by done. reflexivity.
Qed.

(** A picture of the size of the panel, of type [image.NRGBA]. *)
Lemma FillPanel_type_assertion_panics_witness :
  FillPanel (λ r _ _, r) (λ _ _ _ _ _, (0, 0, 0, 0))
            (λ r _ _, r) (λ _ _ _ _ _, (0, 0, 0, 0))
            (λ _ dy, dy) mini_session nrgba_panel healthy
  = (Panicked "interface conversion: image.Image is *image.NRGBA, not *image.RGBA",
     healthy).
Proof.
  apply FillPanel_type_assertion_panics.
  - reflexivity.
  - vm_compute. discriminate.
  - discriminate.
Defined.

(** ** C8: opening a session *)

Lemma bind_done {A B} (m : M A) (k : A → M B) h a h' :
  m h = (Done a, h') → bind m k h = k a h'.
Proof. intros H. unfold bind. by rewrite H. Qed.

Lemma bind_panicked {A B} (m : M A) (k : A → M B) h msg h' :
  m h = (Panicked msg, h') → bind m k h = (Panicked msg, h').
Proof. intros H. unfold bind. by rewrite H. Qed.

Lemma ClearBtn_unfold sd i :
  0 ≤ i ≤ 15 → ClearBtn sd i = writeBitmap sd (byte_of i) black_bitmap.
Proof.
  intros Hi. unfold ClearBtn, FillColor, FillImage.
  rewrite checkValidKeyIndex_accepts by done.
  by change (checkRGB 0) with (@None error).
Qed.

Lemma clear_frames_of_cons i l :
  clear_frames_of (i :: l) = frames (byte_of i) black_bitmap ++ clear_frames_of l.
Proof. reflexivity. Qed.

Lemma length_trace_after h acts :
  length (trace (after h acts)) = (length (trace h) + length acts)%nat.
Proof. unfold after. cbn [trace]. apply length_app. Qed.

Lemma script_after h acts : script (after h acts) = script h.
Proof. reflexivity. Qed.

(** Clearing succeeds on a handle whose calls all succeed from now on. *)
Lemma clear_all_ok sd : ∀ l h,
  Forall (λ i, 0 ≤ i ≤ 15) l →
  (∀ n, (length (trace h) ≤ n)%nat → script h n = None) →
  mfold (λ _ i, let! _ := ClearBtn sd i in ret ()) () l h
  = (Done (), after h (Write <$> clear_frames_of l)).
Proof.
  induction l as [|i l IH]; intros h Hl Hq.
  { change (clear_frames_of []) with (@nil (list Z)).
    rewrite fmap_nil. by rewrite after_nil. }
  inversion Hl as [|? ? Hi Hl']; subst.
  cbn [mfold]. rewrite clear_frames_of_cons.
  rewrite (bind_done _ _ h () (after h (Write <$> frames (byte_of i) black_bitmap))).
  - rewrite IH; [|done|].
    + by rewrite after_after, fmap_app.
    + intros n Hn. rewrite script_after. apply Hq.
      rewrite length_trace_after in Hn. lia.
  - rewrite (bind_done _ _ h None (after h (Write <$> frames (byte_of i) black_bitmap)));
      [done|].
    rewrite ClearBtn_unfold by done. apply writeBitmap_ok.
    intros j _. apply Hq. lia.
Qed.

(** A failed write while clearing ends in the writer's panic. *)
Lemma clear_all_fail sd : ∀ l h k e,
  Forall (λ i, 0 ≤ i ≤ 15) l →
  (k < length (clear_frames_of l))%nat →
  succeed h (length (trace h)) k →
  script h (length (trace h) + k) = Some e →
  mfold (λ _ i, let! _ := ClearBtn sd i in ret ()) () l h
  = (Panicked ("failed to setreport: " +:+ e),
     after h (Write <$> take (S k) (clear_frames_of l))).
Proof.
  induction l as [|i l IH]; intros h k e Hl Hk Hok He.
  { change (clear_frames_of []) with (@nil (list Z)) in Hk.
    cbn [length] in Hk. lia. }
  inversion Hl as [|? ? Hi Hl']; subst.
  rewrite clear_frames_of_cons in *.
  remember (frames (byte_of i) black_bitmap) as fs eqn:Hfs.
  cbn [mfold].
  destruct (decide (k < length fs)%nat) as [Hin|Hout].
  - rewrite take_app_le by lia.
    apply bind_panicked. apply bind_panicked.
    rewrite ClearBtn_unfold by done. subst fs. by apply writeBitmap_fail.
  - rewrite (bind_done _ _ h () (after h (Write <$> fs))).
    + rewrite length_app in Hk.
      rewrite (IH _ (k - length fs)%nat e); [|done|lia|..].
      * rewrite after_after, <- fmap_app. do 3 f_equal.
        rewrite take_app_ge by lia. do 2 f_equal. lia.
      * intros j Hj. rewrite script_after, length_trace_after, length_fmap.
        replace (length (trace h) + length fs + j)%nat
          with (length (trace h) + (length fs + j))%nat by lia.
        apply Hok. lia.
      * rewrite script_after, length_trace_after, length_fmap.
        rewrite <- He. f_equal. lia.
    + rewrite (bind_done _ _ h None (after h (Write <$> fs))); [done|].
      rewrite ClearBtn_unfold by done. subst fs. apply writeBitmap_ok.
      intros j Hj. apply Hok. lia.
Qed.

Lemma find_info_catalog product :
  find_info product streamdeckDevices legacy_device ∈ streamdeckDevices.
Proof.
  unfold streamdeckDevices. cbn [find_info].
  repeat case_decide; repeat constructor.
Qed.

Lemma clear_indices n : n ≤ 16 → Forall (λ i, 0 ≤ i ≤ 15) (reverse (seqZ 0 n)).
Proof.
  intros Hn. apply Forall_reverse, Forall_forall. intros i Hi.
  apply elem_of_seqZ in Hi. lia.
Qed.

Lemma catalog_button_count d : d ∈ streamdeckDevices → dev_NumButtons d ≤ 16.
Proof.
  intros Hd. unfold streamdeckDevices in Hd.
  repeat (apply elem_of_cons in Hd as [->|Hd]); [..|by apply elem_of_nil in Hd];
    simpl; lia.
Qed.

Lemma Reset_run sd h :
  Reset sd h = (Done (script h (length (trace h))),
                after h [SetFeatureReport 0 reset_payload]).
Proof. reflexivity. Qed.

Lemma SetBrightness_run sd pc h :
  SetBrightness sd pc h = (Done (script h (length (trace h))),
                           after h [SetFeatureReport 0 (brightness_payload pc)]).
Proof. reflexivity. Qed.

Lemma go_read_run h : go_read h = (Done (), after h [GoRead]).
Proof. reflexivity. Qed.

(** [NewStreamDeck] once the first supported device is open. *)
Lemma NewStreamDeck_opened serial usb d rest :
  len serial ≤ 1 →
  filter (λ d, supported d = true) usb = d :: rest →
  usb_open d = None →
  NewStreamDeck serial usb =
    let sd := session_of (find_info (usb_product d) streamdeckDevices legacy_device) in
    let! err := Reset sd in
    match err with
    | Some e => ret (None, Some e)
    | None =>
      let! _ := SetBrightness sd 100 in
      let! _ := ClearAllBtns sd in
      let! _ := go_read in
      ret (Some sd, None)
    end.
Proof.
  intros Hserial Hfilter Hopen. unfold NewStreamDeck.
  rewrite decide_False by lia. rewrite Hfilter, Hopen. reflexivity.
Qed.

(** C8, as stated, does not hold: when the brightness feature report
    (the second call on the handle) fails, [NewStreamDeck] still returns
    the session and no error; when the first frame write of the
    clearing (the third call) fails, it panics and returns nothing. *)
Lemma setup_failures_are_not_returned :
  (NewStreamDeck [] [mini_usb] (failing_at 1 "broken pipe")).1
    = Done (Some mini_session, None)
  ∧ trace (NewStreamDeck [] [mini_usb] (failing_at 1 "broken pipe")).2 !! 1%nat
    = Some (SetFeatureReport 0 (brightness_payload 100))
  ∧ (NewStreamDeck [] [mini_usb] (failing_at 2 "broken pipe")).1
    = Panicked "failed to setreport: broken pipe".
Proof.
  split; [vm_compute; reflexivity|].
  split; vm_compute; reflexivity.
Qed.

(** C8 (amended): with the first supported device open, [NewStreamDeck]
    sets every button state to released and sends the reset feature
    report. If the reset fails it returns that error and no session,
    having done nothing else. If the reset succeeds, it sends the
    brightness report for 100 percent, whose result it ignores, clears
    the buttons from the last to the first, starts the poller and
    returns the session, provided the frame writes of the clearing
    succeed; a frame write that fails makes it panic. *)
Theorem NewStreamDeck_setup serial usb d rest h :
  len serial ≤ 1 →
  filter (λ d, supported d = true) usb = d :: rest →
  usb_open d = None →
  let sdinfo := find_info (usb_product d) streamdeckDevices legacy_device in
  let start := length (trace h) in
  btnState (session_of sdinfo) = replicate 15 BtnReleased ∧
  (∀ e, script h start = Some e →
     NewStreamDeck serial usb h =
       (Done (None, Some e), after h [SetFeatureReport 0 reset_payload])) ∧
  (script h start = None →
   (∀ n, (start + 2 ≤ n)%nat → script h n = None) →
     NewStreamDeck serial usb h =
       (Done (Some (session_of sdinfo), None),
        after h ([SetFeatureReport 0 reset_payload;
                  SetFeatureReport 0 (brightness_payload 100)]
                 ++ (Write <$> clear_frames (dev_NumButtons sdinfo))
                 ++ [GoRead]))) ∧
  (∀ k e, script h start = None →
     (k < length (clear_frames (dev_NumButtons sdinfo)))%nat →
     succeed h (start + 2) k →
     script h (start + 2 + k) = Some e →
     NewStreamDeck serial usb h =
       (Panicked ("failed to setreport: " +:+ e),
        after h ([SetFeatureReport 0 reset_payload;
                  SetFeatureReport 0 (brightness_payload 100)]
                 ++ (Write <$> take (S k) (clear_frames (dev_NumButtons sdinfo)))))).
Proof.
  intros Hserial Hfilter Hopen sdinfo start.
  rewrite (NewStreamDeck_opened serial usb d rest Hserial Hfilter Hopen).
  cbv zeta. fold sdinfo.
  assert (Forall (λ i, 0 ≤ i ≤ 15) (reverse (seqZ 0 (dev_NumButtons sdinfo)))) as Hidx.
  { apply clear_indices, catalog_button_count, find_info_catalog. }
  set (h1 := after h [SetFeatureReport 0 reset_payload]).
  set (h2 := after h1 [SetFeatureReport 0 (brightness_payload 100)]).
  assert (length (trace h2) = (start + 2)%nat) as Hlen2.
  { unfold h2, h1. rewrite !length_trace_after. simpl. lia. }
  split; [reflexivity|]. split; [|split].
  - intros e He.
    rewrite (bind_done _ _ h _ _ (Reset_run _ h)). fold start. by rewrite He.
  - intros Hreset Hquiet.
    rewrite (bind_done _ _ h _ _ (Reset_run _ h)). fold start h1. rewrite Hreset.
    rewrite (bind_done _ _ h1 _ _ (SetBrightness_run _ 100 h1)). fold h2.
    unfold ClearAllBtns.
    rewrite (bind_done _ _ h2 _ _ (clear_all_ok _ _ h2 Hidx
      ltac:(intros n Hn; apply Hquiet; lia))).
    rewrite (bind_done _ _ _ _ _ (go_read_run _)).
    unfold ret, h2, h1. rewrite !after_after. reflexivity.
  - intros k e Hreset Hk Hok He.
    rewrite (bind_done _ _ h _ _ (Reset_run _ h)). fold start h1. rewrite Hreset.
    rewrite (bind_done _ _ h1 _ _ (SetBrightness_run _ 100 h1)). fold h2.
    unfold ClearAllBtns.
    rewrite (bind_panicked _ _ h2 _ _ (clear_all_fail _ _ h2 k e Hidx Hk
      ltac:(rewrite Hlen2; exact Hok) ltac:(rewrite Hlen2; exact He))).
    unfold h2, h1. rewrite !after_after. reflexivity.
Qed.

(** A Stream Deck Mini on a handle without failures. *)
Lemma NewStreamDeck_setup_witness :
  NewStreamDeck [] [mini_usb] healthy =
    (Done (Some mini_session, None),
     after healthy ([SetFeatureReport 0 reset_payload;
                     SetFeatureReport 0 (brightness_payload 100)]
                    ++ (Write <$> clear_frames 6)
                    ++ [GoRead])).
Proof.
  destruct (NewStreamDeck_setup [] [mini_usb] mini_usb [] healthy)
    as (_ & _ & Hok & _).
  - unfold len. simpl. lia.
  - reflexivity.
  - reflexivity.
  - apply Hok; [reflexivity|]. intros n _. reflexivity.
Defined.

(** ** C1: the round trip through the bitmap *)

Lemma low_byte_RGBA8 c : 0 ≤ c < 256 → byte_of (Z.lor c (Z.shiftl c 8)) = c.
Proof.
  intros Hc. unfold byte_of.
  change 256 with (2 ^ 8). rewrite <- Z.land_ones by lia.
  rewrite Z.land_lor_distr_l.
  rewrite (Z.land_ones (Z.shiftl c 8)) by lia.
  rewrite Z.shiftl_mul_pow2 by lia. rewrite Z.mod_mul by lia.
  rewrite Z.lor_0_r, Z.land_ones by lia. apply Z.mod_small. lia.
Qed.

Lemma bgr_RGBA8 r g b a :
  pixel_bytes (r, g, b, a) → bgr (RGBA8 r g b a) = [b; g; r].
Proof.
  intros (Hr & Hg & Hb & _). unfold bgr, RGBA8. simpl.
  by rewrite !low_byte_RGBA8.
Qed.

Lemma le32_decode_encode v :
  0 ≤ v < 2 ^ 32 →
  v mod 256 + 2 ^ 8 * ((v / 2 ^ 8) mod 256) + 2 ^ 16 * ((v / 2 ^ 16) mod 256)
    + 2 ^ 24 * ((v / 2 ^ 24) mod 256) = v.
Proof.
  intros Hv.
  change (2 ^ 8) with 256. change (2 ^ 16) with (256 * 256).
  change (2 ^ 24) with (256 * 256 * 256).
  change (2 ^ 32) with (256 * 256 * 256 * 256) in Hv.
  rewrite <- !Z.div_div by lia.
  Z.div_mod_to_equations. lia.
Qed.

Lemma length_bitmap_header w h : length (bitmap_header w h) = 54%nat.
Proof. reflexivity. Qed.

Lemma at_app_header w h px k :
  0 ≤ k → at_ (bitmap_header w h ++ px) (54 + k) = px !! Z.to_nat k.
Proof.
  intros Hk. unfold at_. rewrite decide_True by lia.
  rewrite lookup_app_r by (rewrite length_bitmap_header; lia).
  rewrite length_bitmap_header. f_equal. lia.
Qed.

Lemma at_nonneg l i : 0 ≤ i → at_ l i = l !! Z.to_nat i.
Proof. intros. unfold at_. by rewrite decide_True. Qed.

Lemma le32_decode_lookup bs off b0 b1 b2 b3 :
  0 ≤ off →
  bs !! Z.to_nat off = Some b0 → bs !! Z.to_nat (off + 1) = Some b1 →
  bs !! Z.to_nat (off + 2) = Some b2 → bs !! Z.to_nat (off + 3) = Some b3 →
  le32_decode bs off = Some (b0 + 2 ^ 8 * b1 + 2 ^ 16 * b2 + 2 ^ 24 * b3).
Proof.
  intros Hoff H0 H1 H2 H3. unfold le32_decode.
  rewrite !at_nonneg by lia. by rewrite H0, H1, H2, H3.
Qed.

Lemma header_fields w h px :
  0 ≤ w < 2 ^ 32 → 0 ≤ h < 2 ^ 32 →
  le32_decode (bitmap_header w h ++ px) 10 = Some 54 ∧
  le32_decode (bitmap_header w h ++ px) 18 = Some w ∧
  le32_decode (bitmap_header w h ++ px) 22 = Some h.
Proof.
  intros Hw Hh.
  assert (uint32 w = w) as Ew by (apply Z.mod_small; lia).
  assert (uint32 h = h) as Eh by (apply Z.mod_small; lia).
  split; [reflexivity|]. split.
  - erewrite (le32_decode_lookup _ 18); [|lia|reflexivity..].
    rewrite Ew. f_equal. by apply le32_decode_encode.
  - erewrite (le32_decode_lookup _ 22); [|lia|reflexivity..].
    rewrite Eh. f_equal. by apply le32_decode_encode.
Qed.

(** A byte of the body of turn [i] of a loop whose turns all write [k]
    bytes. *)
Lemma for_range_lookup n body k i j :
  (∀ i, length (body i) = k) → 0 ≤ i < n → (j < k)%nat →
  for_range n body !! (Z.to_nat i * k + j)%nat = body i !! j.
Proof.
  intros Hlen Hi Hj. unfold for_range.
  destruct (lookup_lt_is_Some_2 (body i) j ltac:(rewrite Hlen; lia)) as [x Hx].
  rewrite Hx. apply join_lookup_Some_same_length'; [|done|].
  - apply Forall_fmap, Forall_forall. intros a _. apply Hlen.
  - exists (body i). split; [|done].
    rewrite list_lookup_fmap, lookup_seqZ_lt by lia.
    simpl. do 2 f_equal. lia.
Qed.

Lemma length_for_range n body k :
  (∀ i, length (body i) = k) → length (for_range n body) = (Z.to_nat n * k)%nat.
Proof.
  intros Hlen. unfold for_range. rewrite length_join.
  rewrite (sum_list_fmap_same k).
  - by rewrite length_fmap, length_seqZ.
  - apply Forall_fmap, Forall_forall. intros a _. apply Hlen.
Qed.

(** The three bytes of the pixel that turn [b] of the inner loop of turn
    [a] of the outer loop writes. *)
Lemma pixel_loop_lookup m n (f : Z → Z → Color) a b c :
  0 ≤ a < m → 0 ≤ b < n → (c < 3)%nat →
  for_range m (λ a, for_range n (λ b, bgr (f a b)))
    !! (Z.to_nat ((a * n + b) * 3) + c)%nat = bgr (f a b) !! c.
Proof.
  intros Ha Hb Hc.
  rewrite <- (for_range_lookup n (λ b, bgr (f a b)) 3 b c) by done.
  rewrite <- (for_range_lookup m (λ a, for_range n (λ b, bgr (f a b)))
                (Z.to_nat n * 3) a) ; [| |done|].
  - f_equal. nia.
  - intros i. by apply length_for_range.
  - nia.
Qed.

Lemma At_square n pix x y :
  0 ≤ x < n → 0 ≤ y < n →
  At (rgba_image (square n) pix) x y =
    let '(r, g, b, a) := pix x y in RGBA8 r g b a.
Proof.
  intros Hx Hy. unfold rgba_image, square, point_in. cbn [At MinX MinY MaxX MaxY].
  replace (0 <=? x) with true by (symmetry; apply Z.leb_le; lia).
  replace (x <? n) with true by (symmetry; apply Z.ltb_lt; lia).
  replace (0 <=? y) with true by (symmetry; apply Z.leb_le; lia).
  replace (y <? n) with true by (symmetry; apply Z.ltb_lt; lia).
  done.
Qed.

(** The pixel that a bitmap written by two nested loops stores at column
    [X] of its row [Y]. *)
Lemma stored_pixel_loops n (f : Z → Z → Color) X Y r g b a :
  0 < n < 2 ^ 32 → 0 ≤ X < n → 0 ≤ Y < n →
  f Y X = RGBA8 r g b a → pixel_bytes (r, g, b, a) →
  stored_pixel (bitmap_header n n
                ++ for_range n (λ a, for_range n (λ b, bgr (f a b)))) X Y
  = Some (r, g, b).
Proof.
  intros Hn HX HY Hf Hbytes. unfold stored_pixel.
  destruct (header_fields n n (for_range n (λ a, for_range n (λ b, bgr (f a b)))))
    as (Hoff & Hw & _); [lia..|].
  rewrite Hw, Hoff. cbn [mbind option_bind].
  replace (54 + (Y * n + X) * 3 + 1) with (54 + ((Y * n + X) * 3 + 1)) by lia.
  replace (54 + (Y * n + X) * 3 + 2) with (54 + ((Y * n + X) * 3 + 2)) by lia.
  rewrite !at_app_header by nia.
  replace (Z.to_nat ((Y * n + X) * 3)) with (Z.to_nat ((Y * n + X) * 3) + 0)%nat by lia.
  replace (Z.to_nat ((Y * n + X) * 3 + 1)) with (Z.to_nat ((Y * n + X) * 3) + 1)%nat by nia.
  replace (Z.to_nat ((Y * n + X) * 3 + 2)) with (Z.to_nat ((Y * n + X) * 3) + 2)%nat by nia.
  rewrite !pixel_loop_lookup by (done || lia).
  rewrite Hf, bgr_RGBA8 by done. done.
Qed.

Lemma decode_stored_order_makeBitmap n pix angle X Y :
  0 < n < 2 ^ 32 → (∀ x y, pixel_bytes (pix x y)) →
  angle = 0 ∨ angle = 90 ∨ angle = 180 ∨ angle = 270 →
  0 ≤ X < n → 0 ≤ Y < n →
  decode_stored_order (makeBitmap (rgba_image (square n) pix) angle) X Y
  = rotate_grid n angle (λ x y, Some (rgb_of (pix x y))) X Y.
Proof.
  intros Hn Hbytes Hangle HX HY.
  unfold decode_stored_order, makeBitmap.
  assert (Dx (Bounds (rgba_image (square n) pix)) = n) as ->
    by (unfold Dx; simpl; lia).
  assert (Dy (Bounds (rgba_image (square n) pix)) = n) as ->
    by (unfold Dy; simpl; lia).
  assert (∀ x y, 0 ≤ x < n → 0 ≤ y < n →
            ∃ r g b a, pix x y = (r, g, b, a) ∧ pixel_bytes (r, g, b, a) ∧
                       At (rgba_image (square n) pix) x y = RGBA8 r g b a) as Hat.
  { intros x y Hx Hy. specialize (Hbytes x y). rewrite At_square by done.
    destruct (pix x y) as [[[r g] b] a]. by exists r, g, b, a. }
  unfold rotate_grid, bitmap_pixels.
  destruct Hangle as [-> | [-> | [-> | ->]]];
    change (normalize_rotate _) with 0 || change (normalize_rotate _) with 90
    || change (normalize_rotate _) with 180 || change (normalize_rotate _) with 270;
    repeat (case_decide; try lia); cbv beta iota zeta.
  - destruct (Hat X Y) as (r & g & b & a & Hp & Hb & HA); [lia..|].
    rewrite (stored_pixel_loops n (λ y x, At _ x y) X Y r g b a) by done.
    by rewrite Hp.
  - destruct (Hat Y (n - 1 - X)) as (r & g & b & a & Hp & Hb & HA); [lia..|].
    rewrite (stored_pixel_loops n (λ x y, At _ x (n - y - 1)) X Y r g b a);
      [by rewrite Hp|done..| |done].
    cbv beta. rewrite <- HA. f_equal. lia.
  - destruct (Hat (n - 1 - X) (n - 1 - Y)) as (r & g & b & a & Hp & Hb & HA); [lia..|].
    rewrite (stored_pixel_loops n (λ y x, At _ (n - x - 1) (n - y - 1)) X Y r g b a);
      [by rewrite Hp|done..| |done].
    cbv beta. rewrite <- HA. f_equal; lia.
  - destruct (Hat (n - 1 - Y) X) as (r & g & b & a & Hp & Hb & HA); [lia..|].
    rewrite (stored_pixel_loops n (λ x y, At _ (n - x - 1) y) X Y r g b a);
      [by rewrite Hp|done..| |done].
    cbv beta. rewrite <- HA. f_equal. lia.
Qed.

(** The encoder samples [At] at coordinates counted from 0 and not from
    the corner of the picture's rectangle: on a white picture whose
    rectangle starts at (10, 10) the first stored pixel is the zero
    colour. *)
Lemma makeBitmap_samples_from_origin :
  Dx (Bounds shifted_white_button) = ButtonSize ∧
  decode_stored_order (makeBitmap shifted_white_button 0) 0 0 = Some (0, 0, 0) ∧
  decode_stored_order (makeBitmap shifted_white_button 0) 10 10
    = Some (255, 255, 255).
Proof. repeat split; vm_compute; reflexivity. Qed.

(** C1, as stated, does not hold: read bottom-up, as the header's
    positive height says, the bitmap of the gradient picture encoded
    with the angle 0 has at (0, 0) the pixel (0, 79, 0) of the bottom
    row, not the pixel (0, 0, 0) of the picture; the inverse of the
    rotation by 0 changes nothing. With the angle 270 that [FillImage]
    uses, the pixel that comes back at (0, 0) is (79, 0, 0). *)
Lemma bottom_up_round_trip_fails :
  rotate_grid ButtonSize (inverse_rotation 0)
    (decode_bottom_up (makeBitmap gradient_button 0)) 0 0 = Some (0, 79, 0)
  ∧ rotate_grid ButtonSize (inverse_rotation 0)
      (decode_bottom_up (makeBitmap gradient_button 0)) 0 0
    ≠ Some (rgb_of (gradient_pix 0 0))
  ∧ rotate_grid ButtonSize (inverse_rotation 270)
      (decode_bottom_up (makeBitmap gradient_button 270)) 0 0 = Some (79, 0, 0).
Proof.
  split; [vm_compute; reflexivity|].
  split; [vm_compute; discriminate|]. vm_compute; reflexivity.
Qed.

(** C1 (amended): for every 8-bit RGBA picture of [n] by [n] pixels
    whose rectangle starts at (0, 0) (the pictures of the size of a
    button among them) and each angle in 0, 90, 180, 270, reading the
    bitmap of [makeBitmap] with its rows taken in the order they are
    stored (the first stored row is the top row; three bytes per pixel,
    blue, green, red, after the 54-byte header) gives the picture turned
    clockwise by the angle, and turning it back by the inverse angle
    gives the red, green and blue bytes of every pixel of the picture. *)
Theorem makeBitmap_round_trip_stored_order n pix angle x y :
  0 < n < 2 ^ 32 → (∀ x y, pixel_bytes (pix x y)) →
  angle = 0 ∨ angle = 90 ∨ angle = 180 ∨ angle = 270 →
  0 ≤ x < n → 0 ≤ y < n →
  rotate_grid n (inverse_rotation angle)
    (decode_stored_order (makeBitmap (rgba_image (square n) pix) angle)) x y
  = Some (rgb_of (pix x y)).
Proof.
  intros Hn Hbytes Hangle Hx Hy.
  destruct Hangle as [-> | [-> | [-> | ->]]].
  - change (inverse_rotation 0) with 0. unfold rotate_grid at 1.
    rewrite decide_True by done.
    rewrite decode_stored_order_makeBitmap by (done || lia || auto).
    unfold rotate_grid. by rewrite decide_True.
  - change (inverse_rotation 90) with 270. unfold rotate_grid at 1.
    repeat (case_decide; try lia).
    rewrite decode_stored_order_makeBitmap by (done || lia || auto).
    unfold rotate_grid. repeat (case_decide; try lia).
    do 3 f_equal; lia.
  - change (inverse_rotation 180) with 180. unfold rotate_grid at 1.
    repeat (case_decide; try lia).
    rewrite decode_stored_order_makeBitmap by (done || lia || auto).
    unfold rotate_grid. repeat (case_decide; try lia).
    do 3 f_equal; lia.
  - change (inverse_rotation 270) with 90. unfold rotate_grid at 1.
    repeat (case_decide; try lia).
    rewrite decode_stored_order_makeBitmap by (done || lia || auto).
    unfold rotate_grid. repeat (case_decide; try lia).
    do 3 f_equal; lia.
Qed.

(** The gradient picture, with the angle [FillImage] uses. *)
Lemma makeBitmap_round_trip_stored_order_witness :
  rotate_grid ButtonSize (inverse_rotation 270)
    (decode_stored_order (makeBitmap gradient_button 270)) 3 5
  = Some (rgb_of (gradient_pix 3 5)).
Proof.
  apply (makeBitmap_round_trip_stored_order ButtonSize gradient_pix 270 3 5).
  - unfold ButtonSize. lia.
  - intros x y. unfold gradient_pix, pixel_bytes.
    pose proof (Z.mod_pos_bound x 256). pose proof (Z.mod_pos_bound y 256). lia.
  - right. right. right. reflexivity.
  - unfold ButtonSize. lia.
  - unfold ButtonSize. lia.
Defined.

(** * Further properties of the code *)

(** ** The encoder: sizes, angles and the header *)

Lemma add360_id fuel rotate : 0 ≤ rotate → add360 fuel rotate = rotate.
Proof.
  intros H. destruct fuel as [|fuel]; [done|]. simpl.
  by replace (rotate <? 0) with false by (symmetry; apply Z.ltb_ge; lia).
Qed.

Lemma add360_mod fuel : ∀ rotate,
  rotate < 0 → - rotate ≤ Z.of_nat fuel → add360 fuel rotate = rotate mod 360.
Proof.
  induction fuel as [|fuel IH]; intros rotate Hneg Hfuel; [lia|].
  simpl. replace (rotate <? 0) with true by (symmetry; apply Z.ltb_lt; lia).
  destruct (decide (rotate + 360 < 0)) as [Hlt|Hge].
  - rewrite IH by lia.
    rewrite <- (Z.mod_add rotate 1 360) by lia. f_equal; lia.
  - rewrite add360_id by lia.
    rewrite <- (Z.mod_add rotate 1 360) by lia.
    rewrite Z.mod_small; lia.
Qed.

Lemma normalize_rotate_spec rotate :
  normalize_rotate rotate = if decide (rotate < 0) then rotate mod 360 else rotate.
Proof.
  unfold normalize_rotate. case_decide.
  - apply add360_mod; lia.
  - apply add360_id. lia.
Qed.

Lemma length_bitmap_pixels img rotate w h :
  rotate = 0 ∨ rotate = 90 ∨ rotate = 180 ∨ rotate = 270 →
  0 ≤ w → 0 ≤ h →
  length (bitmap_pixels img rotate w h) = Z.to_nat (w * h * 3).
Proof.
  intros Hr Hw Hh. unfold bitmap_pixels.
  destruct Hr as [-> | [-> | [-> | ->]]]; repeat (case_decide; try lia).
  - rewrite (length_for_range h _ (Z.to_nat w * 3));
      [nia|intros; by apply length_for_range].
  - rewrite (length_for_range w _ (Z.to_nat h * 3));
      [nia|intros; by apply length_for_range].
  - rewrite (length_for_range h _ (Z.to_nat w * 3));
      [nia|intros; by apply length_for_range].
  - rewrite (length_for_range w _ (Z.to_nat h * 3));
      [nia|intros; by apply length_for_range].
Qed.

Lemma length_makeBitmap img angle :
  angle = 0 ∨ angle = 90 ∨ angle = 180 ∨ angle = 270 →
  0 ≤ Dx (Bounds img) → 0 ≤ Dy (Bounds img) →
  len (makeBitmap img angle) = 54 + Dx (Bounds img) * Dy (Bounds img) * 3.
Proof.
  intros Ha Hw Hh. unfold makeBitmap.
  assert (normalize_rotate angle = angle) as ->
    by (rewrite normalize_rotate_spec; apply decide_False; lia).
  unfold len.
  destruct (decide (angle = 90 ∨ angle = 270));
    rewrite length_app, length_bitmap_header, length_bitmap_pixels by done;
    rewrite Nat2Z.inj_add, Z2Nat.id by nia; nia.
Qed.

(** X1 ([makeBitmap]).  For each of the four angles the encoder has a
    pixel loop for (0, 90, 180, 270), the bitmap is the 54 bytes of the
    header followed by three bytes for every pixel of the picture: its
    length is [54 + Dx * Dy * 3]. *)
Theorem makeBitmap_length img angle :
  angle = 0 ∨ angle = 90 ∨ angle = 180 ∨ angle = 270 →
  0 ≤ Dx (Bounds img) → 0 ≤ Dy (Bounds img) →
  len (makeBitmap img angle) = 54 + Dx (Bounds img) * Dy (Bounds img) * 3.
Proof. apply length_makeBitmap. Qed.

(** X2 ([makeBitmap], the loop [for rotate < 0]).  A negative angle is
    raised by 360 until it is no longer negative, so the bitmap is the
    one of [angle mod 360]. *)
Theorem makeBitmap_negative_angle img angle :
  angle < 0 → makeBitmap img angle = makeBitmap img (angle mod 360).
Proof.
  intros Hneg. unfold makeBitmap.
  assert (normalize_rotate (angle mod 360) = normalize_rotate angle) as ->; [|done].
  rewrite !normalize_rotate_spec.
  rewrite (decide_True (P := angle < 0)) by done.
  apply decide_False. pose proof (Z.mod_pos_bound angle 360). lia.
Qed.

(** X3 ([makeBitmap], the two [switch rotate]).  For an angle that is
    not negative and is none of 0, 90, 180 and 270 (360 is one), no
    pixel loop runs: the encoder returns the header alone, 54 bytes,
    although the header's picture-size field still announces
    [Dx * Dy * 3] bytes of pixels. *)
Theorem makeBitmap_other_angle img angle :
  0 ≤ angle → angle ≠ 0 → angle ≠ 90 → angle ≠ 180 → angle ≠ 270 →
  makeBitmap img angle = bitmap_header (Dx (Bounds img)) (Dy (Bounds img))
  ∧ length (makeBitmap img angle) = 54%nat
  ∧ le32_decode (makeBitmap img angle) 34
    = Some (uint32 (Dx (Bounds img) * Dy (Bounds img) * 3)).
Proof.
  intros H0 H1 H2 H3 H4.
  assert (makeBitmap img angle = bitmap_header (Dx (Bounds img)) (Dy (Bounds img))) as E.
  { unfold makeBitmap.
    assert (normalize_rotate angle = angle) as ->
      by (rewrite normalize_rotate_spec; apply decide_False; lia).
    rewrite decide_False by lia. unfold bitmap_pixels.
    rewrite !decide_False by done. apply app_nil_r. }
  rewrite E. split; [done|]. split; [done|].
  erewrite (le32_decode_lookup _ 34); [|lia|reflexivity..].
  f_equal.
  apply le32_decode_encode. unfold uint32. apply Z.mod_pos_bound. lia.
Qed.

(** X4 ([makeBitmap], the header).  For the four angles and a picture
    whose file size fits 32 bits, the bitmap starts with the signature
    [BM]; the file-size field holds the length of the bitmap, the
    offset field 54; the width and height fields hold the picture's
    width and height, exchanged for 90 and 270 degrees. *)
Theorem makeBitmap_header img angle :
  angle = 0 ∨ angle = 90 ∨ angle = 180 ∨ angle = 270 →
  0 ≤ Dx (Bounds img) < 2 ^ 32 → 0 ≤ Dy (Bounds img) < 2 ^ 32 →
  54 + Dx (Bounds img) * Dy (Bounds img) * 3 < 2 ^ 32 →
  let bs := makeBitmap img angle in
  let turned := bool_decide (angle = 90 ∨ angle = 270) in
  take 2 bs = [66; 77] ∧
  le32_decode bs 2 = Some (len bs) ∧
  le32_decode bs 10 = Some 54 ∧
  le32_decode bs 18 = Some (if turned then Dy (Bounds img) else Dx (Bounds img)) ∧
  le32_decode bs 22 = Some (if turned then Dx (Bounds img) else Dy (Bounds img)).
Proof.
  intros Ha Hw Hh Hsize bs turned.
  pose proof (length_makeBitmap img angle Ha ltac:(lia) ltac:(lia)) as Hlen.
  fold bs in Hlen. rewrite Hlen. subst bs turned. unfold makeBitmap.
  assert (normalize_rotate angle = angle) as ->
    by (rewrite normalize_rotate_spec; apply decide_False; lia).
  set (W := Dx (Bounds img)) in *. set (H := Dy (Bounds img)) in *.
  assert (∀ w h px, 0 ≤ w → 0 ≤ h → 54 + w * h * 3 < 2 ^ 32 →
            le32_decode (bitmap_header w h ++ px) 2 = Some (54 + w * h * 3)) as Hfile.
  { intros w h px Hw' Hh' Hs.
    erewrite (le32_decode_lookup _ 2); [|lia|reflexivity..].
    f_equal. replace (w * h * 3 + 54) with (54 + w * h * 3) by lia.
    replace (uint32 (54 + w * h * 3)) with (54 + w * h * 3)
      by (symmetry; apply Z.mod_small; nia).
    apply le32_decode_encode. nia. }
  destruct (decide (angle = 90 ∨ angle = 270)) as [Ht|Ht].
  - rewrite bool_decide_eq_true_2 by done.
    destruct (header_fields H W (bitmap_pixels img angle H W)) as (? & ? & ?); [lia..|].
    repeat split; try done.
    rewrite Hfile by nia. f_equal. lia.
  - rewrite bool_decide_eq_false_2 by done.
    destruct (header_fields W H (bitmap_pixels img angle W H)) as (? & ? & ?); [lia..|].
    repeat split; try done.
    by rewrite Hfile by nia.
Qed.

(** The colour the encoder finds at [(x, y)] of an RGBA picture: the
    pixel when the point lies in the picture's rectangle, and the zero
    colour when it does not. *)
Lemma At_rgba_image r pix x y :
  At (rgba_image r pix) x y =
    if point_in x y r then let '(cr, cg, cb, ca) := pix x y in RGBA8 cr cg cb ca
    else RGBA8 0 0 0 0.
Proof. reflexivity. Qed.

(** X5 ([makeBitmap], the calls [img.At]).  The encoder reads the
    points [0, n) x [0, n) of the plane, wherever the rectangle of the
    picture lies: for a square RGBA picture of side [n], the pixel
    decoded at [(X, Y)] is the one of the turned grid of those points,
    where a point outside the picture's rectangle counts as black. *)
Theorem makeBitmap_ignores_origin r pix n angle X Y :
  Dx r = n → Dy r = n → 0 < n < 2 ^ 32 →
  (∀ x y, pixel_bytes (pix x y)) →
  angle = 0 ∨ angle = 90 ∨ angle = 180 ∨ angle = 270 →
  0 ≤ X < n → 0 ≤ Y < n →
  decode_stored_order (makeBitmap (rgba_image r pix) angle) X Y
  = rotate_grid n angle
      (λ x y, Some (if point_in x y r then rgb_of (pix x y) else (0, 0, 0))) X Y.
Proof.
  intros HDx HDy Hn Hbytes Hangle HX HY.
  unfold decode_stored_order, makeBitmap.
  change (Bounds (rgba_image r pix)) with r. rewrite HDx, HDy.
  assert (∀ x y, ∃ cr cg cb ca,
            (if point_in x y r then rgb_of (pix x y) else (0, 0, 0)) = (cr, cg, cb) ∧
            pixel_bytes (cr, cg, cb, ca) ∧
            At (rgba_image r pix) x y = RGBA8 cr cg cb ca) as Hat.
  { intros x y. rewrite At_rgba_image. specialize (Hbytes x y).
    destruct (point_in x y r).
    - destruct (pix x y) as [[[cr cg] cb] ca]. by exists cr, cg, cb, ca.
    - exists 0, 0, 0, 0. repeat split; try done; lia. }
  unfold rotate_grid, bitmap_pixels.
  destruct Hangle as [-> | [-> | [-> | ->]]];
    change (normalize_rotate _) with 0 || change (normalize_rotate _) with 90
    || change (normalize_rotate _) with 180 || change (normalize_rotate _) with 270;
    repeat (case_decide; try lia); cbv beta iota zeta.
  - destruct (Hat X Y) as (cr & cg & cb & ca & Hp & Hb & HA).
    rewrite (stored_pixel_loops n (λ y x, At _ x y) X Y cr cg cb ca) by done.
    by rewrite Hp.
  - destruct (Hat Y (n - 1 - X)) as (cr & cg & cb & ca & Hp & Hb & HA).
    rewrite (stored_pixel_loops n (λ x y, At _ x (n - y - 1)) X Y cr cg cb ca);
      [by rewrite Hp|done..| |done].
    cbv beta. rewrite <- HA. f_equal. lia.
  - destruct (Hat (n - 1 - X) (n - 1 - Y)) as (cr & cg & cb & ca & Hp & Hb & HA).
    rewrite (stored_pixel_loops n (λ y x, At _ (n - x - 1) (n - y - 1)) X Y cr cg cb ca);
      [by rewrite Hp|done..| |done].
    cbv beta. rewrite <- HA. f_equal; lia.
  - destruct (Hat (n - 1 - Y) X) as (cr & cg & cb & ca & Hp & Hb & HA).
    rewrite (stored_pixel_loops n (λ x y, At _ (n - x - 1) y) X Y cr cg cb ca);
      [by rewrite Hp|done..| |done].
    cbv beta. rewrite <- HA. f_equal. lia.
Qed.

(** ** The writer and the fill operations: outcomes and sizes *)

(** However the transport answers, the loop ends by returning [nil] or
    by the panic, having written a first part of its frames. *)
Lemma writeBitmap_loop_outcome fuel : ∀ out page buf h,
  (16 < length out)%nat → (length buf < fuel)%nat →
  ∃ k, (k ≤ length (frames_loop fuel out page buf))%nat ∧
    (writeBitmap_loop fuel out page buf h).2 =
       after h (Write <$> take k (frames_loop fuel out page buf)) ∧
    ((writeBitmap_loop fuel out page buf h).1 = Done None
       ∧ k = length (frames_loop fuel out page buf)
     ∨ ∃ e, (writeBitmap_loop fuel out page buf h).1
              = Panicked ("failed to setreport: " +:+ e)
            ∧ script h (length (trace h) + pred k) = Some e ∧ (0 < k)%nat).
Proof.
  induction fuel as [|fuel IH]; intros out page buf h Hout Hfuel; [lia|].
  rewrite writeBitmap_loop_step by lia.
  cbn [frames_loop]. cbv zeta.
  pose proof (length_next_frame out page buf ltac:(lia)) as Hlen.
  set (f := next_frame out page buf) in *.
  destruct (script h (length (trace h))) as [e|] eqn:Hs.
  { exists 1%nat. split; [case_decide; simpl; lia|].
    split; [by case_decide|]. right. exists e.
    simpl. rewrite Nat.add_0_r. repeat split; [done|lia]. }
  destruct (decide (len buf ≤ len f - 16)) as [Hle|Hgt].
  { exists 1%nat. split; [simpl; lia|]. split; [done|]. by left. }
  destruct (IH f (byte_of (page + 1)) (drop (Z.to_nat (len f - 16)) buf)
              (after h [Write f])) as (k & Hk & Htr & Hres).
  { lia. }
  { rewrite length_drop. unfold len in *. lia. }
  exists (S k). split; [simpl; lia|].
  split; [by rewrite Htr, after_after|].
  destruct Hres as [[Hd ->]|(e & He & Hsc & Hpos)].
  - left. by split.
  - right. exists e. split; [done|]. split; [|lia].
    rewrite script_after, length_trace_after in Hsc. simpl in Hsc.
    rewrite <- Hsc. f_equal. lia.
Qed.

Lemma writeBitmap_run sd key buf h :
  ∃ k, (k ≤ length (frames key buf))%nat ∧
    (writeBitmap sd key buf h).2 = after h (Write <$> take k (frames key buf)) ∧
    ((writeBitmap sd key buf h).1 = Done None ∧ k = length (frames key buf)
     ∨ ∃ e, (writeBitmap sd key buf h).1 = Panicked ("failed to setreport: " +:+ e)
            ∧ script h (length (trace h) + pred k) = Some e ∧ (0 < k)%nat).
Proof.
  rewrite writeBitmap_unfold.
  apply writeBitmap_loop_outcome; [rewrite length_first_out; lia|lia].
Qed.

(** X6 ([writeBitmap]).  Whatever the device answers, the writer ends,
    and in one of two ways: it returns [nil] after writing every frame
    of the bitmap, or it panics with [failed to setreport: ] and the
    error of the write that failed, having issued the writes of the
    frames up to and including that one.  It never returns an error,
    and it issues nothing but writes of the bitmap's frames, in their
    order. *)
Theorem writeBitmap_outcomes sd key buf h :
  ∃ k, (k ≤ length (frames key buf))%nat ∧
    (writeBitmap sd key buf h).2 = after h (Write <$> take k (frames key buf)) ∧
    ((writeBitmap sd key buf h).1 = Done None ∧ k = length (frames key buf)
     ∨ ∃ e, (writeBitmap sd key buf h).1 = Panicked ("failed to setreport: " +:+ e)
            ∧ script h (length (trace h) + pred k) = Some e ∧ (0 < k)%nat).
Proof. apply writeBitmap_run. Qed.

(** X7 ([FillImage]).  The only error [FillImage] ever returns is
    [invalid key index], it returns it exactly for an index below 0 or
    above 15, and then nothing has been sent to the device. *)
Theorem FillImage_error_iff sd idx img h e h' :
  FillImage sd idx img h = (Done (Some e), h') ↔
  (idx < 0 ∨ 15 < idx) ∧ e = "invalid key index" ∧ h' = h.
Proof.
  split.
  - intros Hrun. destruct (decide (idx < 0 ∨ 15 < idx)) as [Hbad|Hgood].
    + rewrite FillImage_rejects in Hrun by done. by inversion Hrun.
    + exfalso. unfold FillImage in Hrun.
      rewrite checkValidKeyIndex_accepts in Hrun by lia.
      destruct (writeBitmap_run sd (byte_of idx) (makeBitmap img 270) h)
        as (k & _ & _ & [[Hd _]|(e' & Hp & _)]).
      * rewrite Hrun in Hd. discriminate.
      * rewrite Hrun in Hp. discriminate.
  - intros (Hbad & -> & ->). by apply FillImage_rejects.
Qed.

(** X8 ([writeBitmap], the frame loop).  On a device that accepts
    every write, a bitmap of [n] bytes goes out in [max 1 (ceil (n / 1008))]
    frames (an empty bitmap still sends one).  In every frame but the
    last, the 1008 bytes after the 16 bytes of the header are the bytes
    of the bitmap from [1008 * i] on, [i] being the number of the frame;
    in the last frame the bytes after the header start with all that is
    left of the bitmap. *)
Theorem frames_count_and_packing sd key buf h :
  (∀ n, script h n = None) →
  ∃ fs, writeBitmap sd key buf h = (Done None, after h (Write <$> fs)) ∧
    Z.of_nat (length fs) = Z.max 1 ((len buf + 1007) / 1008) ∧
    (∀ i f, fs !! i = Some f → (S i < length fs)%nat →
       drop 16 f = take 1008 (drop (1008 * i) buf)) ∧
    (∀ f, last fs = Some f →
       take (length buf - 1008 * pred (length fs)) (drop 16 f)
       = drop (1008 * pred (length fs)) buf).
Proof.
  intros Hs.
  pose proof (length_first_out key) as Hout.
  assert (length buf < S (length buf))%nat as Hfuel by lia.
  pose proof (frames_loop_count _ _ 0 buf Hout Hfuel) as Hcount.
  pose proof (frames_loop_length_frames _ _ 0 buf Hout Hfuel) as Hlens.
  destruct (frames_loop_payload _ _ 0 buf Hout Hfuel) as (_ & Hpay & _).
  fold (frames key buf) in Hcount, Hlens, Hpay.
  exists (frames key buf).
  split; [apply writeBitmap_ok, succeed_all, Hs|].
  remember (length (frames key buf)) as m eqn:Hm.
  assert (0 < m)%nat as Hm0 by (apply Hcount; lia).
  assert (m = 1%nat ∨ 1008 * (m - 1) < length buf)%nat as Hlow
    by (pose proof (proj1 (Hcount (m - 1)%nat)); lia).
  assert (length buf ≤ 1008 * m)%nat as Hhigh
    by (pose proof (proj2 (Hcount m)); lia).
  split; [|split].
  - unfold len.
    pose proof (Z.div_mod (Z.of_nat (length buf) + 1007) 1008 ltac:(lia)).
    pose proof (Z.mod_pos_bound (Z.of_nat (length buf) + 1007) 1008 ltac:(lia)).
    lia.
  - intros i f Hi Hnext.
    assert (1008 * S i < length buf)%nat as Hfull
      by (pose proof (proj1 (Hcount (S i))); lia).
    assert (length f = 1024%nat) as Hlen
      by (eapply (proj1 (Forall_lookup _ _) Hlens); done).
    apply list_eq. intros j. rewrite lookup_drop.
    destruct (decide (j < 1008)%nat) as [Hj|Hj].
    + rewrite lookup_take_lt, lookup_drop by done.
      apply (Hpay i f j Hi). unfold payload_len, len, chunk. lia.
    + rewrite lookup_take_ge by lia. apply lookup_ge_None_2. lia.
  - intros f Hlast. rewrite last_lookup, <- Hm in Hlast.
    replace (pred m) with (m - 1)%nat in * by lia.
    apply list_eq. intros j. rewrite lookup_drop.
    destruct (decide (j < length buf - 1008 * (m - 1))%nat) as [Hj|Hj].
    + rewrite lookup_take_lt, lookup_drop by done.
      apply (Hpay (m - 1)%nat f j Hlast). unfold payload_len, len, chunk. lia.
    + rewrite lookup_take_ge by lia. symmetry. apply lookup_ge_None_2. lia.
Qed.

Lemma checkRGB_None v : checkRGB v = None ↔ 0 ≤ v ≤ 255.
Proof. unfold checkRGB. case_decide; split; (done || lia). Qed.

Lemma checkRGB_Some v : ¬ (0 ≤ v ≤ 255) → checkRGB v = Some "invalid color range".
Proof. intros. unfold checkRGB. rewrite decide_True; [done|lia]. Qed.

(** X9 ([FillColor], [checkRGB]).  When one of the three colour
    values lies outside 0..255, [FillColor] returns
    [invalid color range] and sends nothing, whatever the button index
    is: the colour is checked before the index. *)
Theorem FillColor_rejects_colour sd idx r g b h :
  ¬ (0 ≤ r ≤ 255 ∧ 0 ≤ g ≤ 255 ∧ 0 ≤ b ≤ 255) →
  FillColor sd idx r g b h = (Done (Some "invalid color range"), h).
Proof.
  intros Hbad. unfold FillColor.
  destruct (decide (0 ≤ r ≤ 255)) as [Hr|Hr]; [|by rewrite checkRGB_Some].
  rewrite (proj2 (checkRGB_None r) Hr).
  destruct (decide (0 ≤ g ≤ 255)) as [Hg|Hg]; [|by rewrite checkRGB_Some].
  rewrite (proj2 (checkRGB_None g) Hg).
  rewrite checkRGB_Some; [done|]. tauto.
Qed.

Lemma rotate_grid_const {A} n angle (c : option A) X Y :
  angle = 0 ∨ angle = 90 ∨ angle = 180 ∨ angle = 270 →
  rotate_grid n angle (λ _ _, c) X Y = c.
Proof.
  intros Ha. unfold rotate_grid.
  destruct Ha as [-> | [-> | [-> | ->]]]; by repeat (case_decide; try lia).
Qed.

(** X10 ([FillColor] with [makeBitmap] and [writeBitmap]).  For a
    valid index and colour on a device that accepts every write,
    [FillColor] sends 20 frames, each with the button number
    [idx + 1] in byte 5; their payloads, put together, are a bitmap of
    19254 bytes in which every pixel of the 80 x 80 button decodes to
    the colour asked for. *)
Theorem FillColor_round_trip sd idx r g b h :
  0 ≤ idx ≤ 15 → 0 ≤ r ≤ 255 → 0 ≤ g ≤ 255 → 0 ≤ b ≤ 255 →
  (∀ n, script h n = None) →
  ∃ fs, FillColor sd idx r g b h = (Done None, after h (Write <$> fs)) ∧
    length fs = 20%nat ∧
    (∀ f, f ∈ fs → f !! 5%nat = Some (idx + 1)) ∧
    len (payloads 19254 fs) = 19254 ∧
    ∀ x y, 0 ≤ x < ButtonSize → 0 ≤ y < ButtonSize →
      decode_stored_order (payloads 19254 fs) x y = Some (r, g, b).
Proof.
  intros Hidx Hr Hg Hb Hs.
  set (bs := makeBitmap (uniform_button r g b) 270).
  assert (len bs = 19254) as Hlen.
  { unfold bs. rewrite length_makeBitmap by (vm_compute; (auto || discriminate)).
    reflexivity. }
  assert (FillColor sd idx r g b = writeBitmap sd (byte_of idx) bs) as ->.
  { unfold FillColor, FillImage.
    rewrite (proj2 (checkRGB_None r) Hr), (proj2 (checkRGB_None g) Hg),
      (proj2 (checkRGB_None b) Hb).
    by rewrite checkValidKeyIndex_accepts. }
  pose proof (length_first_out (byte_of idx)) as Hout.
  assert (length bs < S (length bs))%nat as Hfuel by lia.
  pose proof (frames_loop_payloads _ _ 0 bs Hout Hfuel) as Hpay.
  pose proof (frames_loop_count _ _ 0 bs Hout Hfuel) as Hcount.
  pose proof (frames_loop_header _ _ 0 bs Hout Hfuel) as Hhead.
  fold (frames (byte_of idx) bs) in Hpay, Hcount, Hhead.
  rewrite Hlen in Hpay.
  exists (frames (byte_of idx) bs).
  split; [apply writeBitmap_ok, succeed_all, Hs|].
  assert (Z.of_nat (length bs) = 19254) as Hlen' by exact Hlen.
  split.
  { assert (19 < length (frames (byte_of idx) bs))%nat by (apply Hcount; lia).
    assert (¬ (20 < length (frames (byte_of idx) bs))%nat) by (rewrite Hcount; lia).
    lia. }
  split.
  { intros f Hf. apply list_elem_of_lookup in Hf as [i Hi].
    rewrite (Hhead i f 5%nat Hi) by lia.
    rewrite lookup_first_out. simpl.
    unfold byte_of. rewrite (Z.mod_small idx) by lia.
    by rewrite Z.mod_small by lia. }
  rewrite Hpay. split; [done|].
  intros x y Hx Hy. unfold bs, uniform_button.
  change {| MinX := 0; MinY := 0; MaxX := ButtonSize; MaxY := ButtonSize |}
    with (square ButtonSize).
  rewrite decode_stored_order_makeBitmap;
    [| unfold ButtonSize; lia | | auto | done..].
  - rewrite rotate_grid_const by auto. unfold rgb_of, byte_of.
    by rewrite !Z.mod_small by lia.
  - intros x' y'. unfold pixel_bytes, byte_of.
    pose proof (Z.mod_pos_bound r 256). pose proof (Z.mod_pos_bound g 256).
    pose proof (Z.mod_pos_bound b 256). lia.
Qed.

(** ** The poller: states and notifications *)

Lemma read_buttons_cons cb i b data st :
  (i < length st)%nat →
  read_buttons cb i (b :: data) st =
    ((read_buttons cb (S i) data (<[i := itob b]> st)).1,
     match notification_for cb st i b with
     | Some n => n :: (read_buttons cb (S i) data (<[i := itob b]> st)).2
     | None => (read_buttons cb (S i) data (<[i := itob b]> st)).2
     end).
Proof.
  intros Hi. cbn [read_buttons]. rewrite decide_False by lia.
  unfold notification_for.
  destruct (decide (st !! i ≠ Some (itob b))) as [Hne|Heq].
  - destruct (read_buttons cb (S i) data (<[i:=itob b]> st)) as [st' ns].
    destruct cb as [f|]; [|done].
    by rewrite decide_True by done.
  - assert (st !! i = Some (itob b)) as Hi'
      by (destruct (decide (st !! i = Some (itob b))); [done|by exfalso; apply Heq]).
    rewrite (list_insert_id st i (itob b)) by done.
    destruct (read_buttons cb (S i) data st) as [st' ns].
    destruct cb as [f|]; [|done].
    rewrite decide_False; [done|]. intros [_ H]. by apply H.
Qed.

Lemma read_buttons_break cb i data st :
  (length st ≤ i)%nat → read_buttons cb i data st = (st, []).
Proof. intros Hi. destruct data; [done|]. cbn [read_buttons]. by rewrite decide_True. Qed.

Lemma read_buttons_state cb data : ∀ i st j,
  (read_buttons cb i data st).1 !! j =
    if decide ((i ≤ j < length st)%nat ∧ (j - i < length data)%nat)
    then itob <$> data !! (j - i)%nat else st !! j.
Proof.
  induction data as [|b data IH]; intros i st j.
  { simpl. rewrite decide_False; [done|]. simpl. lia. }
  destruct (decide (length st ≤ i)%nat) as [Hbrk|Hin].
  { rewrite read_buttons_break by done. rewrite decide_False; [done|]. lia. }
  rewrite read_buttons_cons by lia. cbn [fst].
  rewrite IH, length_insert. cbn [length].
  destruct (decide (j = i)) as [->|Hji].
  - rewrite decide_False by lia. rewrite decide_True by lia.
    rewrite Nat.sub_diag. simpl. apply list_lookup_insert_eq. lia.
  - rewrite list_lookup_insert_ne by done.
    destruct (decide ((S i ≤ j < length st)%nat ∧ (j - S i < length data)%nat)).
    + rewrite decide_True by lia.
      replace (j - i)%nat with (S (j - S i)) by lia. done.
    + rewrite decide_False by lia. done.
Qed.

Lemma notifications_from_insert cb st i x data : ∀ k,
  (i < k)%nat →
  notifications_from cb (<[i := x]> st) k data = notifications_from cb st k data.
Proof.
  induction data as [|b data IH]; intros k Hk; [done|].
  cbn [notifications_from]. rewrite IH by lia.
  unfold notification_for. rewrite length_insert.
  by rewrite list_lookup_insert_ne by lia.
Qed.

Lemma notifications_from_break cb st data : ∀ i,
  (length st ≤ i)%nat → notifications_from cb st i data = [].
Proof.
  induction data as [|b data IH]; intros i Hi; [done|].
  cbn [notifications_from]. rewrite IH by lia.
  unfold notification_for. destruct cb; [|done].
  rewrite decide_False; [done|]. lia.
Qed.

Lemma read_buttons_notifications cb data : ∀ i st,
  (read_buttons cb i data st).2 = notifications_from cb st i data.
Proof.
  induction data as [|b data IH]; intros i st; [done|].
  destruct (decide (length st ≤ i)%nat) as [Hbrk|Hin].
  { rewrite read_buttons_break by done. by rewrite notifications_from_break. }
  rewrite read_buttons_cons by lia. cbn [snd notifications_from].
  rewrite IH, notifications_from_insert by lia. done.
Qed.

Lemma read_report_run sd data :
  ∃ sd',
    read_iteration sd (ReadOk (1 :: data))
      = Done (sd', notifications_from (btnEventCb sd) (btnState sd) 0 data) ∧
    btnEventCb sd' = btnEventCb sd ∧ info sd' = info sd ∧
    length (btnState sd') = length (btnState sd) ∧
    ∀ j, btnState sd' !! j =
           if decide ((j < length (btnState sd))%nat ∧ (j < length data)%nat)
           then itob <$> data !! j else btnState sd !! j.
Proof.
  rewrite read_iteration_report, read_buttons_notifications.
  eexists. split; [reflexivity|].
  cbn [btnEventCb info btnState]. split; [done|]. split; [done|].
  assert (∀ j, (read_buttons (btnEventCb sd) 0 data (btnState sd)).1 !! j =
            if decide ((j < length (btnState sd))%nat ∧ (j < length data)%nat)
            then itob <$> data !! j else btnState sd !! j) as Hst.
  { intros j. rewrite read_buttons_state, Nat.sub_0_r.
    destruct (decide ((j < length (btnState sd))%nat ∧ (j < length data)%nat)).
    - by rewrite decide_True by lia.
    - by rewrite decide_False by lia. }
  split; [|done].
  destruct (decide (length (read_buttons (btnEventCb sd) 0 data (btnState sd)).1
                    = length (btnState sd))) as [|Hne]; [done|].
  exfalso.
  set (st' := (read_buttons (btnEventCb sd) 0 data (btnState sd)).1) in *.
  destruct (decide (length st' < length (btnState sd))%nat).
  - pose proof (Hst (length st')) as H.
    rewrite (lookup_ge_None_2 st') in H by lia.
    case_decide as Hc.
    + destruct Hc as [_ Hc]. apply lookup_lt_is_Some_2 in Hc as [b Hb].
      by rewrite Hb in H.
    + symmetry in H. apply lookup_ge_None_1 in H. lia.
  - pose proof (Hst (length (btnState sd))) as H.
    rewrite decide_False in H by lia.
    rewrite (lookup_ge_None_2 (btnState sd)) in H by lia.
    apply lookup_ge_None_1 in H. lia.
Qed.

(** X11 ([read], one report; [itob]).  A report whose first byte is 1
    never fails.  It leaves the callback, the device description and
    the number of stored states as they were; the state of button [j]
    becomes [itob] of byte [j] of the report for every button the
    report has a byte for, and is kept for the others. *)
Theorem read_report_state sd data :
  ∃ sd' ns,
    read_iteration sd (ReadOk (1 :: data)) = Done (sd', ns) ∧
    btnEventCb sd' = btnEventCb sd ∧ info sd' = info sd ∧
    length (btnState sd') = length (btnState sd) ∧
    ∀ j, btnState sd' !! j =
           if decide ((j < length (btnState sd))%nat ∧ (j < length data)%nat)
           then itob <$> data !! j else btnState sd !! j.
Proof.
  destruct (read_report_run sd data) as (sd' & Hrun & H).
  by exists sd', (notifications_from (btnEventCb sd) (btnState sd) 0 data).
Qed.

(** X12 ([read], one report).  The callbacks a report starts are, in
    the order of the buttons, one for every button that has a stored
    state and whose byte gives a state other than the stored one, with
    the button's index and its new state; without a callback set, none
    is started. *)
Theorem read_report_notifications sd data :
  ∃ sd', read_iteration sd (ReadOk (1 :: data))
         = Done (sd', notifications_from (btnEventCb sd) (btnState sd) 0 data).
Proof.
  destruct (read_report_run sd data) as (sd' & Hrun & _). by exists sd'.
Qed.

Lemma read_buttons_app cb extra data : ∀ i st,
  (length st ≤ i + length data)%nat →
  read_buttons cb i (data ++ extra) st = read_buttons cb i data st.
Proof.
  induction data as [|b data IH]; intros i st Hlen.
  { simpl in *. rewrite read_buttons_break by lia. done. }
  destruct (decide (length st ≤ i)%nat) as [Hbrk|Hin].
  { rewrite !read_buttons_break by done. done. }
  change ((b :: data) ++ extra) with (b :: (data ++ extra)).
  rewrite !read_buttons_cons by lia.
  rewrite IH by (rewrite length_insert; simpl in Hlen; lia). done.
Qed.

(** X13 ([read], the [break] at [len(sd.btnState)]).  Bytes of a
    report beyond the number of stored button states are ignored: a
    report with more state bytes than buttons has the effect of the
    report cut to the buttons. *)
Theorem read_ignores_extra_bytes sd data extra :
  (length (btnState sd) ≤ length data)%nat →
  read_iteration sd (ReadOk (1 :: data ++ extra))
  = read_iteration sd (ReadOk (1 :: data)).
Proof.
  intros Hlen. rewrite !read_iteration_report.
  by rewrite read_buttons_app by lia.
Qed.

(** X14 ([read], [itob]).  Only the pattern of zero and non-zero bytes
    counts: after a report, a second report with the same pattern
    (whatever its non-zero values are) changes no state and starts no
    callback. *)
Theorem read_same_pattern sd data1 data2 :
  itob <$> data1 = itob <$> data2 →
  ∃ sd1 ns1,
    read_iteration sd (ReadOk (1 :: data1)) = Done (sd1, ns1) ∧
    read_iteration sd1 (ReadOk (1 :: data2)) = Done (sd1, []).
Proof.
  intros Hpat. rewrite read_iteration_report.
  eexists _, _. split; [reflexivity|].
  rewrite read_iteration_report. cbn [btnEventCb btnState info].
  rewrite read_buttons_same; [done|].
  intros k b s Hb Hs. rewrite Nat.add_0_l in Hs.
  rewrite read_buttons_state, Nat.sub_0_r in Hs.
  assert (itob <$> data1 !! k = Some (itob b)) as H1.
  { rewrite <- list_lookup_fmap, Hpat, list_lookup_fmap. by rewrite Hb. }
  case_decide as Hc.
  - rewrite H1 in Hs. by inversion Hs.
  - exfalso. apply Hc.
    destruct (data1 !! k) as [b1|] eqn:Hk1; [|done].
    apply lookup_lt_Some in Hk1, Hs. lia.
Qed.

Lemma read_cons sd r rs :
  read sd (r :: rs) =
    match read_iteration sd r with
    | Done (sd', ns) =>
      match read sd' rs with
      | Done (sd'', ns') => Done (sd'', ns ++ ns')
      | Panicked msg => Panicked msg
      | OutOfFuel => OutOfFuel
      end
    | Panicked msg => Panicked msg
    | OutOfFuel => OutOfFuel
    end.
Proof. reflexivity. Qed.

Lemma notifications_from_elem cb st data n : ∀ i,
  n ∈ notifications_from cb st i data →
  cb = Some (n_cb n) ∧ Z.of_nat i ≤ n_index n < len st.
Proof.
  induction data as [|b data IH]; intros i Hn.
  { by apply elem_of_nil in Hn. }
  cbn [notifications_from] in Hn.
  assert (n ∈ notifications_from cb st (S i) data →
          cb = Some (n_cb n) ∧ Z.of_nat i ≤ n_index n < len st) as Hrec.
  { intros H. apply IH in H as [? ?]. split; [done|lia]. }
  unfold notification_for in Hn. destruct cb as [f|]; [|by apply Hrec].
  case_decide as Hc; [|by apply Hrec].
  apply elem_of_cons in Hn as [->|Hn]; [|by apply Hrec].
  simpl. unfold len. split; [done|]. lia.
Qed.

Ltac nothing_started :=
  repeat (split; [done|]); intros ? Hn; by apply elem_of_nil in Hn.

(** X15 ([read], over any sequence of answers of the device).  While
    no answer is an empty report, the poller goes on: read errors and
    reports of another kind are passed over, the number of stored
    states, the callback and the device description never change, and
    every callback started is the one that was set, for an index of a
    stored state.  An empty report, wherever it comes, stops the poller
    with the panic of the index expression [data[0]]. *)
Theorem read_run_invariants rs : ∀ sd,
  (Forall (λ r, r ≠ ReadOk []) rs →
     ∃ sd' ns, read sd rs = Done (sd', ns) ∧
       length (btnState sd') = length (btnState sd) ∧
       btnEventCb sd' = btnEventCb sd ∧ info sd' = info sd ∧
       ∀ n, n ∈ ns →
         btnEventCb sd = Some (n_cb n) ∧ 0 ≤ n_index n < len (btnState sd))
  ∧ (Exists (λ r, r = ReadOk []) rs →
     read sd rs = Panicked "runtime error: index out of range [0] with length 0").
Proof.
  induction rs as [|r rs IH]; intros sd.
  { split.
    - intros _. exists sd, []. nothing_started.
    - intros H. by apply Exists_nil in H. }
  rewrite read_cons.
  assert (r = ReadOk [] ∨
          ∃ sd1 ns1, read_iteration sd r = Done (sd1, ns1) ∧
            length (btnState sd1) = length (btnState sd) ∧
            btnEventCb sd1 = btnEventCb sd ∧ info sd1 = info sd ∧
            ∀ n, n ∈ ns1 →
              btnEventCb sd = Some (n_cb n) ∧ 0 ≤ n_index n < len (btnState sd))
    as [->|(sd1 & ns1 & Hit & Hl1 & Hc1 & Hi1 & Hn1)].
  { destruct r as [e|[|d0 data]]; [right|by left|right].
    - exists sd, []. nothing_started.
    - destruct (decide (d0 = 1)) as [->|Hd].
      + destruct (read_report_run sd data) as (sd1 & Hit & Hc & Hi & Hl & _).
        exists sd1, (notifications_from (btnEventCb sd) (btnState sd) 0 data).
        repeat (split; [done|]).
        intros n Hn. apply notifications_from_elem in Hn as [? ?]. split; [done|lia].
      + exists sd, []. rewrite read_iteration_skipped by done. nothing_started. }
  { split; [|done]. intros H. apply Forall_cons in H as [H _]. done. }
  rewrite Hit. destruct (IH sd1) as [IHok IHbad]. split.
  - intros H. apply Forall_cons in H as [_ H].
    destruct (IHok H) as (sd' & ns & Hrun & Hl & Hc & Hi & Hn).
    rewrite Hrun. exists sd', (ns1 ++ ns).
    split; [done|]. split; [congruence|]. split; [congruence|]. split; [congruence|].
    intros n Hin. apply elem_of_app in Hin as [Hin|Hin]; [by apply Hn1|].
    destruct (Hn n Hin) as [Hcb Hidx]. unfold len in *. rewrite <- Hc1, <- Hl1. done.
  - intros H. apply Exists_cons in H as [->|H].
    + simpl in Hit. discriminate.
    + by rewrite (IHbad H).
Qed.

(** ** Opening: which device, and when nothing is done *)

Lemma filter_first {A} (P : A → Prop) `{∀ x, Decision (P x)} l d rest :
  filter P l = d :: rest →
  ∃ pre post, l = pre ++ d :: post ∧ Forall (λ x, ¬ P x) pre ∧ P d
              ∧ rest = filter P post.
Proof.
  induction l as [|a l IH]; intros Hf; [done|].
  rewrite filter_cons in Hf. destruct (decide (P a)) as [Ha|Ha].
  - inversion Hf; subst. by exists [], l.
  - destruct (IH Hf) as (pre & post & -> & Hpre & Hd & Hrest).
    exists (a :: pre), post. repeat split; try done. by constructor.
Qed.

Lemma filter_skip {A} (P : A → Prop) `{∀ x, Decision (P x)} pre d post :
  Forall (λ x, ¬ P x) pre → P d →
  filter P (pre ++ d :: post) = d :: filter P post.
Proof.
  intros Hpre Hd. induction Hpre as [|a pre Ha _ IH]; simpl.
  - by rewrite filter_cons_True.
  - by rewrite filter_cons_False.
Qed.

Lemma find_info_product product :
  Exists (λ sd, ProductID sd = product) streamdeckDevices →
  ProductID (find_info product streamdeckDevices legacy_device) = product.
Proof.
  intros Hex. unfold streamdeckDevices in *. cbn [find_info].
  repeat case_decide; try done.
  exfalso. repeat (apply Exists_cons in Hex as [Hex|Hex]; [done|]).
  by apply Exists_nil in Hex.
Qed.

Lemma ClearBtn_trace sd i h :
  ∃ fs, (ClearBtn sd i h).2 = after h (Write <$> fs).
Proof.
  unfold ClearBtn. destruct (checkValidKeyIndex i) eqn:Hidx.
  { exists []. by rewrite after_nil. }
  unfold FillColor. change (checkRGB 0) with (@None error). cbv iota.
  unfold FillImage. rewrite Hidx.
  destruct (writeBitmap_run sd (byte_of i)
              (makeBitmap (uniform_button 0 0 0) 270) h) as (k & _ & Htr & _).
  eexists. exact Htr.
Qed.

Lemma clear_all_trace sd : ∀ l h,
  ∃ fs, (mfold (λ _ i, let! _ := ClearBtn sd i in ret ()) () l h).2
        = after h (Write <$> fs).
Proof.
  induction l as [|i l IH]; intros h.
  { exists []. by rewrite after_nil. }
  cbn [mfold]. destruct (ClearBtn_trace sd i h) as (fs1 & H1).
  unfold bind at 1 2.
  destruct (ClearBtn sd i h) as [[r| |] h1]; simpl in H1; subst h1.
  - destruct (IH (after h (Write <$> fs1))) as (fs2 & H2).
    exists (fs1 ++ fs2). unfold ret at 1. rewrite H2, after_after.
    by rewrite fmap_app.
  - by exists fs1.
  - by exists fs1.
Qed.

(** X16 ([NewStreamDeck], the three early returns).  With more than
    one serial number, with no supported device on the bus, or when
    opening the first supported device fails, [NewStreamDeck] returns no
    session and the error, and nothing has been sent to any device. *)
Theorem NewStreamDeck_refuses serial usb h :
  (len serial > 1 →
     NewStreamDeck serial usb h =
       (Done (None, Some "only <= 1 serial numbers must be provided"), h)) ∧
  (len serial ≤ 1 → Forall (λ d, supported d ≠ true) usb →
     NewStreamDeck serial usb h =
       (Done (None, Some "no stream deck device found"), h)) ∧
  (∀ pre d post e, len serial ≤ 1 → usb = pre ++ d :: post →
     Forall (λ d, supported d ≠ true) pre → supported d = true →
     usb_open d = Some e →
     NewStreamDeck serial usb h = (Done (None, Some e), h)).
Proof.
  split; [|split].
  - intros Hs. unfold NewStreamDeck. by rewrite decide_True.
  - intros Hs Hno. unfold NewStreamDeck. rewrite decide_False by lia.
    replace (filter (λ d, supported d = true) usb) with (@nil UsbDevice); [done|].
    symmetry. induction Hno as [|d l Hd _ IH]; [done|].
    by rewrite filter_cons_False.
  - intros pre d post e Hs -> Hpre Hd Hopen. unfold NewStreamDeck.
    rewrite decide_False by lia.
    rewrite (filter_skip (λ d, supported d = true)) by done.
    by rewrite Hopen.
Qed.

(** X17 ([NewStreamDeck], the selection by serial number that is
    commented out).  A serial number that is given plays no part: the
    call does exactly what it does without one. *)
Theorem NewStreamDeck_ignores_serial s usb h :
  NewStreamDeck [s] usb h = NewStreamDeck [] usb h.
Proof.
  unfold NewStreamDeck.
  rewrite !decide_False by (unfold len; simpl; lia). done.
Qed.

(** X18 ([NewStreamDeck], success).  Whenever a session is returned,
    no error comes with it; the session is for the first supported
    device of the bus, which opened; its description is the catalog's
    entry for the product of that device; no callback is set and the
    15 stored states are [BtnReleased]; and the device has been sent, in
    this order, the reset report, the brightness report for 100, only
    frames, and then the poller was started. *)
Theorem NewStreamDeck_session serial usb h sd err h' :
  NewStreamDeck serial usb h = (Done (Some sd, err), h') →
  err = None ∧
  ∃ pre d post fs,
    usb = pre ++ d :: post ∧
    Forall (λ d, supported d ≠ true) pre ∧ supported d = true ∧
    usb_open d = None ∧
    info sd ∈ streamdeckDevices ∧ ProductID (info sd) = usb_product d ∧
    btnEventCb sd = None ∧ btnState sd = replicate 15 BtnReleased ∧
    h' = after h ([SetFeatureReport 0 reset_payload;
                   SetFeatureReport 0 (brightness_payload 100)]
                  ++ (Write <$> fs) ++ [GoRead]) ∧
    script h (length (trace h)) = None.
Proof.
  intros Hrun. unfold NewStreamDeck in Hrun.
  case_decide as Hserial; [by inversion Hrun|].
  destruct (filter (λ d, supported d = true) usb) as [|d rest] eqn:Hfilter;
    [by inversion Hrun|].
  destruct (usb_open d) as [e|] eqn:Hopen; [by inversion Hrun|].
  cbv zeta in Hrun.
  set (sdinfo := find_info (usb_product d) streamdeckDevices legacy_device) in *.
  change {| btnEventCb := _; btnState := _; info := _ |}
    with (session_of sdinfo) in Hrun.
  rewrite (bind_done _ _ h _ _ (Reset_run _ h)) in Hrun.
  destruct (script h (length (trace h))) as [e|] eqn:Hreset; [by inversion Hrun|].
  rewrite (bind_done _ _ _ _ _ (SetBrightness_run _ 100 _)) in Hrun.
  rewrite after_after in Hrun.
  set (h2 := after h _) in Hrun.
  unfold bind at 1 in Hrun.
  destruct (clear_all_trace (session_of sdinfo)
              (reverse (seqZ 0 (ButtonCount (session_of sdinfo)))) h2) as (fs & Hacts).
  fold (ClearAllBtns (session_of sdinfo)) in Hacts.
  destruct (ClearAllBtns (session_of sdinfo) h2) as [[[]| |] h3] eqn:Hclear;
    [|by inversion Hrun..].
  rewrite (bind_done _ _ _ _ _ (go_read_run _)) in Hrun.
  unfold ret in Hrun. inversion Hrun; subst sd err h'. clear Hrun.
  split; [done|].
  destruct (filter_first _ _ _ _ Hfilter) as (pre & post & -> & Hpre & Hd & _).
  exists pre, d, post, fs. simpl in Hacts. subst h3.
  repeat split; try done.
  - apply find_info_catalog.
  - apply find_info_product.
    unfold supported in Hd. apply andb_true_iff in Hd as [_ Hd].
    by apply bool_decide_eq_true in Hd.
  - unfold h2. by rewrite !after_after, <- app_assoc.
Qed.

(** ** The panel fill *)

Lemma button_rect_facts row col :
  0 ≤ row < NumButtonRows → 0 ≤ col < NumButtonColumns →
  Dx (button_rect row col) = ButtonSize - 1 ∧
  Dy (button_rect row col) = ButtonSize - 1 ∧
  rect_intersect (button_rect row col) panel_rect = button_rect row col ∧
  ∀ row' col', 0 ≤ row' < NumButtonRows → 0 ≤ col' < NumButtonColumns →
    (row', col') ≠ (row, col) →
    ∀ x y, point_in x y (button_rect row col) = true →
           point_in x y (button_rect row' col') = false.
Proof.
  unfold NumButtonRows, NumButtonColumns. intros Hrow Hcol.
  split; [unfold Dx, button_rect, PanelWidth, NumButtonColumns, ButtonSize, Spacer;
          simpl; lia|].
  split; [unfold Dy, button_rect, ButtonSize, Spacer; simpl; lia|].
  split.
  - unfold rect_intersect, rect_empty, button_rect, panel_rect, PanelWidth, PanelHeight,
      NumButtonColumns, NumButtonRows, ButtonSize, Spacer.
    cbn [MinX MinY MaxX MaxY].
    rewrite !Z.max_l, !Z.min_l by lia.
    rewrite orb_false_intro; [done| |]; apply Z.leb_gt; lia.
  - intros row' col' Hrow' Hcol' Hne x y Hin.
    unfold point_in, button_rect, PanelWidth, NumButtonColumns, ButtonSize, Spacer in *.
    cbn [MinX MinY MaxX MaxY] in *.
    apply andb_true_iff in Hin as [Hin Hy2]. apply andb_true_iff in Hin as [Hin Hy1].
    apply andb_true_iff in Hin as [Hx1 Hx2].
    apply Z.leb_le in Hx1, Hy1. apply Z.ltb_lt in Hx2, Hy2.
    apply not_true_is_false. intros Hin'.
    apply andb_true_iff in Hin' as [Hin' Hy2']. apply andb_true_iff in Hin' as [Hin' Hy1'].
    apply andb_true_iff in Hin' as [Hx1' Hx2'].
    apply Z.leb_le in Hx1', Hy1'. apply Z.ltb_lt in Hx2', Hy2'.
    apply Hne. f_equal; lia.
Qed.

(** X19 ([FillPanel], the rectangle of a button).  The rectangle cut
    out for a button of the 3 x 5 grid is 79 points wide and high, one
    less than [ButtonSize]; it lies inside the panel of 476 x 278
    points; and the rectangles of two different buttons share no
    point. *)
Theorem button_rect_geometry row col :
  0 ≤ row < NumButtonRows → 0 ≤ col < NumButtonColumns →
  Dx (button_rect row col) = ButtonSize - 1 ∧
  Dy (button_rect row col) = ButtonSize - 1 ∧
  rect_intersect (button_rect row col) panel_rect = button_rect row col ∧
  ∀ row' col', 0 ≤ row' < NumButtonRows → 0 ≤ col' < NumButtonColumns →
    (row', col') ≠ (row, col) →
    ∀ x y, point_in x y (button_rect row col) = true →
           point_in x y (button_rect row' col') = false.
Proof. apply button_rect_facts. Qed.

Lemma cell_bitmap_unfold img row col :
  Bounds img = panel_rect →
  0 ≤ row < NumButtonRows → 0 ≤ col < NumButtonColumns →
  cell_bitmap img row col =
    bitmap_header 79 79
    ++ for_range 79 (λ x, for_range 79 (λ y,
         bgr (At (SubImage img (button_rect row col)) (79 - x - 1) y))).
Proof.
  intros Hb Hrow Hcol.
  destruct (button_rect_facts row col Hrow Hcol) as (HDx & HDy & Hint & _).
  unfold cell_bitmap, makeBitmap.
  change (normalize_rotate 270) with 270.
  change (Bounds (SubImage img (button_rect row col)))
    with (rect_intersect (button_rect row col) (Bounds img)).
  rewrite Hb, Hint, HDx, HDy. change (ButtonSize - 1) with 79.
  rewrite decide_True by (by right). unfold bitmap_pixels.
  by repeat (case_decide; try lia).
Qed.

Lemma At_SubImage img r x y :
  At (SubImage img r) x y =
    if point_in x y (rect_intersect r (Bounds img)) then At img x y
    else RGBA8 0 0 0 0.
Proof. reflexivity. Qed.

(** X20 ([FillPanel] with [SubImage] and [makeBitmap]).  The bitmap
    made for a button of a panel-sized picture holds the picture's
    pixels for one button only, the one at row 0, column 4, whose
    rectangle starts at the origin: there the pixel decoded at [(X, Y)]
    is the picture's pixel at [(78 - Y, X)].  For each of the 14 other
    buttons every decoded pixel is black, whatever the picture is,
    because the encoder reads the points from the origin on and these
    lie outside the button's rectangle. *)
Theorem panel_cells_sample_the_corner :
  (∀ img row col X Y,
     Bounds img = panel_rect →
     0 ≤ row < NumButtonRows → 0 ≤ col < NumButtonColumns →
     (row, col) ≠ (0, 4) →
     0 ≤ X < 79 → 0 ≤ Y < 79 →
     decode_stored_order (cell_bitmap img row col) X Y = Some (0, 0, 0))
  ∧ (∀ pix X Y,
     (∀ x y, pixel_bytes (pix x y)) →
     0 ≤ X < 79 → 0 ≤ Y < 79 →
     decode_stored_order (cell_bitmap (rgba_image panel_rect pix) 0 4) X Y
     = Some (rgb_of (pix (78 - Y) X))).
Proof.
  split.
  - intros img row col X Y Hb Hrow Hcol Hne HX HY.
    rewrite cell_bitmap_unfold by done. unfold decode_stored_order.
    apply (stored_pixel_loops 79 _ X Y 0 0 0 0); [lia|done|done| |unfold pixel_bytes; lia].
    cbv beta. rewrite At_SubImage.
    destruct (button_rect_facts row col Hrow Hcol) as (_ & _ & Hint & _).
    rewrite Hb, Hint.
    replace (point_in (79 - Y - 1) X (button_rect row col)) with false; [done|].
    symmetry. apply not_true_is_false. intros Hin.
    unfold point_in, button_rect, PanelWidth, NumButtonColumns, NumButtonRows,
      ButtonSize, Spacer in *.
    cbn [MinX MinY MaxX MaxY] in *.
    apply andb_true_iff in Hin as [Hin Hy2]. apply andb_true_iff in Hin as [Hin Hy1].
    apply andb_true_iff in Hin as [Hx1 Hx2].
    apply Z.leb_le in Hx1, Hy1. apply Z.ltb_lt in Hx2, Hy2.
    apply Hne. f_equal; lia.
  - intros pix X Y Hbytes HX HY.
    assert (0 ≤ 0 < NumButtonRows) as Hrow by (unfold NumButtonRows; lia).
    assert (0 ≤ 4 < NumButtonColumns) as Hcol by (unfold NumButtonColumns; lia).
    rewrite cell_bitmap_unfold by done. unfold decode_stored_order.
    specialize (Hbytes (78 - Y) X).
    destruct (pix (78 - Y) X) as [[[r g] b] a] eqn:Hp.
    apply (stored_pixel_loops 79 _ X Y r g b a); [lia|done|done| |done].
    cbv beta. rewrite At_SubImage.
    destruct (button_rect_facts 0 4 Hrow Hcol) as (_ & _ & Hint & _).
    change (Bounds (rgba_image panel_rect pix)) with panel_rect. rewrite Hint.
    replace (79 - Y - 1) with (78 - Y) by lia.
    replace (point_in (78 - Y) X (button_rect 0 4)) with true.
    + rewrite At_rgba_image.
      replace (point_in (78 - Y) X panel_rect) with true; [by rewrite Hp|].
      symmetry. unfold point_in, panel_rect, PanelWidth, PanelHeight,
        NumButtonColumns, NumButtonRows, ButtonSize, Spacer.
      cbn [MinX MinY MaxX MaxY].
      repeat (apply andb_true_intro; split);
        (apply Z.leb_le || apply Z.ltb_lt); lia.
    + symmetry. unfold point_in, button_rect, PanelWidth,
        NumButtonColumns, ButtonSize, Spacer.
      cbn [MinX MinY MaxX MaxY].
      repeat (apply andb_true_intro; split);
        (apply Z.leb_le || apply Z.ltb_lt); lia.
Qed.

Lemma FillImage_ok sd idx img h :
  0 ≤ idx ≤ 15 → (∀ n, script h n = None) →
  FillImage sd idx img h =
    (Done None, after h (Write <$> frames (byte_of idx) (makeBitmap img 270))).
Proof.
  intros Hidx Hs. unfold FillImage. rewrite checkValidKeyIndex_accepts by done.
  apply writeBitmap_ok, succeed_all, Hs.
Qed.

Section PanelRun.
Variable gift_bounds_resize : Rectangle → Z → Z → Rectangle.
Variable gift_draw_resize : Image → Z → Z → Z → Z → Z * Z * Z * Z.
Variable gift_bounds_crop : Rectangle → Z → Z → Rectangle.
Variable gift_draw_crop : Image → Z → Z → Z → Z → Z * Z * Z * Z.
Variable scaled_height : Z → Z → Z.

Lemma fill_row sd img row : ∀ cols counter h,
  img_type img = TyRGBA → 0 ≤ counter → counter + len cols ≤ 16 →
  (∀ n, script h n = None) →
  mfold (λ counter col,
      let! rgba := assert_RGBA img in
      let! _ := FillImage sd counter (SubImage rgba (button_rect row col)) in
      ret (counter + 1)) counter cols h
  = (Done (counter + len cols), after h (Write <$> row_frames img row counter cols)).
Proof.
  induction cols as [|col cols IH]; intros counter h Hty Hc Hlen Hs.
  { cbn [mfold row_frames]. unfold ret, len. simpl.
    by rewrite Z.add_0_r, after_nil. }
  cbn [mfold row_frames]. unfold len in *. cbn [length] in *.
  rewrite (bind_done _ _ h (counter + 1)
             (after h (Write <$> frames (byte_of counter) (cell_bitmap img row col)))).
  - rewrite IH; [|done|lia|lia|done].
    rewrite after_after, fmap_app. do 2 f_equal. lia.
  - rewrite (bind_done _ _ h img h);
      [|unfold assert_RGBA; by rewrite decide_True].
    rewrite (bind_done _ _ h None
               (after h (Write <$> frames (byte_of counter) (cell_bitmap img row col))));
      [done|].
    apply FillImage_ok; [lia|done].
Qed.

(** X21 ([FillPanel], a picture that needs no resizing).  For an RGBA
    picture as wide as the panel and not higher, on a device that
    accepts every write, [FillPanel] returns [nil] after sending the
    frames of the 15 buttons row after row, the button at [row], [col]
    as button number [5 * row + col], and nothing else. *)
Theorem FillPanel_sends_fifteen sd img h :
  img_type img = TyRGBA →
  Dx (Bounds img) = PanelWidth → Dy (Bounds img) ≤ PanelHeight →
  (∀ n, script h n = None) →
  FillPanel gift_bounds_resize gift_draw_resize gift_bounds_crop gift_draw_crop
            scaled_height sd img h
  = (Done None, after h (Write <$> panel_frames img)).
Proof.
  intros Hty Hw Hh Hs. unfold FillPanel.
  destruct (decide (Dx (Bounds img) ≠ PanelWidth)) as [Hne|_]; [done|].
  rewrite decide_False by lia.
  replace (seqZ 0 NumButtonRows) with [0; 1; 2] by reflexivity.
  replace (seqZ 0 NumButtonColumns) with [0; 1; 2; 3; 4] by reflexivity.
  cbn [mfold].
  set (body := λ row counter col,
      let! rgba := assert_RGBA img in
      let! _ := FillImage sd counter (SubImage rgba (button_rect row col)) in
      ret (counter + 1)).
  assert (∀ row counter h, 0 ≤ counter ≤ 11 → (∀ n, script h n = None) →
            mfold (body row) counter [0; 1; 2; 3; 4] h =
            (Done (counter + 5),
             after h (Write <$> row_frames img row counter [0; 1; 2; 3; 4]))) as Hrow.
  { intros row counter h0 Hc Hs0.
    apply (fill_row sd img row [0; 1; 2; 3; 4] counter h0); try done; try lia.
    unfold len. simpl. lia. }
  erewrite bind_done; last first.
  { erewrite bind_done; [|by apply (Hrow 0 0)].
    erewrite bind_done; [|by apply (Hrow 1 (0 + 5))].
    erewrite bind_done; [|by apply (Hrow 2 (0 + 5 + 5))].
    reflexivity. }
  unfold ret, panel_frames. rewrite !after_after, !fmap_app. done.
Qed.
End PanelRun.

(** ** Widgets: what is drawn and when nothing is sent *)

Lemma led_textParams_None text :
  led_textParams text = None ↔ ¬ (1 ≤ String.length text ≤ 5)%nat.
Proof.
  unfold led_textParams.
  destruct (String.length text) as [|[|[|[|[|[|n]]]]]]; split; (done || lia).
Qed.

Lemma label_textParams_None text :
  label_textParams text = None ↔ ¬ (1 ≤ String.length text ≤ 5)%nat.
Proof.
  unfold label_textParams.
  destruct (String.length text) as [|[|[|[|[|[|n]]]]]]; split; (done || lia).
Qed.

Lemma FillImage_square_ok sd idx size pix h :
  0 ≤ idx ≤ 15 → 0 ≤ size → (∀ n, script h n = None) →
  ∃ bs, len bs = 54 + size * size * 3 ∧
    FillImage sd idx (rgba_image (square size) pix) h
    = (Done None, after h (Write <$> frames (byte_of idx) bs)).
Proof.
  intros Hidx Hsize Hs.
  exists (makeBitmap (rgba_image (square size) pix) 270). split.
  - rewrite length_makeBitmap; [|auto|..];
      change (Bounds (rgba_image (square size) pix)) with (square size);
      unfold Dx, Dy, square; simpl; lia.
  - by apply FillImage_ok.
Qed.

Section WidgetProperties.
Variable freetype_DrawString :
  string → textParams → Color → Image → (Z → Z → Z * Z * Z * Z) * option error.
Variables ledOff ledGreen ledYellow ledRed : Image.
Variables Font float64 : Type.
Variable freetype_DrawLine :
  TextLine Font float64 → Image → (Z → Z → Z * Z * Z * Z) * option error.

#[local] Abbreviation Draw := (LedButton_Draw freetype_DrawString ledOff ledGreen ledYellow ledRed).
#[local] Abbreviation SetState := (LedButton_SetState freetype_DrawString ledOff ledGreen ledYellow ledRed).
#[local] Abbreviation SetText := (LedButton_SetText freetype_DrawString ledOff ledGreen ledYellow ledRed).
#[local] Abbreviation addLED := (LedButton_addLED ledOff ledGreen ledYellow ledRed).

Lemma Bounds_addLED btn color img : Bounds (addLED btn color img) = Bounds img.
Proof.
  unfold LedButton_addLED. destruct (negb (lb_state btn)); [done|].
  by destruct color.
Qed.

(** X22 ([LedButton.Draw], [addText], [SetState], [NewLedButton]).
    A text of no or of more than five bytes makes [Draw] return
    [text line contains more than 5 characters], and an error of the
    text renderer is returned as it is; in both cases nothing is sent.
    Since a new button has the empty text, [SetState] on a button just
    made by [NewLedButton] without options sets the state and returns
    that error. *)
Theorem LedButton_Draw_refuses :
  (∀ btn h, ¬ (1 ≤ String.length (lb_text btn) ≤ 5)%nat →
     Draw btn h = (Done (Some "text line contains more than 5 characters"), h))
  ∧ (∀ btn h p e,
       led_textParams (lb_text btn) = Some p →
       (freetype_DrawString (lb_text btn) p (lb_textColor btn)
          (addLED btn (lb_ledColor btn)
             (new_rgba (dev_ButtonSize (info (lb_streamDeck btn)))))).2 = Some e →
       Draw btn h = (Done (Some e), h))
  ∧ (∀ sd id state h,
       ∃ btn, NewLedButton (Some sd) id [] = (Some btn, None) ∧
         lb_state (SetState btn state).1 = state ∧
         (SetState btn state).2 h
         = (Done (Some "text line contains more than 5 characters"), h)).
Proof.
  assert (∀ btn h, ¬ (1 ≤ String.length (lb_text btn) ≤ 5)%nat →
     Draw btn h = (Done (Some "text line contains more than 5 characters"), h)) as H1.
  { intros btn h Hlen. unfold LedButton_Draw, LedButton_addText.
    by rewrite (proj2 (led_textParams_None _) Hlen). }
  split; [exact H1|]. split.
  - intros btn h p e Hp He. unfold LedButton_Draw, LedButton_addText.
    rewrite Hp. cbv zeta.
    destruct (freetype_DrawString _ _ _ _) as [pix err]. simpl in He. by subst err.
  - intros sd id state h. eexists. split; [reflexivity|]. split; [done|].
    apply H1. simpl. lia.
Qed.

(** X23 ([LedButton.Draw] with [FillImage]).  When the text has one to
    five bytes and the renderer succeeds, [Draw] ends as [FillImage]
    does: [invalid key index] and nothing sent for an identifier
    outside 0..15; otherwise, on a device that accepts every write, the
    frames of a bitmap of [54 + size * size * 3] bytes for the button,
    [size] being the button size of the session's device. *)
Theorem LedButton_Draw_sends btn h p :
  led_textParams (lb_text btn) = Some p →
  (freetype_DrawString (lb_text btn) p (lb_textColor btn)
     (addLED btn (lb_ledColor btn)
        (new_rgba (dev_ButtonSize (info (lb_streamDeck btn)))))).2 = None →
  0 ≤ dev_ButtonSize (info (lb_streamDeck btn)) →
  (lb_id btn < 0 ∨ 15 < lb_id btn →
     Draw btn h = (Done (Some "invalid key index"), h))
  ∧ (0 ≤ lb_id btn ≤ 15 → (∀ n, script h n = None) →
     ∃ bs,
       len bs = 54 + dev_ButtonSize (info (lb_streamDeck btn))
                     * dev_ButtonSize (info (lb_streamDeck btn)) * 3 ∧
       Draw btn h = (Done None, after h (Write <$> frames (byte_of (lb_id btn)) bs))).
Proof.
  intros Hp Hok Hsize. unfold LedButton_Draw, LedButton_addText.
  rewrite Hp. cbv zeta.
  destruct (freetype_DrawString _ _ _ _) as [pix err]. simpl in Hok. subst err.
  rewrite Bounds_addLED. change (Bounds (new_rgba ?s)) with (square s).
  split.
  - intros Hbad. by apply FillImage_rejects.
  - intros Hidx Hs. by apply FillImage_square_ok.
Qed.

(** X24 ([LedButton.Change]).  After any sequence of button events
    the LED state is the first one, inverted once for every
    [BtnPressed] of the sequence: it differs from the first state
    exactly when the number of presses is odd.  Releases change
    nothing, and text, identifier, colour and session are never
    touched. *)
Theorem LedButton_Change_parity evs : ∀ btn,
  let btn' := foldl LedButton_Change btn evs in
  lb_state btn' = xorb (lb_state btn)
                    (Nat.odd (length (filter (λ e, e = BtnPressed) evs))) ∧
  lb_text btn' = lb_text btn ∧ lb_id btn' = lb_id btn ∧
  lb_ledColor btn' = lb_ledColor btn ∧ lb_streamDeck btn' = lb_streamDeck btn.
Proof.
  induction evs as [|e evs IH]; intros btn; cbn [foldl].
  { simpl. by destruct (lb_state btn). }
  destruct (IH (LedButton_Change btn e)) as (Hst & Htx & Hid & Hcol & Hsd).
  cbv zeta. rewrite Hst, Htx, Hid, Hcol, Hsd.
  unfold LedButton_Change. destruct (decide (e = BtnPressed)) as [->|Hne].
  - rewrite filter_cons_True by done. cbn [length lb_state lb_text lb_id
      lb_ledColor lb_streamDeck].
    rewrite Nat.odd_succ, <- Nat.negb_odd.
    repeat split. by destruct (lb_state btn), (Nat.odd _).
  - by rewrite filter_cons_False by done.
Qed.

(** X25 ([Label.Draw], [addText], [NewLabel]).  A label whose text
    has no or more than five bytes is not drawn: [Draw] returns
    [text line contains more than 5 characters] and sends nothing;
    this is the case of a label just made by [NewLabel] without
    options.  With a text of one to five bytes, a renderer that
    succeeds, a valid identifier and a device that accepts every write,
    [Draw] sends the frames of a bitmap of [54 + size * size * 3] bytes
    for the button. *)
Theorem Label_Draw_outcomes :
  (∀ l h, ¬ (1 ≤ String.length (l_text l) ≤ 5)%nat →
     Label_Draw freetype_DrawString l h
     = (Done (Some "text line contains more than 5 characters"), h))
  ∧ (∀ sd id h,
       ∃ l, NewLabel sd id [] = (Some l, None) ∧
         Label_Draw freetype_DrawString l h
         = (Done (Some "text line contains more than 5 characters"), h))
  ∧ (∀ l h p,
       label_textParams (l_text l) = Some p →
       (freetype_DrawString (l_text l) p (l_textColor l)
          (draw_uniform (new_rgba (dev_ButtonSize (info (l_streamDeck l))))
             (l_bgColor l))).2 = None →
       0 ≤ dev_ButtonSize (info (l_streamDeck l)) →
       0 ≤ l_id l ≤ 15 → (∀ n, script h n = None) →
       ∃ bs,
         len bs = 54 + dev_ButtonSize (info (l_streamDeck l))
                       * dev_ButtonSize (info (l_streamDeck l)) * 3 ∧
         Label_Draw freetype_DrawString l h
         = (Done None, after h (Write <$> frames (byte_of (l_id l)) bs))).
Proof.
  assert (∀ l h, ¬ (1 ≤ String.length (l_text l) ≤ 5)%nat →
     Label_Draw freetype_DrawString l h
     = (Done (Some "text line contains more than 5 characters"), h)) as H1.
  { intros l h Hlen. unfold Label_Draw, Label_addText.
    by rewrite (proj2 (label_textParams_None _) Hlen). }
  split; [exact H1|]. split.
  - intros sd id h. eexists. split; [reflexivity|]. apply H1. simpl. lia.
  - intros l h p Hp Hok Hsize Hidx Hs. unfold Label_Draw, Label_addText.
    rewrite Hp. cbv zeta.
    destruct (freetype_DrawString _ _ _ _) as [pix err]. simpl in Hok. subst err.
    change (Bounds (draw_uniform (new_rgba ?s) ?c)) with (square s).
    by apply FillImage_square_ok.
Qed.

(** X26 ([Label.Change], [SetBgColor]).  After any sequence of button
    events, a further event sets the background to the colour of that
    event alone ([{0, 0, 153, 0}] for a press, [{0, 0, 0, 255}]
    otherwise), and hands the callback, when there is one, the
    label's identifier and the event; the stored state, the text, the
    identifier and the callback are those of the start. *)
Theorem Label_Change_sequence evs e l :
  let before := foldl (λ l e, (Label_Change l e).1) l evs in
  let l' := (Label_Change before e).1 in
  l_bgColor l' = (if decide (e = BtnPressed) then RGBA8 0 0 153 0 else RGBA8 0 0 0 255) ∧
  l_state l' = l_state l ∧ l_text l' = l_text l ∧ l_id l' = l_id l ∧
  l_cb l' = l_cb l ∧
  (Label_Change before e).2 = (λ f, (f, l_id l, e)) <$> l_cb l.
Proof.
  cbv zeta.
  assert (∀ evs l, let l0 := foldl (λ l e, (Label_Change l e).1) l evs in
            l_state l0 = l_state l ∧ l_text l0 = l_text l ∧ l_id l0 = l_id l ∧
            l_cb l0 = l_cb l) as Hkeep.
  { clear. induction evs as [|e evs IH]; intros l; [done|].
    cbn [foldl]. cbv zeta. destruct (IH (Label_Change l e).1) as (-> & -> & -> & ->).
    done. }
  destruct (Hkeep evs l) as (Hst & Htx & Hid & Hcb).
  set (before := foldl _ l evs) in *.
  unfold Label_Change. cbn [fst snd Label_SetBgColor l_bgColor l_state l_text l_id l_cb].
  rewrite Hst, Htx, Hid, Hcb. repeat split.
Qed.

Lemma Bounds_draw_lines lines : ∀ img,
  Bounds (draw_lines freetype_DrawLine lines img).1 = Bounds img.
Proof.
  induction lines as [|line lines IH]; intros img; [done|].
  cbn [draw_lines]. destruct (freetype_DrawLine line img) as [pix [e|]]; [done|].
  by rewrite IH.
Qed.

(** X27 ([WriteText]).  An index outside 0..15 gives
    [invalid key index], and the error of the first text line whose
    drawing fails is returned; in both cases nothing is sent, and an
    error is never returned after something was sent.  When every line
    is drawn, on a device that accepts every write, [WriteText] returns
    [nil] after sending the frames of a bitmap of 19254 bytes for the
    button. *)
Theorem WriteText_outcomes sd idx textBtn h :
  (idx < 0 ∨ 15 < idx →
     WriteText freetype_DrawLine sd idx textBtn h
     = (Done (Some "invalid key index"), h))
  ∧ (∀ e, 0 ≤ idx ≤ 15 →
       (draw_lines freetype_DrawLine (Lines textBtn)
          (draw_uniform (new_rgba ButtonSize) (BgColor textBtn))).2 = Some e →
       WriteText freetype_DrawLine sd idx textBtn h = (Done (Some e), h))
  ∧ (0 ≤ idx ≤ 15 →
       (draw_lines freetype_DrawLine (Lines textBtn)
          (draw_uniform (new_rgba ButtonSize) (BgColor textBtn))).2 = None →
       (∀ n, script h n = None) →
       ∃ bs, len bs = 19254 ∧
         WriteText freetype_DrawLine sd idx textBtn h
         = (Done None, after h (Write <$> frames (byte_of idx) bs)))
  ∧ (∀ e h', WriteText freetype_DrawLine sd idx textBtn h = (Done (Some e), h') →
       h' = h).
Proof.
  split; [|split; [|split]].
  - intros Hbad. unfold WriteText. by rewrite checkValidKeyIndex_rejects.
  - intros e Hidx He. unfold WriteText. rewrite checkValidKeyIndex_accepts by done.
    cbv zeta. destruct (draw_lines _ _ _) as [img err]. simpl in He. by subst err.
  - intros Hidx Hok Hs. unfold WriteText. rewrite checkValidKeyIndex_accepts by done.
    cbv zeta.
    pose proof (Bounds_draw_lines (Lines textBtn)
                  (draw_uniform (new_rgba ButtonSize) (BgColor textBtn))) as Hb.
    destruct (draw_lines _ _ _) as [img err]. simpl in Hok, Hb. subst err.
    exists (makeBitmap img 270). split.
    + rewrite length_makeBitmap; [|auto|..]; rewrite Hb; vm_compute; congruence.
    + rewrite (bind_done _ _ h None
                 (after h (Write <$> frames (byte_of idx) (makeBitmap img 270))));
        [done|].
      by apply FillImage_ok.
  - intros e h' Hrun. unfold WriteText in Hrun.
    destruct (checkValidKeyIndex idx); [by inversion Hrun|].
    cbv zeta in Hrun. destruct (draw_lines _ _ _) as [img [e'|]];
      [by inversion Hrun|].
    unfold bind in Hrun.
    destruct (FillImage sd idx img h) as [[r| |] h1]; by inversion Hrun.
Qed.
End WidgetProperties.

(** ** The properties at concrete inputs *)

Lemma makeBitmap_length_witness :
  len (makeBitmap shifted_white_button 90)
  = 54 + Dx (Bounds shifted_white_button) * Dy (Bounds shifted_white_button) * 3.
Proof.
  apply (makeBitmap_length shifted_white_button 90).
  - right. left. reflexivity.
  - vm_compute. discriminate.
  - vm_compute. discriminate.
Defined.

Lemma makeBitmap_negative_angle_witness :
  makeBitmap gradient_button (-90) = makeBitmap gradient_button ((-90) mod 360).
Proof. apply (makeBitmap_negative_angle gradient_button (-90)). lia. Defined.

Lemma makeBitmap_other_angle_witness :
  makeBitmap gradient_button 360
    = bitmap_header (Dx (Bounds gradient_button)) (Dy (Bounds gradient_button))
  ∧ length (makeBitmap gradient_button 360) = 54%nat
  ∧ le32_decode (makeBitmap gradient_button 360) 34
    = Some (uint32 (Dx (Bounds gradient_button) * Dy (Bounds gradient_button) * 3)).
Proof. apply (makeBitmap_other_angle gradient_button 360); lia. Defined.

Lemma makeBitmap_header_witness :
  let bs := makeBitmap gradient_button 270 in
  let turned := bool_decide (270 = 90 ∨ 270 = 270) in
  take 2 bs = [66; 77] ∧
  le32_decode bs 2 = Some (len bs) ∧
  le32_decode bs 10 = Some 54 ∧
  le32_decode bs 18 = Some (if turned then Dy (Bounds gradient_button)
                            else Dx (Bounds gradient_button)) ∧
  le32_decode bs 22 = Some (if turned then Dx (Bounds gradient_button)
                            else Dy (Bounds gradient_button)).
Proof.
  apply (makeBitmap_header gradient_button 270).
  - right. right. right. reflexivity.
  - vm_compute. split; [discriminate|reflexivity].
  - vm_compute. split; [discriminate|reflexivity].
  - vm_compute. reflexivity.
Defined.

Lemma makeBitmap_ignores_origin_witness :
  decode_stored_order (makeBitmap shifted_white_button 0) 3 12
  = rotate_grid 80 0
      (λ x y, Some (if point_in x y (Bounds shifted_white_button)
                    then rgb_of (255, 255, 255, 255) else (0, 0, 0))) 3 12.
Proof.
  apply (makeBitmap_ignores_origin (Bounds shifted_white_button)
           (λ _ _, (255, 255, 255, 255)) 80 0 3 12).
  - reflexivity.
  - reflexivity.
  - lia.
  - intros x y. unfold pixel_bytes. lia.
  - left. reflexivity.
  - lia.
  - lia.
Defined.

Lemma FillImage_error_iff_witness :
  FillImage mini_session 16 gradient_button healthy
  = (Done (Some "invalid key index"), healthy).
Proof.
  apply (proj2 (FillImage_error_iff mini_session 16 gradient_button healthy
                  "invalid key index" healthy)).
  split; [lia|]. split; reflexivity.
Defined.

Lemma frames_count_and_packing_witness :
  ∃ fs, writeBitmap mini_session 0 (replicate 2500 7) healthy
        = (Done None, after healthy (Write <$> fs)) ∧
    Z.of_nat (length fs) = Z.max 1 ((len (replicate 2500 7) + 1007) / 1008) ∧
    (∀ i f, fs !! i = Some f → (S i < length fs)%nat →
       drop 16 f = take 1008 (drop (1008 * i) (replicate 2500 7))) ∧
    (∀ f, last fs = Some f →
       take (length (replicate 2500 7) - 1008 * pred (length fs)) (drop 16 f)
       = drop (1008 * pred (length fs)) (replicate 2500 7)).
Proof.
  apply (frames_count_and_packing mini_session 0 (replicate 2500 7) healthy).
  intros n. reflexivity.
Defined.

Lemma FillColor_rejects_colour_witness :
  FillColor mini_session 0 256 0 0 healthy
  = (Done (Some "invalid color range"), healthy).
Proof. apply FillColor_rejects_colour. lia. Defined.

Lemma FillColor_round_trip_witness :
  ∃ fs, FillColor mini_session 3 255 0 0 healthy
        = (Done None, after healthy (Write <$> fs)) ∧
    length fs = 20%nat ∧
    (∀ f, f ∈ fs → f !! 5%nat = Some (3 + 1)) ∧
    len (payloads 19254 fs) = 19254 ∧
    ∀ x y, 0 ≤ x < ButtonSize → 0 ≤ y < ButtonSize →
      decode_stored_order (payloads 19254 fs) x y = Some (255, 0, 0).
Proof.
  apply (FillColor_round_trip mini_session 3 255 0 0 healthy); try lia.
  intros n. reflexivity.
Defined.

Lemma read_run_invariants_witness :
  ∃ sd' ns,
    read (SetBtnEventCb mini_session (Some 7%nat))
         [ReadErr "timeout"; ReadOk [1; 1; 0]; ReadOk [3]] = Done (sd', ns) ∧
    length (btnState sd') = length (btnState (SetBtnEventCb mini_session (Some 7%nat))) ∧
    btnEventCb sd' = btnEventCb (SetBtnEventCb mini_session (Some 7%nat)) ∧
    info sd' = info (SetBtnEventCb mini_session (Some 7%nat)) ∧
    ∀ n, n ∈ ns →
      btnEventCb (SetBtnEventCb mini_session (Some 7%nat)) = Some (n_cb n) ∧
      0 ≤ n_index n < len (btnState (SetBtnEventCb mini_session (Some 7%nat))).
Proof.
  apply (proj1 (read_run_invariants
                  [ReadErr "timeout"; ReadOk [1; 1; 0]; ReadOk [3]]
                  (SetBtnEventCb mini_session (Some 7%nat)))).
  repeat constructor; discriminate.
Defined.

Lemma read_same_pattern_witness :
  ∃ sd1 ns1,
    read_iteration mini_session (ReadOk (1 :: [1; 0; 2])) = Done (sd1, ns1) ∧
    read_iteration sd1 (ReadOk (1 :: [9; 0; 1])) = Done (sd1, []).
Proof. apply (read_same_pattern mini_session [1; 0; 2] [9; 0; 1]). reflexivity. Defined.

Lemma read_ignores_extra_bytes_witness :
  read_iteration mini_session (ReadOk (1 :: replicate 15 1 ++ [1; 1]))
  = read_iteration mini_session (ReadOk (1 :: replicate 15 1)).
Proof.
  apply (read_ignores_extra_bytes mini_session (replicate 15 1) [1; 1]).
  simpl. lia.
Defined.

Lemma NewStreamDeck_refuses_witness :
  NewStreamDeck ["A"; "B"] [mini_usb] healthy
  = (Done (None, Some "only <= 1 serial numbers must be provided"), healthy).
Proof.
  apply (proj1 (NewStreamDeck_refuses ["A"; "B"] [mini_usb] healthy)).
  unfold len. simpl. lia.
Defined.

Lemma NewStreamDeck_session_witness :
  @None error = None ∧
  ∃ pre d post fs,
    [mini_usb] = pre ++ d :: post ∧
    Forall (λ d, supported d ≠ true) pre ∧ supported d = true ∧
    usb_open d = None ∧
    info mini_session ∈ streamdeckDevices ∧
    ProductID (info mini_session) = usb_product d ∧
    btnEventCb mini_session = None ∧
    btnState mini_session = replicate 15 BtnReleased ∧
    (NewStreamDeck [] [mini_usb] healthy).2
      = after healthy ([SetFeatureReport 0 reset_payload;
                        SetFeatureReport 0 (brightness_payload 100)]
                       ++ (Write <$> fs) ++ [GoRead]) ∧
    script healthy (length (trace healthy)) = None.
Proof.
  apply (NewStreamDeck_session [] [mini_usb] healthy mini_session None
           (NewStreamDeck [] [mini_usb] healthy).2).
  vm_compute. reflexivity.
Defined.

Lemma button_rect_geometry_witness :
  Dx (button_rect 1 2) = ButtonSize - 1 ∧
  Dy (button_rect 1 2) = ButtonSize - 1 ∧
  rect_intersect (button_rect 1 2) panel_rect = button_rect 1 2 ∧
  ∀ row' col', 0 ≤ row' < NumButtonRows → 0 ≤ col' < NumButtonColumns →
    (row', col') ≠ (1, 2) →
    ∀ x y, point_in x y (button_rect 1 2) = true →
           point_in x y (button_rect row' col') = false.
Proof.
  apply (button_rect_geometry 1 2);
    unfold NumButtonRows, NumButtonColumns; lia.
Defined.

Lemma panel_cells_sample_the_corner_witness :
  decode_stored_order (cell_bitmap rgba_panel 0 0) 5 5 = Some (0, 0, 0).
Proof.
  apply (proj1 panel_cells_sample_the_corner rgba_panel 0 0 5 5).
  - reflexivity.
  - unfold NumButtonRows. lia.
  - unfold NumButtonColumns. lia.
  - discriminate.
  - lia.
  - lia.
Defined.

Lemma FillPanel_sends_fifteen_witness :
  FillPanel (λ r _ _, r) (λ _ _ _ _ _, (0, 0, 0, 0))
            (λ r _ _, r) (λ _ _ _ _ _, (0, 0, 0, 0))
            (λ _ dy, dy) mini_session rgba_panel healthy
  = (Done None, after healthy (Write <$> panel_frames rgba_panel)).
Proof.
  apply FillPanel_sends_fifteen.
  - reflexivity.
  - reflexivity.
  - vm_compute. discriminate.
  - intros n. reflexivity.
Defined.

Lemma LedButton_Draw_refuses_witness :
  LedButton_Draw blank_DrawString led_picture led_picture led_picture led_picture
    {| lb_streamDeck := mini_session; lb_ledColor := LEDGreen; lb_text := "RECORD";
       lb_textColor := White; lb_id := 2; lb_state := true |} healthy
  = (Done (Some "text line contains more than 5 characters"), healthy).
Proof.
  apply (proj1 (LedButton_Draw_refuses blank_DrawString
                  led_picture led_picture led_picture led_picture)).
  simpl. lia.
Defined.

Lemma LedButton_Draw_sends_witness :
  (lb_id ok_button < 0 ∨ 15 < lb_id ok_button →
     LedButton_Draw blank_DrawString led_picture led_picture led_picture led_picture
       ok_button healthy = (Done (Some "invalid key index"), healthy))
  ∧ (0 ≤ lb_id ok_button ≤ 15 → (∀ n, script healthy n = None) →
     ∃ bs,
       len bs = 54 + dev_ButtonSize (info (lb_streamDeck ok_button))
                     * dev_ButtonSize (info (lb_streamDeck ok_button)) * 3 ∧
       LedButton_Draw blank_DrawString led_picture led_picture led_picture led_picture
         ok_button healthy
       = (Done None, after healthy (Write <$> frames (byte_of (lb_id ok_button)) bs))).
Proof.
  apply (LedButton_Draw_sends blank_DrawString
           led_picture led_picture led_picture led_picture
           ok_button healthy led_oneLineThreeChars).
  - reflexivity.
  - reflexivity.
  - vm_compute. discriminate.
Defined.

Lemma Label_Draw_outcomes_witness :
  ∃ bs,
    len bs = 54 + dev_ButtonSize (info (l_streamDeck ok_label))
                  * dev_ButtonSize (info (l_streamDeck ok_label)) * 3 ∧
    Label_Draw blank_DrawString ok_label healthy
    = (Done None, after healthy (Write <$> frames (byte_of (l_id ok_label)) bs)).
Proof.
  apply (proj2 (proj2 (Label_Draw_outcomes blank_DrawString))
           ok_label healthy label_oneLineTwoChars).
  - reflexivity.
  - reflexivity.
  - vm_compute. discriminate.
  - simpl. lia.
  - intros n. reflexivity.
Defined.

Lemma WriteText_outcomes_witness :
  WriteText failing_DrawLine mini_session 0
    {| Lines := [one_line]; BgColor := Black |} healthy
  = (Done (Some "freetype: DrawText called with a nil font"), healthy).
Proof.
  apply (proj1 (proj2 (WriteText_outcomes unit Z failing_DrawLine mini_session 0
                         {| Lines := [one_line]; BgColor := Black |} healthy))).
  - lia.
  - reflexivity.
Defined.
